(** * Digital Media Persuasion Analyzer: the front-end logic of [script.js]

    A shallow embedding of the page script: the click handler of the analyze
    button (validation, request, error handling), the result renderer
    ([displayResults] and the functions it calls), the number tween and the
    timers it leaves behind, followed by the properties the specification
    states about them.

    Conventions of the embedding.
    - A JavaScript string is the list of its UTF-16 code units.
    - A JavaScript number is a binary64 float (Rocq's primitive [float]), so
      arithmetic and comparisons round and treat NaN as the engine does.
    - Where the script stores a number into a string property (a text
      content, a style value, a template literal), the engine's
      Number::toString is kept symbolic: a [text] is a list of pieces, either
      literal characters or "the decimal rendering of this number".
    - The page is a record with one field per element property the script
      reads or writes; effects that leave the page ([alert], [console.error],
      [fetch]) are appended to a log.
    - Timers are pending closures kept in the state; the event loop fires
      them one at a time, in any order.
    - The page has every element the script looks up by id and the chart
      library is loaded, so no lookup or constructor call throws. A style
      property holds the value assigned to it. *)

From Stdlib Require Import String Ascii.
From Stdlib Require Import ZArith NArith List Bool Lia.
From Stdlib Require Import Floats Uint63.
Import ListNotations.

#[local] Set Warnings "-inexact-float".
#[local] Open Scope list_scope.

(** ** Strings *)

Definition code_unit := N.
Definition jsstring := list code_unit.

(** A string literal of the script (Basic Latin only), as code units. *)
Fixpoint lit (s : string) : jsstring :=
  match s with
  | EmptyString => []
  | String c s' => N_of_ascii c :: lit s'
  end.

Arguments lit s%_string.

(** WhiteSpace and LineTerminator code points of ECMAScript, the ones
    [String.prototype.trim] strips. All of them are in the Basic Multilingual
    Plane, so the test is on single code units. *)
Definition is_white_space (c : code_unit) : bool :=
  ((9 <=? c) && (c <=? 13) || (c =? 32) || (c =? 160) || (c =? 5760)
   || (8192 <=? c) && (c <=? 8202)
   || (c =? 8232) || (c =? 8233) || (c =? 8239) || (c =? 8287)
   || (c =? 12288) || (c =? 65279))%N.

Fixpoint trimStart (s : jsstring) : jsstring :=
  match s with
  | [] => []
  | c :: s' => if is_white_space c then trimStart s' else s
  end.

Definition trimEnd (s : jsstring) : jsstring := rev (trimStart (rev s)).

Definition trim (s : jsstring) : jsstring := trimEnd (trimStart s).

(** [s.replace('_', ' ')] with a string pattern: only the first occurrence
    is replaced. *)
Fixpoint replace_first (from to : code_unit) (s : jsstring) : jsstring :=
  match s with
  | [] => []
  | c :: s' => if (c =? from)%N then to :: s' else c :: replace_first from to s'
  end.

(** [toUpperCase] of a one-unit string. Basic Latin is written out; the
    Unicode case table for the other code units belongs to the engine and is
    taken as a parameter where it is needed. *)
Definition toUpperCase1 (beyond_ascii : code_unit -> jsstring) (c : code_unit)
  : jsstring :=
  if ((97 <=? c) && (c <=? 122))%N then [(c - 32)%N]
  else if (c <? 128)%N then [c]
  else beyond_ascii c.

(** [key.charAt(0).toUpperCase() + key.slice(1)] *)
Definition capitalize (beyond_ascii : code_unit -> jsstring) (key : jsstring)
  : jsstring :=
  match key with
  | [] => []
  | c :: rest => toUpperCase1 beyond_ascii c ++ rest
  end.

(** Decimal digits of a natural number, most significant first. *)
Fixpoint uint_units (d : Decimal.uint) : jsstring :=
  match d with
  | Decimal.Nil => []
  | Decimal.D0 d' => 48%N :: uint_units d'
  | Decimal.D1 d' => 49%N :: uint_units d'
  | Decimal.D2 d' => 50%N :: uint_units d'
  | Decimal.D3 d' => 51%N :: uint_units d'
  | Decimal.D4 d' => 52%N :: uint_units d'
  | Decimal.D5 d' => 53%N :: uint_units d'
  | Decimal.D6 d' => 54%N :: uint_units d'
  | Decimal.D7 d' => 55%N :: uint_units d'
  | Decimal.D8 d' => 56%N :: uint_units d'
  | Decimal.D9 d' => 57%N :: uint_units d'
  end.

Definition digits (n : N) : jsstring := uint_units (N.to_uint n).

(** ** Numbers *)

Definition number := float.

(** A string value that may embed numbers converted by the engine. *)
Inductive piece :=
  | Chars (s : jsstring)
  | NumberToString (x : number).

Definition text := list piece.

(** The float with magnitude [|n|] (exact for [|n| <= 2^53]) and sign [s];
    a negative sign on zero gives [-0]. *)
Definition Z_to_number (s : bool) (n : Z) : number :=
  let a := PrimFloat.of_uint63 (Uint63.of_Z (Z.abs n)) in
  if s then (- a)%float else a.

(** [Math.round]: the integral number closest to [x], the one toward
    +infinity on a tie; NaN, the infinities, the zeros and numbers that are
    already integral are returned as they are. Computed on the exact value
    [(-1)^s * m * 2^e] of the float. *)
Definition Math_round (x : number) : number :=
  match Prim2SF x with
  | S754_finite s m e =>
      if (0 <=? e)%Z then x
      else
        let half := (2 ^ (- e))%Z in
        let twice := if s then (half - 2 * Z.pos m)%Z
                     else (2 * Z.pos m + half)%Z in
        Z_to_number s (twice / (2 * half))
  | _ => x
  end.

(** The digits of [n] with a decimal point before the last [f] of them,
    padded with zeros on the left to at least [f + 1] digits (steps 10 of
    Number.prototype.toFixed). *)
Definition fixed_digits (n : N) (f : nat) : jsstring :=
  let m := digits n in
  let m := repeat 48%N (S f - length m) ++ m in
  let k := length m in
  if Nat.eqb f 0 then m
  else firstn (k - f) m ++ lit "." ++ skipn (k - f) m.

(** [n] in step 9 of toFixed for the magnitude [m * 2^e]: the integer for
    which [n / 10^f] is closest to it, the larger one on a tie. *)
Definition fixed_nearest (m : positive) (e : Z) (f : nat) : N :=
  let scaled := (Z.pos m * 10 ^ Z.of_nat f)%Z in
  if (0 <=? e)%Z then Z.to_N (scaled * 2 ^ e)
  else Z.to_N ((2 * scaled + 2 ^ (- e)) / (2 * 2 ^ (- e))).

(** [m * 2^e >= 10^21] *)
Definition at_least_1e21 (m : positive) (e : Z) : bool :=
  if (0 <=? e)%Z then (10 ^ 21 <=? Z.pos m * 2 ^ e)%Z
  else (10 ^ 21 * 2 ^ (- e) <=? Z.pos m)%Z.

(** [x.toFixed(f)]. A number that is not finite, and the magnitude of one
    that is at least 10^21, is rendered by Number::toString. *)
Definition toFixed (x : number) (f : nat) : text :=
  match Prim2SF x with
  | S754_zero _ => [Chars (fixed_digits 0 f)]
  | S754_finite s m e =>
      if at_least_1e21 m e
      then (if s then [Chars (lit "-"); NumberToString (- x)%float]
            else [NumberToString x])
      else [Chars ((if s then lit "-" else []) ++
                   fixed_digits (fixed_nearest m e f) f)]
  | _ => [NumberToString x]
  end.

(** ** The data received from the analysis service *)

Record Sentiment := {
  polarity : number;
  subjectivity : number
}.

(** Objects used as maps are association lists in property order, the
    order [Object.keys], [Object.values] and [Object.entries] enumerate
    (for names that are not array indices, the order of the JSON text). *)
Record Keywords := {
  count : number;
  by_category : list (jsstring * number);
  words_found : list jsstring
}.

Record AnalysisResult := {
  persuasion_score : number;
  persuasion_label : jsstring;
  ethical_score : number;
  ethical_reflection : jsstring;
  sentiment : Sentiment;
  emotions : list (jsstring * number);
  persuasive_keywords : Keywords;
  highlighted_text : jsstring
}.

(** ** The page *)

(** The text box, the spinner, the results section and the button. Of a
    class list only the membership of [hidden] is kept. *)
Record controls := {
  textInput_value : jsstring;
  loadingSpinner_hidden : bool;
  resultsSection_hidden : bool;
  analyzeBtn_disabled : bool
}.

Record gauge_view := {
  gaugeProgress_strokeDashoffset : text;
  gaugeProgress_stroke : text;
  gaugeScore_text : text
}.

Record ethical_view := {
  ethicalCircle_strokeDashoffset : text;
  ethicalCircle_stroke : text;
  ethicalScore_fill : text;
  ethicalScore_text : text
}.

Record sentiment_view := {
  polarityBar_width : text;
  subjectivityBar_width : text;
  polarityValue_text : text;
  subjectivityValue_text : text
}.

(** A child of the two keyword containers. A category item is the markup
    of the template in [displayKeywords] with its two holes filled; the
    placeholder is the paragraph assigned when no word was found. *)
Inductive node :=
  | CategoryItem (name : jsstring) (n : number)
  | KeywordTag (word : jsstring)
  | Paragraph (style content : jsstring).

Record keywords_view := {
  keywordCount_text : text;
  keywordCategories : list node;
  keywordsList : list node
}.

Record captions := {
  persuasionLabel_text : jsstring;
  ethicalReflection_text : jsstring;
  highlightedText_html : jsstring
}.

Record dom := {
  ctl : controls;
  gau : gauge_view;
  eth : ethical_view;
  sen : sentiment_view;
  kwv : keywords_view;
  cap : captions
}.

(** ** Charts *)

(** What [displayEmotionChart] hands to the chart library: the labels, the
    values and the palette of the single dataset. The library paints
    segment [i] with the colour at index [i] of the palette, starting over
    when the palette is shorter than the data. The remaining options of
    the script are constants. *)
Record chart_config := {
  chart_type : jsstring;
  labels : list jsstring;
  data : list number;
  backgroundColor : list jsstring
}.

Record chart := {
  config : chart_config;
  destroyed : bool
}.

(** ** Timers and effects *)

(** The closures given to [setTimeout], with the variables they capture. *)
Inductive timeout_callback :=
  | GaugeStyle (offset score : number)
  | EthicalStyle (offset score : number)
  | SentimentBars (polarityPercent subjectivityPercent : number).

Inductive score_element := GaugeScore | EthicalScore.

(** The closure given to [setInterval] in [animateNumber]: the element it
    writes, its mutable [current], and the captured [increment] and [end]. *)
Record tween := {
  element : score_element;
  current : number;
  increment : number;
  target : number
}.

Record request := {
  url : jsstring;
  method : jsstring;
  content_type : jsstring;
  body_text : jsstring   (* JSON.stringify({ text: body_text }) *)
}.

Inductive effect :=
  | Alert (message : jsstring)
  | ConsoleError (label message : jsstring)
  | Fetch (r : request).

(** ** The state of the page script *)

Record state := {
  page : dom;
  emotionChart : option nat;      (* the global: null, or a chart by index *)
  charts : list chart;            (* every chart instance ever created *)
  next_timer : nat;
  timeouts : list (nat * timeout_callback);
  intervals : list (nat * tween);
  log : list effect
}.

Definition with_page (f : dom -> dom) (st : state) : state :=
  {| page := f (page st); emotionChart := emotionChart st;
     charts := charts st; next_timer := next_timer st;
     timeouts := timeouts st; intervals := intervals st; log := log st |}.

Definition do_effect (e : effect) (st : state) : state :=
  {| page := page st; emotionChart := emotionChart st;
     charts := charts st; next_timer := next_timer st;
     timeouts := timeouts st; intervals := intervals st;
     log := log st ++ [e] |}.

Definition setTimeout (cb : timeout_callback) (st : state) : state :=
  {| page := page st; emotionChart := emotionChart st;
     charts := charts st; next_timer := S (next_timer st);
     timeouts := timeouts st ++ [(next_timer st, cb)];
     intervals := intervals st; log := log st |}.

Definition setInterval (tw : tween) (st : state) : state :=
  {| page := page st; emotionChart := emotionChart st;
     charts := charts st; next_timer := S (next_timer st);
     timeouts := timeouts st;
     intervals := intervals st ++ [(next_timer st, tw)]; log := log st |}.

Definition with_controls (f : controls -> controls) (d : dom) : dom :=
  {| ctl := f (ctl d); gau := gau d; eth := eth d; sen := sen d;
     kwv := kwv d; cap := cap d |}.

Definition with_gauge (f : gauge_view -> gauge_view) (d : dom) : dom :=
  {| ctl := ctl d; gau := f (gau d); eth := eth d; sen := sen d;
     kwv := kwv d; cap := cap d |}.

Definition with_ethical (f : ethical_view -> ethical_view) (d : dom) : dom :=
  {| ctl := ctl d; gau := gau d; eth := f (eth d); sen := sen d;
     kwv := kwv d; cap := cap d |}.

Definition with_sentiment (f : sentiment_view -> sentiment_view) (d : dom)
  : dom :=
  {| ctl := ctl d; gau := gau d; eth := eth d; sen := f (sen d);
     kwv := kwv d; cap := cap d |}.

Definition with_keywords (f : keywords_view -> keywords_view) (d : dom)
  : dom :=
  {| ctl := ctl d; gau := gau d; eth := eth d; sen := sen d;
     kwv := f (kwv d); cap := cap d |}.

Definition with_captions (f : captions -> captions) (d : dom) : dom :=
  {| ctl := ctl d; gau := gau d; eth := eth d; sen := sen d;
     kwv := kwv d; cap := f (cap d) |}.

(** ** The number tween ([animateNumber]) *)

#[local] Open Scope float_scope.

(** [animateNumber(element, start, end, duration)]: computes the increment
    and starts the repeating timer; nothing is written before its first
    tick. *)
Definition animateNumber (el : score_element) (start end_ duration : number)
    (st : state) : state :=
  let range := end_ - start in
  let increment := range / (duration / 16) in
  setInterval {| element := el; current := start;
                 increment := increment; target := end_ |} st.

(** One run of the interval callback on its closure: the closure after the
    run, and whether it called [clearInterval] on its own timer. *)
Definition tick (tw : tween) : tween * bool :=
  let current := current tw + increment tw in
  if ((0 <? increment tw) && (target tw <=? current))
     || ((increment tw <? 0) && (current <=? target tw))
  then ({| element := element tw; current := target tw;
           increment := increment tw; target := target tw |}, true)
  else ({| element := element tw; current := current;
           increment := increment tw; target := target tw |}, false).

(** [element.textContent = Math.round(current)] *)
Definition write_score (el : score_element) (x : number) (d : dom) : dom :=
  let t := [NumberToString (Math_round x)] in
  match el with
  | GaugeScore =>
      with_gauge (fun g =>
        {| gaugeProgress_strokeDashoffset := gaugeProgress_strokeDashoffset g;
           gaugeProgress_stroke := gaugeProgress_stroke g;
           gaugeScore_text := t |}) d
  | EthicalScore =>
      with_ethical (fun e =>
        {| ethicalCircle_strokeDashoffset := ethicalCircle_strokeDashoffset e;
           ethicalCircle_stroke := ethicalCircle_stroke e;
           ethicalScore_fill := ethicalScore_fill e;
           ethicalScore_text := t |}) d
  end.

Fixpoint lookup {A} (id : nat) (l : list (nat * A)) : option A :=
  match l with
  | [] => None
  | (i, a) :: l' => if Nat.eqb i id then Some a else lookup id l'
  end.

Fixpoint remove_id {A} (id : nat) (l : list (nat * A)) : list (nat * A) :=
  match l with
  | [] => []
  | (i, a) :: l' => if Nat.eqb i id then remove_id id l'
                    else (i, a) :: remove_id id l'
  end.

Fixpoint update_id {A} (id : nat) (a' : A) (l : list (nat * A))
  : list (nat * A) :=
  match l with
  | [] => []
  | (i, a) :: l' => if Nat.eqb i id then (i, a') :: update_id id a' l'
                    else (i, a) :: update_id id a' l'
  end.

(** The event loop runs the callback of interval timer [id] once. A timer
    that is no longer registered does nothing. *)
Definition fire_interval (id : nat) (st : state) : state :=
  match lookup id (intervals st) with
  | None => st
  | Some tw =>
      let (tw', cleared) := tick tw in
      {| page := write_score (element tw') (current tw') (page st);
         emotionChart := emotionChart st; charts := charts st;
         next_timer := next_timer st; timeouts := timeouts st;
         intervals := if cleared then remove_id id (intervals st)
                      else update_id id tw' (intervals st);
         log := log st |}
  end.

(** ** Gauge and ethical ring *)

(** The colour chosen inside the delayed callback of [animateGauge]. *)
Definition gauge_colour (score : number) : jsstring :=
  if 80 <? score then lit "#ef4444"
  else if 50 <? score then lit "#f59e0b"
  else lit "#6366f1".

(** The colour chosen inside the delayed callback of
    [animateEthicalScore], used for the ring and for the number. *)
Definition ethical_colour (score : number) : jsstring :=
  if 70 <? score then lit "#10b981"
  else if 40 <? score then lit "#f59e0b"
  else lit "#ef4444".

Definition run_callback (cb : timeout_callback) (d : dom) : dom :=
  match cb with
  | GaugeStyle offset score =>
      with_gauge (fun g =>
        {| gaugeProgress_strokeDashoffset := [NumberToString offset];
           gaugeProgress_stroke := [Chars (gauge_colour score)];
           gaugeScore_text := gaugeScore_text g |}) d
  | EthicalStyle offset score =>
      with_ethical (fun e =>
        {| ethicalCircle_strokeDashoffset := [NumberToString offset];
           ethicalCircle_stroke := [Chars (ethical_colour score)];
           ethicalScore_fill := [Chars (ethical_colour score)];
           ethicalScore_text := ethicalScore_text e |}) d
  | SentimentBars polarityPercent subjectivityPercent =>
      with_sentiment (fun s =>
        {| polarityBar_width :=
             [NumberToString polarityPercent; Chars (lit "%")];
           subjectivityBar_width :=
             [NumberToString subjectivityPercent; Chars (lit "%")];
           polarityValue_text := polarityValue_text s;
           subjectivityValue_text := subjectivityValue_text s |}) d
  end.

(** The event loop runs the one-shot timer [id]. *)
Definition fire_timeout (id : nat) (st : state) : state :=
  match lookup id (timeouts st) with
  | None => st
  | Some cb =>
      {| page := run_callback cb (page st);
         emotionChart := emotionChart st; charts := charts st;
         next_timer := next_timer st;
         timeouts := remove_id id (timeouts st);
         intervals := intervals st; log := log st |}
  end.

Inductive timer_event :=
  | Timeout (id : nat)
  | Interval (id : nat).

Definition fire (ev : timer_event) (st : state) : state :=
  match ev with
  | Timeout id => fire_timeout id st
  | Interval id => fire_interval id st
  end.

(** A run of the event loop over a sequence of timer events. *)
Definition run_timers (evs : list timer_event) (st : state) : state :=
  fold_left (fun s ev => fire ev s) evs st.

Definition animateGauge (score : number) (st : state) : state :=
  let circumference := 251.2 in
  let offset := circumference - (score / 100) * circumference in
  let st := setTimeout (GaugeStyle offset score) st in
  animateNumber GaugeScore 0 score 2000 st.

Definition animateEthicalScore (score : number) (st : state) : state :=
  let circumference := 283 in
  let offset := circumference - (score / 100) * circumference in
  let st := setTimeout (EthicalStyle offset score) st in
  animateNumber EthicalScore 0 score 2000 st.

(** ** Sentiment bars *)

Definition displaySentiment (s : Sentiment) (st : state) : state :=
  let polarityPercent := ((polarity s + 1) / 2) * 100 in
  let subjectivityPercent := subjectivity s * 100 in
  let st := setTimeout (SentimentBars polarityPercent subjectivityPercent) st in
  with_page (with_sentiment (fun v =>
    {| polarityBar_width := polarityBar_width v;
       subjectivityBar_width := subjectivityBar_width v;
       polarityValue_text := toFixed (polarity s) 3;
       subjectivityValue_text := toFixed (subjectivity s) 3 |})) st.

(** ** Keyword panel *)

(** The body of the loop over [Object.entries(keywordsData.by_category)]:
    a category item is appended when the count is positive. *)
Definition append_category (container : list node)
    (entry : jsstring * number) : list node :=
  let (category, n) := entry in
  if 0 <? n
  then container ++ [CategoryItem (replace_first 95%N 32%N category) n]
  else container.

(** The [forEach] over [words_found]: one tag is appended per word. *)
Definition append_tag (container : list node) (word : jsstring) : list node :=
  container ++ [KeywordTag word].

Definition no_keywords : node :=
  Paragraph (lit "color: #718096;") (lit "No persuasive keywords detected.").

Definition displayKeywords (k : Keywords) (st : state) : state :=
  let categoriesContainer := fold_left append_category (by_category k) [] in
  let keywordsContainer :=
    if (0 <? length (words_found k))%nat
    then fold_left append_tag (words_found k) []
    else [no_keywords] in
  with_page (with_keywords (fun _ =>
    {| keywordCount_text := [NumberToString (count k)];
       keywordCategories := categoriesContainer;
       keywordsList := keywordsContainer |})) st.

(** ** Emotion chart *)

(** [chart.destroy()] on the instance at index [i]. *)
Fixpoint destroy (i : nat) (cs : list chart) : list chart :=
  match cs, i with
  | [], _ => []
  | c :: cs', O => {| config := config c; destroyed := true |} :: cs'
  | c :: cs', S i' => c :: destroy i' cs'
  end.

Definition palette : list jsstring :=
  [lit "#10b981";   (* Joy - Green *)
   lit "#ef4444";   (* Fear - Red *)
   lit "#dc2626";   (* Anger - Dark Red *)
   lit "#3b82f6"].  (* Trust - Blue *)

(** The tooltip callback of the chart options:
    [`${context.label}: ${context.parsed.toFixed(1)}%`] *)
Definition tooltip_label (label : jsstring) (parsed : number) : text :=
  [Chars (label ++ lit ": ")] ++ toFixed parsed 1 ++ [Chars (lit "%")].

(** ** Setters used by the render step *)

Definition set_persuasionLabel (s : jsstring) : dom -> dom :=
  with_captions (fun c =>
    {| persuasionLabel_text := s;
       ethicalReflection_text := ethicalReflection_text c;
       highlightedText_html := highlightedText_html c |}).

Definition set_ethicalReflection (s : jsstring) : dom -> dom :=
  with_captions (fun c =>
    {| persuasionLabel_text := persuasionLabel_text c;
       ethicalReflection_text := s;
       highlightedText_html := highlightedText_html c |}).

Definition set_highlightedText (s : jsstring) : dom -> dom :=
  with_captions (fun c =>
    {| persuasionLabel_text := persuasionLabel_text c;
       ethicalReflection_text := ethicalReflection_text c;
       highlightedText_html := s |}).

(** ** The click handler of the analyze button *)

Definition set_spinner_hidden (b : bool) : dom -> dom :=
  with_controls (fun c =>
    {| textInput_value := textInput_value c;
       loadingSpinner_hidden := b;
       resultsSection_hidden := resultsSection_hidden c;
       analyzeBtn_disabled := analyzeBtn_disabled c |}).

Definition set_results_hidden (b : bool) : dom -> dom :=
  with_controls (fun c =>
    {| textInput_value := textInput_value c;
       loadingSpinner_hidden := loadingSpinner_hidden c;
       resultsSection_hidden := b;
       analyzeBtn_disabled := analyzeBtn_disabled c |}).

Definition set_button_disabled (b : bool) : dom -> dom :=
  with_controls (fun c =>
    {| textInput_value := textInput_value c;
       loadingSpinner_hidden := loadingSpinner_hidden c;
       resultsSection_hidden := resultsSection_hidden c;
       analyzeBtn_disabled := b |}).

Definition validation_notice : jsstring :=
  lit "Please enter at least 10 characters of text to analyze.".

Definition analyze_request (textInput : jsstring) : request :=
  {| url := lit "/analyze"; method := lit "POST";
     content_type := lit "application/json"; body_text := textInput |}.

(** The handler is an async function: it runs until it returns or until
    its first [await], where it hands control back to the event loop. *)
Inductive suspension :=
  | Returned (st : state)
  | AwaitingFetch (st : state).

(** From the click to the [return] of the validation or to
    [await fetch(...)]. *)
Definition click (st : state) : suspension :=
  let textInput := trim (textInput_value (ctl (page st))) in
  if match textInput with [] => true | _ => false end
     || (length textInput <? 10)%nat
  then Returned (do_effect (Alert validation_notice) st)
  else
    let st := with_page (set_spinner_hidden false) st in
    let st := with_page (set_results_hidden true) st in
    let st := with_page (set_button_disabled true) st in
    AwaitingFetch (do_effect (Fetch (analyze_request textInput)) st).

(** What [response.json()] settles to: a rejection with the parser's
    message, or the parsed body. *)
Inductive json_result (A : Type) :=
  | SyntaxError (message : jsstring)
  | Parsed (body : A).

Arguments SyntaxError {A} message.
Arguments Parsed {A} body.

(** An error body that is not what the interface announces. *)
Inductive odd_error_body :=
  | NullBody (type_error : jsstring)
      (* the body is [null]: reading [error.error] throws a TypeError,
         with this message *)
  | FalsyError
      (* [error] is null, false or 0 *)
  | TruthyError (rendering : jsstring).
      (* [error] is true, a non-zero number, an array or an object;
         [rendering] is its conversion to a string, which [new Error]
         stores as the message *)

(** A success body that parses but need not have the shape of an
    [AnalysisResult]. The render reads it field by field, and what it
    does depends on which parts are there. A part is missing when the
    property is absent or null (a body that is a number, a string, a
    boolean or an array has no part at all). Scores stand for what
    [ToNumber] makes of the field (NaN when it is absent) and captions
    for what the setters of [textContent] and [innerHTML] make of it;
    counts of categories and values of emotions are numbers. *)
Inductive loose_sentiment :=
  | NoSentiment
      (* missing: reading [sentiment.polarity] throws *)
  | BadPolarity (polarityPercent subjectivityPercent : number)
      (* [polarity] is not a number: the two percents are what the
         arithmetic gives, then [polarity.toFixed] throws *)
  | BadSubjectivity (polarity subjectivityPercent : number)
      (* [polarity] is a number and [subjectivity] is not:
         [subjectivity.toFixed] throws *)
  | GoodSentiment (s : Sentiment).

Inductive loose_emotions :=
  | NoEmotions                                  (* [Object.keys] throws *)
  | GoodEmotions (e : list (jsstring * number)).

Inductive loose_keywords :=
  | NoKeywords
      (* missing: reading [keywordsData.count] throws *)
  | NoCategories (count_text : text)
      (* [by_category] is missing: [Object.entries] throws *)
  | NoWords (count_text : text) (by_category : list (jsstring * number))
      (* [words_found] is missing, or has a positive [length] and no
         [forEach]: reading [length] or calling [forEach] throws *)
  | GoodKeywords (k : Keywords).

Record loose_result := {
  loose_persuasion_score : number;
  loose_persuasion_label : jsstring;
  loose_ethical_score : number;
  loose_ethical_reflection : jsstring;
  loose_sentiment_part : loose_sentiment;
  loose_emotions_part : loose_emotions;
  loose_keywords_part : loose_keywords;
  loose_highlighted_text : jsstring
}.

Inductive loose_body :=
  | NullData                     (* the body is [null] *)
  | Loose (r : loose_result).

(** How the request settles. [NotOk] and [Ok] carry the bodies the
    interface of the analysis service announces: for an error one whose
    [error] is absent ([None]) or a string, for a success an
    [AnalysisResult]. [NotOkOdd] and [OkLoose] carry the other JSON
    bodies; [type_error] is the message of the TypeError the engine
    throws if the render fails on the body. *)
Inductive fetch_outcome :=
  | NetworkFailure (message : jsstring)              (* fetch rejects *)
  | NotOk (body : json_result (option jsstring))     (* !response.ok *)
  | Ok (body : json_result AnalysisResult)
  | NotOkOdd (body : odd_error_body)                 (* !response.ok *)
  | OkLoose (body : loose_body) (type_error : jsstring).

(** [error.error || 'Analysis failed']: the empty string is falsy. *)
Definition error_message (error : option jsstring) : jsstring :=
  match error with
  | Some (c :: s) => c :: s
  | _ => lit "Analysis failed"
  end.

Definition catch_block (message : jsstring) (st : state) : state :=
  let st := do_effect (ConsoleError (lit "Error:") message) st in
  let st := do_effect (Alert (lit "Error: " ++ message)) st in
  with_page (set_spinner_hidden true) st.

Definition finally_block (st : state) : state :=
  with_page (set_button_disabled false) st.

(** ** Example data *)

Definition example_page : dom :=
  {| ctl := {| textInput_value := lit "too short";
               loadingSpinner_hidden := true;
               resultsSection_hidden := true;
               analyzeBtn_disabled := false |};
     gau := {| gaugeProgress_strokeDashoffset := [];
               gaugeProgress_stroke := [];
               gaugeScore_text := [Chars (lit "0")] |};
     eth := {| ethicalCircle_strokeDashoffset := [];
               ethicalCircle_stroke := [];
               ethicalScore_fill := [];
               ethicalScore_text := [Chars (lit "0")] |};
     sen := {| polarityBar_width := []; subjectivityBar_width := [];
               polarityValue_text := []; subjectivityValue_text := [] |};
     kwv := {| keywordCount_text := []; keywordCategories := [];
               keywordsList := [] |};
     cap := {| persuasionLabel_text := []; ethicalReflection_text := [];
               highlightedText_html := [] |} |}.

(** A freshly loaded page: no chart yet, no timer pending. *)
Definition example_state : state :=
  {| page := example_page; emotionChart := None; charts := [];
     next_timer := 0%nat; timeouts := []; intervals := []; log := [] |}.

Definition type_text (s : jsstring) (st : state) : state :=
  with_page (with_controls (fun c =>
    {| textInput_value := s;
       loadingSpinner_hidden := loadingSpinner_hidden c;
       resultsSection_hidden := resultsSection_hidden c;
       analyzeBtn_disabled := analyzeBtn_disabled c |})) st.

Definition example_result : AnalysisResult :=
  {| persuasion_score := 72;
     persuasion_label := lit "Highly persuasive";
     ethical_score := 100;
     ethical_reflection := lit "Balanced framing.";
     sentiment := {| polarity := 0.25; subjectivity := 0.5 |};
     emotions := [(lit "joy", 40); (lit "fear", 10);
                  (lit "anger", 20); (lit "trust", 30)];
     persuasive_keywords :=
       {| count := 3;
          by_category := [(lit "urgency_words", 2); (lit "fear_appeal", 0);
                          (lit "social_proof", 1)];
          words_found := [lit "now"; lit "hurry"; lit "everyone"] |};
     highlighted_text := lit "<mark>Hurry</mark>, act now" |}.

(** A case table that leaves every code unit outside Basic Latin as it
    is (as the real one does for digits, punctuation and ideographs). *)
Definition example_upper (c : code_unit) : jsstring := [c].

(** Timer events that run the timers of one render to their end, when the
    render took the timer identifiers from [first] on: the three delayed
    callbacks, then 126 ticks of each tween. *)
Definition example_schedule (first : nat) : list timer_event :=
  [Timeout first; Timeout (2 + first); Timeout (4 + first)] ++
  repeat (Interval (1 + first)) 126 ++ repeat (Interval (3 + first)) 126.

Definition long_enough : jsstring := lit "  Act now, everyone agrees!  ".

(** ** The functions that depend on the case table *)

Section Script.

(** [String.prototype.toUpperCase] on a code unit outside Basic Latin. *)
Variable unicode_upper : code_unit -> jsstring.

Definition displayEmotionChart (emotions : list (jsstring * number))
    (st : state) : state :=
  (* Destroy existing chart if it exists *)
  let cs := match emotionChart st with
            | Some i => destroy i (charts st)
            | None => charts st
            end in
  let labels := map (fun kv => capitalize unicode_upper (fst kv)) emotions in
  let data := map snd emotions in
  let created := {| config := {| chart_type := lit "doughnut";
                                 labels := labels; data := data;
                                 backgroundColor := palette |};
                    destroyed := false |} in
  {| page := page st;
     emotionChart := Some (length cs);
     charts := cs ++ [created];
     next_timer := next_timer st; timeouts := timeouts st;
     intervals := intervals st; log := log st |}.

(** The render step. *)
Definition displayResults (r : AnalysisResult) (st : state) : state :=
  let st := animateGauge (persuasion_score r) st in
  let st := with_page (set_persuasionLabel (persuasion_label r)) st in
  let st := animateEthicalScore (ethical_score r) st in
  let st := with_page (set_ethicalReflection (ethical_reflection r)) st in
  let st := displaySentiment (sentiment r) st in
  let st := displayEmotionChart (emotions r) st in
  let st := displayKeywords (persuasive_keywords r) st in
  with_page (set_highlightedText (highlighted_text r)) st.

(** *** The render step on a body of any shape

    Each function returns the state at its end or at the statement that
    threw, and whether it threw. *)

(** [displaySentiment]: the percents are computed and the timer
    registered before the first [toFixed] is called. *)
Definition displaySentiment_loose (s : loose_sentiment) (st : state)
  : state * bool :=
  match s with
  | NoSentiment => (st, true)
  | BadPolarity polarityPercent subjectivityPercent =>
      (setTimeout (SentimentBars polarityPercent subjectivityPercent) st, true)
  | BadSubjectivity p subjectivityPercent =>
      let polarityPercent := ((p + 1) / 2) * 100 in
      let st :=
        setTimeout (SentimentBars polarityPercent subjectivityPercent) st in
      (with_page (with_sentiment (fun v =>
         {| polarityBar_width := polarityBar_width v;
            subjectivityBar_width := subjectivityBar_width v;
            polarityValue_text := toFixed p 3;
            subjectivityValue_text := subjectivityValue_text v |})) st, true)
  | GoodSentiment s => (displaySentiment s st, false)
  end.

(** [displayEmotionChart]: the existing chart is destroyed before
    [Object.keys] reads the emotions. *)
Definition displayEmotionChart_loose (e : loose_emotions) (st : state)
  : state * bool :=
  match e with
  | NoEmotions =>
      ({| page := page st;
          emotionChart := emotionChart st;
          charts := match emotionChart st with
                    | Some i => destroy i (charts st)
                    | None => charts st
                    end;
          next_timer := next_timer st; timeouts := timeouts st;
          intervals := intervals st; log := log st |}, true)
  | GoodEmotions e => (displayEmotionChart e st, false)
  end.

(** [displayKeywords]: the count is written and the categories container
    emptied before [Object.entries] is called; the rows are appended and
    the keywords container emptied before [words_found] is read. *)
Definition displayKeywords_loose (k : loose_keywords) (st : state)
  : state * bool :=
  match k with
  | NoKeywords => (st, true)
  | NoCategories count_text =>
      (with_page (with_keywords (fun v =>
         {| keywordCount_text := count_text;
            keywordCategories := [];
            keywordsList := keywordsList v |})) st, true)
  | NoWords count_text by_category =>
      (with_page (with_keywords (fun _ =>
         {| keywordCount_text := count_text;
            keywordCategories := fold_left append_category by_category [];
            keywordsList := [] |})) st, true)
  | GoodKeywords k => (displayKeywords k st, false)
  end.

Definition displayResults_loose (r : loose_result) (st : state)
  : state * bool :=
  let st := animateGauge (loose_persuasion_score r) st in
  let st := with_page (set_persuasionLabel (loose_persuasion_label r)) st in
  let st := animateEthicalScore (loose_ethical_score r) st in
  let st := with_page (set_ethicalReflection (loose_ethical_reflection r)) st in
  let (st, threw) := displaySentiment_loose (loose_sentiment_part r) st in
  if threw then (st, true)
  else
    let (st, threw) := displayEmotionChart_loose (loose_emotions_part r) st in
    if threw then (st, true)
    else
      let (st, threw) := displayKeywords_loose (loose_keywords_part r) st in
      if threw then (st, true)
      else (with_page (set_highlightedText (loose_highlighted_text r)) st,
            false).

(** The [try] block from the point where [fetch] settles: the state it
    leaves, and the message of the error it threw, if it threw. *)
Definition try_block (o : fetch_outcome) (st : state)
  : state * option jsstring :=
  match o with
  | NetworkFailure message => (st, Some message)
  | NotOk (SyntaxError message) => (st, Some message)
  | NotOk (Parsed error) => (st, Some (error_message error))
  | Ok (SyntaxError message) => (st, Some message)
  | Ok (Parsed data) =>
      let st := with_page (set_spinner_hidden true) st in
      let st := with_page (set_results_hidden false) st in
      (displayResults data st, None)
  | NotOkOdd (NullBody type_error) => (st, Some type_error)
  | NotOkOdd FalsyError => (st, Some (lit "Analysis failed"))
  | NotOkOdd (TruthyError rendering) => (st, Some rendering)
  | OkLoose body type_error =>
      let st := with_page (set_spinner_hidden true) st in
      let st := with_page (set_results_hidden false) st in
      match body with
      | NullData => (st, Some type_error)
      | Loose r =>
          let (st, threw) := displayResults_loose r st in
          (st, if threw then Some type_error else None)
      end
  end.

(** The rest of the handler once the request has settled. *)
Definition resume (o : fetch_outcome) (st : state) : state :=
  let (st, thrown) := try_block o st in
  let st := match thrown with
            | Some message => catch_block message st
            | None => st
            end in
  finally_block st.

(** One analysis attempt: the click, the timers of earlier renders that
    fire while the request is in flight, and the settlement. *)
Definition attempt (during : list timer_event) (o : fetch_outcome)
    (st : state) : state :=
  match click st with
  | Returned st' => st'
  | AwaitingFetch st' => resume o (run_timers during st')
  end.

(** * Properties *)

(** ** What firing timers leaves alone *)

(** The parts of the state no timer callback writes: the controls, the
    captions, the keyword panel, the charts, the log and the timer
    counter. *)
Definition same_outside_animation (st st' : state) : Prop :=
  ctl (page st') = ctl (page st) /\
  cap (page st') = cap (page st) /\
  kwv (page st') = kwv (page st) /\
  emotionChart st' = emotionChart st /\
  charts st' = charts st /\
  log st' = log st /\
  next_timer st' = next_timer st.

Lemma same_outside_animation_refl st : same_outside_animation st st.
Proof. repeat split. Qed.

Lemma same_outside_animation_trans st1 st2 st3 :
  same_outside_animation st1 st2 -> same_outside_animation st2 st3 ->
  same_outside_animation st1 st3.
Proof.
  unfold same_outside_animation; intros H12 H23.
  decompose [and] H12; decompose [and] H23; repeat split; congruence.
Qed.

Lemma fire_frame ev st : same_outside_animation st (fire ev st).
Proof.
  destruct ev as [id | id]; simpl.
  - unfold fire_timeout. destruct (lookup id (timeouts st)) as [cb |].
    + destruct cb; repeat split.
    + apply same_outside_animation_refl.
  - unfold fire_interval. destruct (lookup id (intervals st)) as [tw |].
    + destruct (tick tw) as [tw' cleared].
      destruct (element tw'); repeat split.
    + apply same_outside_animation_refl.
Qed.

Lemma run_timers_frame evs : forall st,
  same_outside_animation st (run_timers evs st).
Proof.
  induction evs as [| ev evs IH]; intro st; simpl.
  - apply same_outside_animation_refl.
  - eapply same_outside_animation_trans; [apply fire_frame | apply IH].
Qed.

(** ** Validation *)

Lemma click_rejects st :
  (length (trim (textInput_value (ctl (page st)))) < 10)%nat ->
  click st = Returned (do_effect (Alert validation_notice) st).
Proof.
  intro H. unfold click.
  apply Nat.ltb_lt in H. rewrite H, orb_true_r. reflexivity.
Qed.

Lemma click_accepts st :
  (10 <= length (trim (textInput_value (ctl (page st)))))%nat ->
  click st =
  AwaitingFetch
    (do_effect (Fetch (analyze_request (trim (textInput_value (ctl (page st))))))
       (with_page (set_button_disabled true)
          (with_page (set_results_hidden true)
             (with_page (set_spinner_hidden false) st)))).
Proof.
  intro H. unfold click.
  destruct (trim (textInput_value (ctl (page st)))) as [| c s] eqn:E.
  - simpl in H. lia.
  - apply Nat.ltb_ge in H. rewrite H. reflexivity.
Qed.

(** C1. Whatever the user typed, when the trimmed text has fewer than 10
    code units the click handler returns right after the [alert]: the
    effects of the whole attempt are the effects so far followed by the
    blocking notice, so no request to /analyze is issued, however the
    request would have settled. *)
Theorem short_input_blocks_submission :
  forall (raw : jsstring) (st : state),
    textInput_value (ctl (page st)) = raw ->
    (length (trim raw) < 10)%nat ->
    click st = Returned (do_effect (Alert validation_notice) st) /\
    forall during o,
      log (attempt during o st) = log st ++ [Alert validation_notice] /\
      forall r, In (Fetch r) (log (attempt during o st)) -> In (Fetch r) (log st).
Proof.
  intros raw st Hraw Hshort. subst raw.
  pose proof (click_rejects st Hshort) as Hc.
  split; [exact Hc |].
  intros during o. unfold attempt. rewrite Hc. simpl.
  split; [reflexivity |].
  intros r Hin. apply in_app_or in Hin. destruct Hin as [Hin | Hin].
  - exact Hin.
  - simpl in Hin. destruct Hin as [Hin | []]. discriminate Hin.
Qed.

(** C10. When validation rejects the input, the handler changes nothing
    but the log: the page (so the button, the spinner and the visibility
    of the results), the chart reference, the chart instances and the
    timers are the ones before the click. In particular an enabled button
    stays enabled and a hidden spinner stays hidden. *)
Theorem rejected_click_changes_nothing :
  forall (st : state),
    (length (trim (textInput_value (ctl (page st)))) < 10)%nat ->
    exists st',
      click st = Returned st' /\
      page st' = page st /\
      emotionChart st' = emotionChart st /\
      charts st' = charts st /\
      timeouts st' = timeouts st /\
      intervals st' = intervals st /\
      next_timer st' = next_timer st /\
      (analyzeBtn_disabled (ctl (page st)) = false ->
       analyzeBtn_disabled (ctl (page st')) = false) /\
      (loadingSpinner_hidden (ctl (page st)) = true ->
       loadingSpinner_hidden (ctl (page st')) = true) /\
      resultsSection_hidden (ctl (page st')) =
      resultsSection_hidden (ctl (page st)).
Proof.
  intros st Hshort.
  exists (do_effect (Alert validation_notice) st).
  split; [apply click_rejects; exact Hshort |].
  simpl. repeat split; auto.
Qed.

(** ** The request and its failures *)

Lemma displayResults_controls r st :
  ctl (page (displayResults r st)) = ctl (page st).
Proof. reflexivity. Qed.

Lemma displayResults_log r st : log (displayResults r st) = log st.
Proof. reflexivity. Qed.

(** The message the [catch] block receives when the [try] block throws
    before the results are revealed, by outcome; [None] when the [try]
    block reaches the render. *)
Definition thrown_message (o : fetch_outcome) : option jsstring :=
  match o with
  | NetworkFailure message => Some message
  | NotOk (SyntaxError message) => Some message
  | NotOk (Parsed (Some (c :: s))) => Some (c :: s)
  | NotOk (Parsed _) => Some (lit "Analysis failed")
  | Ok (SyntaxError message) => Some message
  | Ok (Parsed _) => None
  | NotOkOdd (NullBody type_error) => Some type_error
  | NotOkOdd FalsyError => Some (lit "Analysis failed")
  | NotOkOdd (TruthyError rendering) => Some rendering
  | OkLoose _ _ => None
  end.

Lemma try_block_throws o st message :
  thrown_message o = Some message ->
  try_block o st = (st, Some message).
Proof.
  destruct o as [m | [m | [[| c s] |]] | [m | data] | [m | | m] | body m];
    simpl; intro H; inversion H; reflexivity.
Qed.

(** The attempt of an accepted input whose request fails: the state in
    which the request was issued, after the timers that fired meanwhile,
    goes through [catch] and [finally]. *)
Lemma attempt_failure st during o message :
  (10 <= length (trim (textInput_value (ctl (page st)))))%nat ->
  thrown_message o = Some message ->
  exists awaiting,
    click st = AwaitingFetch awaiting /\
    attempt during o st =
    finally_block (catch_block message (run_timers during awaiting)) /\
    log awaiting =
    log st ++ [Fetch (analyze_request (trim (textInput_value (ctl (page st)))))] /\
    resultsSection_hidden (ctl (page awaiting)) = true /\
    cap (page awaiting) = cap (page st) /\
    kwv (page awaiting) = kwv (page st) /\
    charts awaiting = charts st /\
    emotionChart awaiting = emotionChart st /\
    next_timer awaiting = next_timer st.
Proof.
  intros Hlong Hthrown. eexists. split; [apply click_accepts; exact Hlong |].
  split.
  - unfold attempt. rewrite (click_accepts st Hlong). unfold resume.
    rewrite (try_block_throws _ _ _ Hthrown). reflexivity.
  - repeat split.
Qed.

(** The notice as the specification words it: the message of the error
    body, or the generic message when the error field is absent. *)
Definition claimed_notice (body : json_result (option jsstring)) : jsstring :=
  lit "Error: " ++ match body with
                   | Parsed (Some message) => message
                   | _ => lit "Analysis failed"
                   end.

(** The message the handler surfaces for a response that is not ok:
    [error] when it is a non-empty string, its conversion to a string
    when it is another truthy value, the generic message when it is
    absent or falsy (the empty string included), and the message of the
    exception when the body is not JSON or is [null]. [None] for the
    other outcomes. *)
Definition not_ok_message (o : fetch_outcome) : option jsstring :=
  match o with
  | NotOk (Parsed (Some (c :: s))) => Some (c :: s)
  | NotOk (Parsed _) => Some (lit "Analysis failed")
  | NotOk (SyntaxError message) => Some message
  | NotOkOdd (TruthyError rendering) => Some rendering
  | NotOkOdd FalsyError => Some (lit "Analysis failed")
  | NotOkOdd (NullBody type_error) => Some type_error
  | _ => None
  end.

(** The response arrived and is not ok. *)
Definition is_not_ok (o : fetch_outcome) : bool :=
  match o with
  | NotOk _ | NotOkOdd _ => true
  | _ => false
  end.

Lemma not_ok_has_message o :
  is_not_ok o = true -> exists message, not_ok_message o = Some message.
Proof.
  destruct o as [m | [m | [[| c s] |]] | [m | data] | [m | | m] | body m];
    simpl; intro H; try discriminate H; eexists; reflexivity.
Qed.

Lemma not_ok_message_thrown o message :
  not_ok_message o = Some message -> thrown_message o = Some message.
Proof.
  destruct o as [m | [m | [[| c s] |]] | [m | data] | [m | | m] | body m];
    simpl; intro H; try discriminate H; exact H.
Qed.

Lemma last_of_three {A} (l : list A) a b c d : last (l ++ [a; b; c]) d = c.
Proof.
  replace (l ++ [a; b; c]) with ((l ++ [a; b]) ++ [c])
    by (rewrite <- app_assoc; reflexivity).
  apply last_last.
Qed.

(** C3, amended. For an accepted input and every response that is not
    ok, whatever its body: [not_ok_message] gives a message, and the
    handler issues the one request, logs the error and shows one notice,
    "Error: " followed by that message; the spinner ends hidden, the
    results section hidden and the button enabled. With the body
    [{"error":"bad text"}] the notice is "Error: bad text". *)
Theorem not_ok_response_surfaces_error :
  forall (st : state) (during : list timer_event) (o : fetch_outcome),
    (10 <= length (trim (textInput_value (ctl (page st)))))%nat ->
    is_not_ok o = true ->
    let final := attempt during o st in
    exists message : jsstring,
      not_ok_message o = Some message /\
      log final =
        log st ++
        [Fetch (analyze_request (trim (textInput_value (ctl (page st)))));
         ConsoleError (lit "Error:") message;
         Alert (lit "Error: " ++ message)] /\
      last (log final) (Alert []) = Alert (lit "Error: " ++ message) /\
      analyzeBtn_disabled (ctl (page final)) = false /\
      loadingSpinner_hidden (ctl (page final)) = true /\
      resultsSection_hidden (ctl (page final)) = true /\
      (o = NotOk (Parsed (Some (lit "bad text"))) ->
       last (log final) (Alert []) = Alert (lit "Error: bad text")).
Proof.
  intros st during o Hlong Hnot final.
  destruct (not_ok_has_message o Hnot) as (message & Hmsg).
  exists message. split; [exact Hmsg |].
  pose proof (not_ok_message_thrown o message Hmsg) as Hthrown.
  destruct (attempt_failure st during _ _ Hlong Hthrown)
    as (awaiting & _ & Hfinal & Hlog & Hres & _).
  destruct (run_timers_frame during awaiting) as (Fctl & _ & _ & _ & _ & Flog & _).
  assert (Hl : log final =
               log st ++
               [Fetch (analyze_request (trim (textInput_value (ctl (page st)))));
                ConsoleError (lit "Error:") message;
                Alert (lit "Error: " ++ message)]).
  { subst final. rewrite Hfinal. simpl.
    rewrite Flog, Hlog. rewrite <- !app_assoc. reflexivity. }
  assert (Hlast : last (log final) (Alert []) = Alert (lit "Error: " ++ message)).
  { rewrite Hl. apply last_of_three. }
  split; [exact Hl |]. split; [exact Hlast |].
  split; [subst final; rewrite Hfinal; reflexivity |].
  split; [subst final; rewrite Hfinal; reflexivity |].
  split.
  - subst final. rewrite Hfinal. simpl. rewrite Fctl. exact Hres.
  - intro Ho. rewrite Hlast. subst o. simpl in Hmsg.
    inversion Hmsg. reflexivity.
Qed.

(** *** A render that throws *)

Definition sentiment_throws (s : loose_sentiment) : bool :=
  match s with GoodSentiment _ => false | _ => true end.

Definition emotions_throw (e : loose_emotions) : bool :=
  match e with GoodEmotions _ => false | NoEmotions => true end.

Definition keywords_throw (k : loose_keywords) : bool :=
  match k with GoodKeywords _ => false | _ => true end.

(** The render throws on the body: the body is [null], or one of the
    three nested parts is missing or unusable. *)
Definition render_throws (b : loose_body) : bool :=
  match b with
  | NullData => true
  | Loose r => sentiment_throws (loose_sentiment_part r)
               || emotions_throw (loose_emotions_part r)
               || keywords_throw (loose_keywords_part r)
  end.

(** The body [{}]: every read yields [undefined]. *)
Definition empty_object_body : loose_body :=
  Loose {| loose_persuasion_score := nan;
           loose_persuasion_label := [];
           loose_ethical_score := nan;
           loose_ethical_reflection := [];
           loose_sentiment_part := NoSentiment;
           loose_emotions_part := NoEmotions;
           loose_keywords_part := NoKeywords;
           loose_highlighted_text := lit "undefined" |}.

(** A result of the announced shape, as a body of any shape. *)
Definition loose_of (r : AnalysisResult) : loose_result :=
  {| loose_persuasion_score := persuasion_score r;
     loose_persuasion_label := persuasion_label r;
     loose_ethical_score := ethical_score r;
     loose_ethical_reflection := ethical_reflection r;
     loose_sentiment_part := GoodSentiment (sentiment r);
     loose_emotions_part := GoodEmotions (emotions r);
     loose_keywords_part := GoodKeywords (persuasive_keywords r);
     loose_highlighted_text := highlighted_text r |}.

Lemma displayResults_loose_of r st :
  displayResults_loose (loose_of r) st = (displayResults r st, false).
Proof. reflexivity. Qed.

(** On a body of the announced shape the two renders agree. *)
Lemma resume_loose_of r type_error st :
  resume (OkLoose (Loose (loose_of r)) type_error) st =
  resume (Ok (Parsed r)) st.
Proof. reflexivity. Qed.

Lemma displayResults_loose_frame r st :
  ctl (page (fst (displayResults_loose r st))) = ctl (page st) /\
  log (fst (displayResults_loose r st)) = log st /\
  snd (displayResults_loose r st) = render_throws (Loose r).
Proof.
  unfold displayResults_loose, render_throws.
  destruct (loose_sentiment_part r), (loose_emotions_part r),
    (loose_keywords_part r); repeat split.
Qed.

(** An accepted input whose 2xx body makes the render throw: the [try]
    block had already hidden the spinner and revealed the results. *)
Lemma attempt_render_failure st during body type_error :
  (10 <= length (trim (textInput_value (ctl (page st)))))%nat ->
  render_throws body = true ->
  exists awaiting rendered,
    click st = AwaitingFetch awaiting /\
    attempt during (OkLoose body type_error) st =
      finally_block (catch_block type_error rendered) /\
    ctl (page rendered) =
      {| textInput_value := textInput_value (ctl (page st));
         loadingSpinner_hidden := true;
         resultsSection_hidden := false;
         analyzeBtn_disabled := true |} /\
    log rendered =
      log st ++ [Fetch (analyze_request (trim (textInput_value (ctl (page st)))))].
Proof.
  intros Hlong Hthrows.
  destruct (run_timers_frame during
              (do_effect (Fetch (analyze_request
                                   (trim (textInput_value (ctl (page st))))))
                 (with_page (set_button_disabled true)
                    (with_page (set_results_hidden true)
                       (with_page (set_spinner_hidden false) st)))))
    as (Fctl & _ & _ & _ & _ & Flog & _).
  eexists. unfold attempt, resume. rewrite (click_accepts st Hlong).
  destruct body as [| r].
  - eexists. split; [reflexivity |]. split; [reflexivity |].
    simpl. rewrite Fctl, Flog. split; reflexivity.
  - cbn [try_block].
    destruct (displayResults_loose_frame r
                (with_page (set_results_hidden false)
                   (with_page (set_spinner_hidden true)
                      (run_timers during
                         (do_effect (Fetch (analyze_request
                                   (trim (textInput_value (ctl (page st))))))
                            (with_page (set_button_disabled true)
                               (with_page (set_results_hidden true)
                                  (with_page (set_spinner_hidden false) st))))))))
      as (Hctl & Hlog & Hsnd).
    rewrite Hthrows in Hsnd.
    destruct (displayResults_loose r _) as [rendered threw].
    simpl in Hctl, Hlog, Hsnd. subst threw.
    exists rendered. split; [reflexivity |]. split; [reflexivity |].
    rewrite Hctl, Hlog. simpl. rewrite Fctl, Flog. split; reflexivity.
Qed.

(** However the request settles, the handler ends with the spinner
    hidden and the button enabled. *)
Lemma resume_ready o st :
  loadingSpinner_hidden (ctl (page (resume o st))) = true /\
  analyzeBtn_disabled (ctl (page (resume o st))) = false.
Proof.
  destruct o as [m | [m | [[| c s] |]] | [m | data] | [m | | m] | [| r] m];
    try (split; reflexivity).
  unfold resume, try_block.
  destruct (displayResults_loose_frame r
              (with_page (set_results_hidden false)
                 (with_page (set_spinner_hidden true) st))) as (Hctl & _ & _).
  destruct (displayResults_loose r _) as [st' threw].
  simpl in Hctl. destruct threw; simpl; [split; reflexivity |].
  rewrite Hctl. split; reflexivity.
Qed.

(** C9, where the render throws. For an accepted input and a 2xx body
    that parses but on which the render throws (the body [null], or one
    in which [sentiment], [emotions] or [persuasive_keywords] is missing
    or unusable): the
    notice is shown, the spinner ends hidden and the button enabled,
    but the results section ends visible, revealed before the render
    began. With the body [{}] it shows the emptied captions and the two
    score animations that were started before [displaySentiment] threw.
    The failures before the render (the request is rejected, the
    response is not ok, the body is not JSON) leave the results section
    hidden, and every outcome leaves the spinner hidden. *)
Theorem render_failure_leaves_results_visible :
  forall (st : state) (during : list timer_event) (body : loose_body)
         (type_error : jsstring),
    (10 <= length (trim (textInput_value (ctl (page st)))))%nat ->
    render_throws body = true ->
    let final := attempt during (OkLoose body type_error) st in
    resultsSection_hidden (ctl (page final)) = false /\
    loadingSpinner_hidden (ctl (page final)) = true /\
    analyzeBtn_disabled (ctl (page final)) = false /\
    log final =
      log st ++
      [Fetch (analyze_request (trim (textInput_value (ctl (page st)))));
       ConsoleError (lit "Error:") type_error;
       Alert (lit "Error: " ++ type_error)] /\
    (body = empty_object_body ->
     persuasionLabel_text (cap (page final)) = [] /\
     ethicalReflection_text (cap (page final)) = [] /\
     highlightedText_html (cap (page final)) =
       highlightedText_html (cap (page st)) /\
     next_timer final = (4 + next_timer st)%nat /\
     charts final = charts st) /\
    (forall o message,
        thrown_message o = Some message ->
        resultsSection_hidden (ctl (page (attempt during o st))) = true) /\
    (forall o,
        loadingSpinner_hidden (ctl (page (attempt during o st))) = true).
Proof.
  intros st during body type_error Hlong Hthrows final.
  destruct (attempt_render_failure st during body type_error Hlong Hthrows)
    as (awaiting & rendered & Hc & Hfinal & Hctl & Hlog).
  split; [subst final; rewrite Hfinal; simpl; rewrite Hctl; reflexivity |].
  split; [subst final; rewrite Hfinal; reflexivity |].
  split; [subst final; rewrite Hfinal; reflexivity |].
  split.
  { subst final. rewrite Hfinal. simpl. rewrite Hlog.
    rewrite <- !app_assoc. reflexivity. }
  split.
  - intro Hbody. subst body final. unfold attempt, resume.
    rewrite (click_accepts st Hlong).
    destruct (run_timers_frame during
                (do_effect (Fetch (analyze_request
                                     (trim (textInput_value (ctl (page st))))))
                   (with_page (set_button_disabled true)
                      (with_page (set_results_hidden true)
                         (with_page (set_spinner_hidden false) st)))))
      as (_ & Fcap & _ & _ & Fch & _ & Fnt).
    simpl. rewrite Fcap, Fch, Fnt. repeat split.
  - split.
    + intros o message Hthrown.
      destruct (attempt_failure st during _ _ Hlong Hthrown)
        as (awaiting' & _ & Hfinal' & _ & Hres & _).
      destruct (run_timers_frame during awaiting') as (Fctl & _).
      rewrite Hfinal'. simpl. rewrite Fctl. exact Hres.
    + intro o. unfold attempt. rewrite (click_accepts st Hlong).
      apply resume_ready.
Qed.

(** ** Comparing numbers *)

Lemma SFcompare_antisym x y :
  SFcompare y x = option_map CompOpp (SFcompare x y).
Proof.
  destruct x as [sx | sx | | sx mx ex], y as [sy | sy | | sy my ey]; simpl;
    try reflexivity;
    try (destruct sx; reflexivity); try (destruct sy; reflexivity);
    try (destruct sx, sy; reflexivity).
  destruct sx, sy; try reflexivity;
    rewrite (Z.compare_antisym ex ey);
    destruct (ex ?= ey)%Z; simpl; try reflexivity;
    rewrite ?(Pos.compare_cont_antisym mx my Eq); simpl;
    destruct (Pos.compare_cont Eq my mx); reflexivity.
Qed.

(** [x <= y] excludes [y < x]. *)
Lemma leb_not_ltb (x y : number) : (x <=? y) = true -> (y <? x) = false.
Proof.
  rewrite FloatAxioms.leb_spec, FloatAxioms.ltb_spec. unfold SFleb, SFltb.
  rewrite (SFcompare_antisym (Prim2SF x) (Prim2SF y)).
  destruct (SFcompare (Prim2SF x) (Prim2SF y)) as [[| |] |]; simpl;
    intro H; try reflexivity; discriminate H.
Qed.

(** For numbers that are not NaN, [not (y < x)] gives [x <= y]. *)
Lemma not_ltb_leb (lo x y : number) :
  (lo <=? x) = true -> (y <=? y) = true -> (y <? x) = false -> (x <=? y) = true.
Proof.
  rewrite !FloatAxioms.leb_spec, FloatAxioms.ltb_spec. unfold SFleb, SFltb.
  rewrite (SFcompare_antisym (Prim2SF x) (Prim2SF y)).
  intros Hx Hy.
  assert (Nx : Prim2SF x <> S754_nan).
  { intro E. rewrite E in Hx. destruct (Prim2SF lo); discriminate Hx. }
  assert (Ny : Prim2SF y <> S754_nan).
  { intro E. rewrite E in Hy. discriminate Hy. }
  destruct (Prim2SF x) as [sx | sx | | sx mx ex],
           (Prim2SF y) as [sy | sy | | sy my ey];
    try congruence; simpl;
    try (destruct sx; simpl; congruence);
    try (destruct sy; simpl; congruence);
    try (destruct sx, sy; simpl; congruence).
  destruct sx, sy; simpl; try congruence;
    destruct (ex ?= ey)%Z; simpl; try congruence;
    destruct (Pos.compare_cont Eq mx my); simpl; congruence.
Qed.

(** Below the lower of two positive thresholds with different exponents
    is not above the upper one. *)
Lemma leb_lower_not_above_upper (lo hi x : number) mlo elo mhi ehi :
  Prim2SF lo = S754_finite false mlo elo ->
  Prim2SF hi = S754_finite false mhi ehi ->
  (elo < ehi)%Z ->
  (x <=? lo) = true -> (hi <? x) = false.
Proof.
  intros Elo Ehi Hlt. rewrite FloatAxioms.leb_spec, FloatAxioms.ltb_spec, Elo, Ehi.
  unfold SFleb, SFltb.
  destruct (Prim2SF x) as [sx | sx | | sx mx ex]; simpl;
    try reflexivity;
    try (destruct sx; simpl; intro H; first [reflexivity | discriminate H]).
  destruct sx; [reflexivity |].
  destruct (Z.compare_spec ex elo) as [E | L | G]; intro H;
    try discriminate H.
  - subst ex. rewrite (proj2 (Z.compare_gt_iff ehi elo)) by lia. reflexivity.
  - rewrite (proj2 (Z.compare_gt_iff ehi ex)) by lia. reflexivity.
Qed.

(** ** Colour tiers *)

Lemma gauge_not_above_80 x : (x <=? 50) = true -> (80 <? x) = false.
Proof.
  apply (leb_lower_not_above_upper 50 80 x
           7036874417766400 (-47) 5629499534213120 (-46));
    [vm_compute; reflexivity | vm_compute; reflexivity | lia].
Qed.

Lemma ethical_not_above_70 x : (x <=? 40) = true -> (70 <? x) = false.
Proof.
  apply (leb_lower_not_above_upper 40 70 x
           5629499534213120 (-47) 4925812092436480 (-46));
    [vm_compute; reflexivity | vm_compute; reflexivity | lia].
Qed.

Inductive tier := High | Moderate | Low.

(** The colours of the gauge, as the script names them: red for high
    persuasion, orange for moderate, purple for low. *)
Definition persuasion_tier_colour (t : tier) : jsstring :=
  match t with
  | High => lit "#ef4444"
  | Moderate => lit "#f59e0b"
  | Low => lit "#6366f1"
  end.

(** The colours of the ethical ring: green for high ethics, orange for
    moderate, red for low. *)
Definition ethical_tier_colour (t : tier) : jsstring :=
  match t with
  | High => lit "#10b981"
  | Moderate => lit "#f59e0b"
  | Low => lit "#ef4444"
  end.

(** The tier of a score for thresholds [hi] and [lo], as the
    specification words it. *)
Definition in_tier (hi lo s : number) (t : tier) : Prop :=
  match t with
  | High => (hi <? s) = true
  | Moderate => (lo <? s) = true /\ (s <=? hi) = true
  | Low => (s <=? lo) = true
  end.

Lemma gauge_colour_tier s t :
  in_tier 80 50 s t -> gauge_colour s = persuasion_tier_colour t.
Proof.
  unfold gauge_colour. destruct t; simpl.
  - intro H. rewrite H. reflexivity.
  - intros [Hlo Hhi]. rewrite (leb_not_ltb _ _ Hhi), Hlo. reflexivity.
  - intro H. rewrite (gauge_not_above_80 _ H), (leb_not_ltb _ _ H).
    reflexivity.
Qed.

Lemma ethical_colour_tier s t :
  in_tier 70 40 s t -> ethical_colour s = ethical_tier_colour t.
Proof.
  unfold ethical_colour. destruct t; simpl.
  - intro H. rewrite H. reflexivity.
  - intros [Hlo Hhi]. rewrite (leb_not_ltb _ _ Hhi), Hlo. reflexivity.
  - intro H. rewrite (ethical_not_above_70 _ H), (leb_not_ltb _ _ H).
    reflexivity.
Qed.

(** Every score of the range is in one of the three tiers. *)
Lemma tier_exists hi lo s :
  (hi <=? hi) = true -> (lo <=? lo) = true ->
  (0 <=? s) = true -> exists t, in_tier hi lo s t.
Proof.
  intros Hhi Hlo Hs.
  destruct (hi <? s) eqn:E1; [exists High; exact E1 |].
  destruct (lo <? s) eqn:E2.
  - exists Moderate. split; [exact E2 |].
    apply (not_ltb_leb 0 s hi Hs Hhi E1).
  - exists Low. apply (not_ltb_leb 0 s lo Hs Hlo E2).
Qed.

(** C5. For every score [s] in [0,100]: the delayed callback that
    [animateGauge] registers paints the gauge with the colour of the tier
    of [s] for the thresholds 80 and 50 (above 80 high, above 50 and at
    most 80 moderate, at most 50 low), the one [animateEthicalScore]
    registers paints the ring and its number with the colour of the tier
    for the thresholds 70 and 40, from the ring's own colours; and [s] is
    in one tier of each scale. *)
Theorem colour_tiers_by_threshold :
  forall (s : number),
    (0 <=? s) = true -> (s <=? 100) = true ->
    (forall t st,
        in_tier 80 50 s t ->
        exists offset,
          timeouts (animateGauge s st) =
            timeouts st ++ [(next_timer st, GaugeStyle offset s)] /\
          forall d,
            gaugeProgress_stroke (gau (run_callback (GaugeStyle offset s) d)) =
              [Chars (persuasion_tier_colour t)]) /\
    (forall t st,
        in_tier 70 40 s t ->
        exists offset,
          timeouts (animateEthicalScore s st) =
            timeouts st ++ [(next_timer st, EthicalStyle offset s)] /\
          forall d,
            let e := eth (run_callback (EthicalStyle offset s) d) in
            ethicalCircle_stroke e = [Chars (ethical_tier_colour t)] /\
            ethicalScore_fill e = [Chars (ethical_tier_colour t)]) /\
    (exists t, in_tier 80 50 s t) /\
    (exists t, in_tier 70 40 s t).
Proof.
  intros s H0 H100. repeat split.
  - intros t st Ht. eexists. split; [reflexivity |].
    intro d. simpl. rewrite (gauge_colour_tier s t Ht). reflexivity.
  - intros t st Ht. eexists. split; [reflexivity |].
    intro d. simpl. rewrite (ethical_colour_tier s t Ht). split; reflexivity.
  - apply tier_exists; [reflexivity | reflexivity | exact H0].
  - apply tier_exists; [reflexivity | reflexivity | exact H0].
Qed.

(** ** Rounding to a fixed number of decimals *)

(** [n] is the integer nearest to [m * 2^e * 10^f], the larger one on a
    tie: the requirement of Number.prototype.toFixed on its digits. *)
Definition nearest (m : positive) (e : Z) (f : nat) (n : N) : Prop :=
  let scaled := (Z.pos m * 10 ^ Z.of_nat f)%Z in
  if (0 <=? e)%Z then Z.of_N n = (scaled * 2 ^ e)%Z
  else (- 2 ^ (- e) < 2 * (Z.of_N n * 2 ^ (- e) - scaled) <= 2 ^ (- e))%Z.

Lemma fixed_nearest_is_nearest m e f : nearest m e f (fixed_nearest m e f).
Proof.
  unfold nearest, fixed_nearest.
  destruct (0 <=? e)%Z eqn:He.
  - apply Z.leb_le in He. rewrite Z2N.id; [reflexivity |].
    apply Z.mul_nonneg_nonneg; [| apply Z.pow_nonneg; lia].
    apply Z.mul_nonneg_nonneg; [lia | apply Z.pow_nonneg; lia].
  - apply Z.leb_gt in He.
    set (K := (2 ^ (- e))%Z). set (M := (Z.pos m * 10 ^ Z.of_nat f)%Z).
    assert (HK : (0 < K)%Z) by (apply Z.pow_pos_nonneg; lia).
    assert (HM : (0 <= M)%Z).
    { apply Z.mul_nonneg_nonneg; [lia | apply Z.pow_nonneg; lia]. }
    pose proof (Z.div_mod (2 * M + K) (2 * K) ltac:(lia)) as Hdm.
    pose proof (Z.mod_pos_bound (2 * M + K) (2 * K) ltac:(lia)) as Hmod.
    assert (Hq : (0 <= (2 * M + K) / (2 * K))%Z)
      by (apply Z.div_pos; lia).
    rewrite Z2N.id by exact Hq.
    set (q := ((2 * M + K) / (2 * K))%Z) in *.
    nia.
Qed.

(** What [x.toFixed(f)] shows of a number [x]: an optional minus sign and
    the digits of the integer nearest to [|x| * 10^f], with the decimal
    point before the last [f] of them. *)
Definition shows_rounded (f : nat) (x : number) (t : text) : Prop :=
  match Prim2SF x with
  | S754_zero _ => t = [Chars (fixed_digits 0 f)]
  | S754_finite s m e =>
      exists n, nearest m e f n /\
                t = [Chars ((if s then lit "-" else []) ++ fixed_digits n f)]
  | _ => False
  end.

Lemma digits2_pos_bound m : (Z.pos m < 2 ^ Z.pos (digits2_pos m))%Z.
Proof.
  induction m as [m IH | m IH |]; simpl digits2_pos.
  - rewrite Pos2Z.inj_succ, Z.pow_succ_r by lia. lia.
  - rewrite Pos2Z.inj_succ, Z.pow_succ_r by lia. lia.
  - simpl. lia.
Qed.

(** The mantissa of a float has at most 53 bits. *)
Lemma mantissa_bound (x : number) s m e :
  Prim2SF x = S754_finite s m e -> (Z.pos m < 2 ^ 53)%Z.
Proof.
  intro E. pose proof (Prim2SF_valid x) as V. rewrite E in V.
  simpl in V. unfold bounded, canonical_mantissa, fexp in V.
  apply andb_prop in V. destruct V as [V _]. apply Z.eqb_eq in V.
  pose proof (digits2_pos_bound m) as B.
  assert (D : (Z.pos (digits2_pos m) <= 53)%Z) by (unfold FloatOps.prec in V; lia).
  eapply Z.lt_le_trans; [exact B |].
  apply Z.pow_le_mono_r; lia.
Qed.

(** A number between -1 and 1 is a zero or has a negative exponent. *)
Lemma unit_range_exponent (x : number) s m e :
  (-1 <=? x) = true -> (x <=? 1) = true ->
  Prim2SF x = S754_finite s m e -> (e <= -52)%Z.
Proof.
  rewrite !FloatAxioms.leb_spec. intros Hlo Hhi E. rewrite E in Hlo, Hhi.
  change (Prim2SF 1) with (S754_finite false 4503599627370496 (-52)) in Hhi.
  change (Prim2SF (-1)) with (S754_finite true 4503599627370496 (-52)) in Hlo.
  unfold SFleb in Hlo, Hhi. cbn [SFcompare] in Hlo, Hhi.
  destruct s.
  - destruct (Z.compare_spec (-52) e) as [Eq | L | G];
      [lia | discriminate Hlo | lia].
  - destruct (Z.compare_spec e (-52)) as [Eq | L | G];
      [lia | lia | discriminate Hhi].
Qed.

Lemma unit_range_not_nan_inf (x : number) :
  (-1 <=? x) = true -> (x <=? 1) = true ->
  Prim2SF x <> S754_nan /\ forall s, Prim2SF x <> S754_infinity s.
Proof.
  rewrite !FloatAxioms.leb_spec. intros Hlo Hhi.
  change (Prim2SF 1) with (S754_finite false 4503599627370496 (-52)) in Hhi.
  change (Prim2SF (-1)) with (S754_finite true 4503599627370496 (-52)) in Hlo.
  split.
  - intro E. rewrite E in Hhi. discriminate Hhi.
  - intros s E. rewrite E in Hlo, Hhi. destruct s; discriminate.
Qed.

(** [toFixed] of a number between -1 and 1 shows it rounded. *)
Lemma toFixed_unit_range (x : number) (f : nat) :
  (-1 <=? x) = true -> (x <=? 1) = true ->
  shows_rounded f x (toFixed x f).
Proof.
  intros Hlo Hhi.
  destruct (unit_range_not_nan_inf x Hlo Hhi) as [Hnan Hinf].
  pose proof (unit_range_exponent x) as Hexp.
  pose proof (mantissa_bound x) as Hm.
  unfold shows_rounded, toFixed.
  destruct (Prim2SF x) as [s | s | | s m e].
  - reflexivity.
  - exfalso. apply (Hinf s). reflexivity.
  - exfalso. apply Hnan. reflexivity.
  - specialize (Hexp s m e Hlo Hhi eq_refl). specialize (Hm s m e eq_refl).
    assert (Hsmall : at_least_1e21 m e = false).
    { unfold at_least_1e21.
      destruct (0 <=? e)%Z eqn:He; [apply Z.leb_le in He; lia |].
      apply Z.leb_gt.
      assert (1 <= 2 ^ (- e))%Z by (apply Z.lt_pred_le, Z.pow_pos_nonneg; lia).
      assert (2 ^ 53 < 10 ^ 21)%Z by reflexivity.
      nia. }
    rewrite Hsmall. eexists. split; [apply fixed_nearest_is_nearest |].
    reflexivity.
Qed.

Lemma nonneg_above_minus_one (x : number) :
  (0 <=? x) = true -> (-1 <=? x) = true.
Proof.
  rewrite !FloatAxioms.leb_spec.
  change (Prim2SF 0) with (S754_zero false).
  change (Prim2SF (-1)) with (S754_finite true 4503599627370496 (-52)).
  unfold SFleb.
  destruct (Prim2SF x) as [s | s | | s m e]; cbn [SFcompare];
    try (intro; reflexivity); try (intro H; discriminate H);
    destruct s; cbn iota; intro H; try reflexivity; discriminate H.
Qed.

(** ** Timer identifiers *)

(** Every pending timer has an identifier below the counter. *)
Definition ids_below {A} (n : nat) (l : list (nat * A)) : Prop :=
  forall id a, In (id, a) l -> (id < n)%nat.

Definition timers_fresh (st : state) : Prop :=
  ids_below (next_timer st) (timeouts st) /\
  ids_below (next_timer st) (intervals st).

Lemma lookup_none_of_below {A} n (l : list (nat * A)) id :
  ids_below n l -> (n <= id)%nat -> lookup id l = None.
Proof.
  induction l as [| [i a] l IH]; intros Hb Hn; simpl; [reflexivity |].
  destruct (Nat.eqb_spec i id) as [E | NE].
  - subst i. specialize (Hb id a (or_introl eq_refl)). lia.
  - apply IH; [| exact Hn]. intros id' a' Hin. apply (Hb id' a'). right. exact Hin.
Qed.

Lemma lookup_app {A} (l l' : list (nat * A)) id :
  lookup id (l ++ l') =
  match lookup id l with Some a => Some a | None => lookup id l' end.
Proof.
  induction l as [| [i a] l IH]; simpl; [reflexivity |].
  destruct (Nat.eqb i id); [reflexivity | exact IH].
Qed.

Lemma lookup_registered {A} n (l : list (nat * A)) a :
  ids_below n l -> lookup n (l ++ [(n, a)]) = Some a.
Proof.
  intro Hb. rewrite lookup_app, (lookup_none_of_below n l n Hb) by lia.
  simpl. rewrite Nat.eqb_refl. reflexivity.
Qed.

(** ** Sentiment bars *)

(** C6. For a polarity [p] in [-1,1] and a subjectivity [q] in [0,1]:
    [displaySentiment] writes both values rounded to three decimals at
    once and registers one delayed callback; when that callback runs, the
    polarity bar is as wide as [(p+1)/2*100] percent (0 at [p = -1], 50
    at [p = 0], 100 at [p = 1]) and the subjectivity bar as wide as
    [q*100] percent. *)
Theorem sentiment_fill_and_rounded_values :
  forall (p q : number) (st : state),
    (-1 <=? p) = true -> (p <=? 1) = true ->
    (0 <=? q) = true -> (q <=? 1) = true ->
    timers_fresh st ->
    let shown := displaySentiment {| polarity := p; subjectivity := q |} st in
    let filled := fire_timeout (next_timer st) shown in
    polarityBar_width (sen (page filled)) =
      [NumberToString ((p + 1) / 2 * 100); Chars (lit "%")] /\
    subjectivityBar_width (sen (page filled)) =
      [NumberToString (q * 100); Chars (lit "%")] /\
    (p = -1 -> (p + 1) / 2 * 100 = 0) /\
    (p = 0 -> (p + 1) / 2 * 100 = 50) /\
    (p = 1 -> (p + 1) / 2 * 100 = 100) /\
    polarityValue_text (sen (page shown)) = toFixed p 3 /\
    subjectivityValue_text (sen (page shown)) = toFixed q 3 /\
    polarityValue_text (sen (page filled)) = toFixed p 3 /\
    subjectivityValue_text (sen (page filled)) = toFixed q 3 /\
    shows_rounded 3 p (toFixed p 3) /\
    shows_rounded 3 q (toFixed q 3).
Proof.
  intros p q st Hp1 Hp2 Hq1 Hq2 [Hfresh _] shown filled.
  assert (Hfire : filled =
    {| page := run_callback (SentimentBars ((p + 1) / 2 * 100) (q * 100))
                 (page shown);
       emotionChart := emotionChart shown; charts := charts shown;
       next_timer := next_timer shown;
       timeouts := remove_id (next_timer st) (timeouts shown);
       intervals := intervals shown; log := log shown |}).
  { subst filled. unfold fire_timeout.
    replace (lookup (next_timer st) (timeouts shown))
      with (Some (SentimentBars ((p + 1) / 2 * 100) (q * 100)));
      [reflexivity |].
    symmetry. subst shown. simpl. apply lookup_registered. exact Hfresh. }
  rewrite Hfire. simpl.
  repeat split; try reflexivity.
  - intro E. rewrite E. reflexivity.
  - intro E. rewrite E. reflexivity.
  - intro E. rewrite E. reflexivity.
  - apply toFixed_unit_range; assumption.
  - apply toFixed_unit_range; [apply nonneg_above_minus_one |]; assumption.
Qed.

(** ** Keyword panel *)


Definition category_row (entry : jsstring * number) : node :=
  CategoryItem (replace_first 95%N 32%N (fst entry)) (snd entry).




(** ** The tween *)

Lemma lookup_remove_other {A} (l : list (nat * A)) id id' :
  id' <> id -> lookup id (remove_id id' l) = lookup id l.
Proof.
  intro NE. induction l as [| [i a] l IH]; simpl; [reflexivity |].
  destruct (Nat.eqb_spec i id') as [E | NE'].
  - subst i. rewrite IH. destruct (Nat.eqb_spec id' id); [contradiction | reflexivity].
  - simpl. rewrite IH. reflexivity.
Qed.

Lemma lookup_update_other {A} (l : list (nat * A)) id id' a' :
  id' <> id -> lookup id (update_id id' a' l) = lookup id l.
Proof.
  intro NE. induction l as [| [i a] l IH]; simpl; [reflexivity |].
  destruct (Nat.eqb_spec i id') as [E | NE']; simpl; rewrite IH.
  - subst i. destruct (Nat.eqb_spec id' id); [contradiction | reflexivity].
  - reflexivity.
Qed.

Lemma lookup_update_same {A} (l : list (nat * A)) id a a' :
  lookup id l = Some a -> lookup id (update_id id a' l) = Some a'.
Proof.
  induction l as [| [i b] l IH]; simpl; [discriminate |].
  destruct (Nat.eqb_spec i id) as [E | NE]; simpl.
  - subst i. rewrite Nat.eqb_refl. reflexivity.
  - destruct (Nat.eqb_spec i id); [contradiction | exact IH].
Qed.

(** A tween whose tick neither moves it nor clears it stays registered,
    whatever timers fire. *)
Lemma stuck_tween_stays id tw evs :
  tick tw = (tw, false) ->
  forall st, lookup id (intervals st) = Some tw ->
             lookup id (intervals (run_timers evs st)) = Some tw.
Proof.
  intro Hstuck. induction evs as [| ev evs IH]; intros st Hst; simpl.
  - exact Hst.
  - apply IH. destruct ev as [id' | id']; simpl.
    + unfold fire_timeout. destruct (lookup id' (timeouts st)); exact Hst.
    + unfold fire_interval.
      destruct (lookup id' (intervals st)) as [tw' |] eqn:E; [| exact Hst].
      destruct (Nat.eq_dec id' id) as [-> | NE].
      * rewrite Hst in E. inversion E; subst tw'. rewrite Hstuck. simpl.
        apply (lookup_update_same _ _ tw). exact Hst.
      * destruct (tick tw') as [tw'' cleared]. simpl.
        destruct cleared.
        -- rewrite lookup_remove_other by exact NE. exact Hst.
        -- rewrite lookup_update_other by exact NE. exact Hst.
Qed.

(** The closure of the tween from 0 to 0 over 2000 ms. *)
Definition tween_at_rest (el : score_element) : tween :=
  {| element := el; current := 0; increment := 0; target := 0 |}.

(** C2, at a score of 0. [animateGauge(0)] starts the tween from 0 to 0:
    its increment is 0, so neither branch of the stop condition ever
    holds, and after any sequence of timer events the interval timer is
    still registered. Each of its ticks renders "0". *)
Theorem tween_to_same_value_never_stops :
  forall (st : state) (evs : list timer_event),
    timers_fresh st ->
    let started := animateGauge 0 st in
    let id := S (next_timer st) in
    lookup id (intervals started) = Some (tween_at_rest GaugeScore) /\
    lookup id (intervals (run_timers evs started)) =
      Some (tween_at_rest GaugeScore) /\
    tick (tween_at_rest GaugeScore) = (tween_at_rest GaugeScore, false) /\
    forall later,
      lookup id (intervals later) = Some (tween_at_rest GaugeScore) ->
      gaugeScore_text (gau (page (fire_interval id later))) = [NumberToString 0].
Proof.
  intros st evs [_ Hfresh] started id.
  assert (Hreg : lookup id (intervals started) = Some (tween_at_rest GaugeScore)).
  { subst started id. unfold animateGauge, animateNumber, setInterval. simpl.
    apply lookup_registered.
    intros i a Hin. specialize (Hfresh i a Hin). lia. }
  split; [exact Hreg |]. split; [| split].
  - apply stuck_tween_stays; [reflexivity | exact Hreg].
  - reflexivity.
  - intros later Hl. unfold fire_interval. rewrite Hl. reflexivity.
Qed.

(** ** The emotion chart *)

(** The chart the global refers to. *)
Definition shown_chart (st : state) : option chart :=
  match emotionChart st with
  | Some i => nth_error (charts st) i
  | None => None
  end.

Fixpoint index_of (label : jsstring) (l : list jsstring) : option nat :=
  match l with
  | [] => None
  | x :: l' =>
      if list_eq_dec N.eq_dec x label then Some O
      else option_map S (index_of label l')
  end.

(** The colour of the segment labelled [label]: the library takes the
    colour at the index of the segment, starting over at the end of the
    palette. *)
Definition colour_of (c : chart_config) (label : jsstring) : option jsstring :=
  match index_of label (labels c) with
  | Some i => nth_error (backgroundColor c)
                (i mod length (backgroundColor c))
  | None => None
  end.

Lemma destroy_length i cs : length (destroy i cs) = length cs.
Proof.
  revert i. induction cs as [| c cs IH]; intros [| i]; simpl;
    try reflexivity. rewrite IH. reflexivity.
Qed.

Lemma displayEmotionChart_shown emotions st :
  shown_chart (displayEmotionChart emotions st) =
  Some {| config := {| chart_type := lit "doughnut";
                       labels := map (fun kv => capitalize unicode_upper (fst kv))
                                     emotions;
                       data := map snd emotions;
                       backgroundColor := palette |};
          destroyed := false |}.
Proof.
  unfold shown_chart, displayEmotionChart. simpl.
  rewrite nth_error_app2 by lia. rewrite Nat.sub_diag. reflexivity.
Qed.

(** C7, on two orders of the same mapping. The chart has one label and
    one value per key, in key order, the label being the capitalized key,
    and the palette is the fixed list of four colours; the tooltip shows
    the label and the value with one decimal. The colour of a segment is
    the one at its position: with [{joy: 60, fear: 40}] the segment "Joy"
    is green, with [{fear: 40, joy: 60}] it is red and "Fear" is green. *)
Theorem emotion_colour_follows_key_order :
  (forall emotions st,
      exists c,
        shown_chart (displayEmotionChart emotions st) =
          Some {| config := c; destroyed := false |} /\
        labels c = map (fun kv => capitalize unicode_upper (fst kv)) emotions /\
        data c = map snd emotions /\
        backgroundColor c = palette) /\
  tooltip_label (lit "Joy") 62.55 = [Chars (lit "Joy: "); Chars (lit "62.5"); Chars (lit "%")] /\
  (forall st c c',
      shown_chart (displayEmotionChart [(lit "joy", 60); (lit "fear", 40)] st) =
        Some c ->
      shown_chart (displayEmotionChart [(lit "fear", 40); (lit "joy", 60)] st) =
        Some c' ->
      colour_of (config c) (lit "Joy") = Some (lit "#10b981") /\
      colour_of (config c') (lit "Joy") = Some (lit "#ef4444") /\
      colour_of (config c') (lit "Fear") = Some (lit "#10b981")).
Proof.
  split; [| split].
  - intros emotions st. eexists. split; [apply displayEmotionChart_shown |].
    repeat split.
  - vm_compute. reflexivity.
  - intros st c c' H H'. rewrite displayEmotionChart_shown in H, H'.
    inversion H; inversion H'; subst. repeat split.
Qed.

(** ** Chart instances *)

Definition live_charts (st : state) : list chart :=
  filter (fun c => negb (destroyed c)) (charts st).

(** Only the chart the global refers to can be alive. It holds when the
    page loads (there is no chart) and every step of the script keeps
    it. *)
Definition chart_inv (st : state) : Prop :=
  forall i c,
    nth_error (charts st) i = Some c -> destroyed c = false ->
    emotionChart st = Some i.

Lemma nth_error_destroy_other i cs j :
  j <> i -> nth_error (destroy i cs) j = nth_error cs j.
Proof.
  revert i j. induction cs as [| c cs IH]; intros [| i] [| j] NE; simpl;
    try reflexivity; try contradiction.
  apply IH. congruence.
Qed.

Lemma nth_error_destroy_same i cs c :
  nth_error (destroy i cs) i = Some c -> destroyed c = true.
Proof.
  revert i. induction cs as [| c0 cs IH]; intros [| i]; simpl;
    try discriminate.
  - intro H. inversion H. reflexivity.
  - apply IH.
Qed.

(** After the disposal step of [displayEmotionChart] no chart is alive. *)
Lemma disposal_leaves_none_alive st :
  chart_inv st ->
  forall j c,
    nth_error (match emotionChart st with
               | Some i => destroy i (charts st)
               | None => charts st
               end) j = Some c ->
    destroyed c = true.
Proof.
  intros Hinv j c. destruct (emotionChart st) as [i |] eqn:E.
  - destruct (Nat.eq_dec j i) as [-> | NE].
    + apply nth_error_destroy_same.
    + rewrite nth_error_destroy_other by exact NE. intro H.
      destruct (destroyed c) eqn:D; [reflexivity |].
      specialize (Hinv j c H D). congruence.
  - intro H. destruct (destroyed c) eqn:D; [reflexivity |].
    specialize (Hinv j c H D). congruence.
Qed.

Lemma filter_none_alive cs :
  (forall j c, nth_error cs j = Some c -> destroyed c = true) ->
  filter (fun c => negb (destroyed c)) cs = [].
Proof.
  induction cs as [| c cs IH]; intro H; simpl; [reflexivity |].
  rewrite (H O c eq_refl). simpl. apply IH.
  intros j c' Hj. apply (H (S j) c' Hj).
Qed.

Lemma displayEmotionChart_live emotions st :
  chart_inv st ->
  live_charts (displayEmotionChart emotions st) =
  [{| config := {| chart_type := lit "doughnut";
                   labels := map (fun kv => capitalize unicode_upper (fst kv))
                                 emotions;
                   data := map snd emotions;
                   backgroundColor := palette |};
      destroyed := false |}].
Proof.
  intro Hinv. unfold live_charts, displayEmotionChart. simpl.
  rewrite filter_app.
  rewrite (filter_none_alive _ (disposal_leaves_none_alive st Hinv)).
  reflexivity.
Qed.

Lemma displayEmotionChart_inv emotions st :
  chart_inv st -> chart_inv (displayEmotionChart emotions st).
Proof.
  intros Hinv j c. unfold displayEmotionChart. simpl.
  set (cs := match emotionChart st with
             | Some i => destroy i (charts st)
             | None => charts st
             end).
  intros Hj D. destruct (Nat.lt_ge_cases j (length cs)) as [L | G].
  - rewrite nth_error_app1 in Hj by exact L.
    pose proof (disposal_leaves_none_alive st Hinv j c Hj). congruence.
  - destruct (Nat.eq_dec j (length cs)) as [-> | NE]; [reflexivity |].
    rewrite nth_error_app2 in Hj by exact G.
    destruct (j - length cs)%nat as [| k] eqn:E; [lia |].
    simpl in Hj. destruct k; discriminate Hj.
Qed.

Lemma displayResults_charts r st :
  charts (displayResults r st) = charts (displayEmotionChart (emotions r) st) /\
  emotionChart (displayResults r st) =
  emotionChart (displayEmotionChart (emotions r) st).
Proof. split; reflexivity. Qed.

Lemma displayResults_chart_inv r st :
  chart_inv st -> chart_inv (displayResults r st).
Proof.
  intros Hinv j c Hj D.
  apply (displayEmotionChart_inv (emotions r) st Hinv j c Hj D).
Qed.

Lemma displayResults_live r st :
  chart_inv st ->
  live_charts (displayResults r st) =
  [{| config := {| chart_type := lit "doughnut";
                   labels := map (fun kv => capitalize unicode_upper (fst kv))
                                 (emotions r);
                   data := map snd (emotions r);
                   backgroundColor := palette |};
      destroyed := false |}].
Proof. intro Hinv. apply (displayEmotionChart_live (emotions r) st Hinv). Qed.

Lemma displayResults_shown r st :
  shown_chart (displayResults r st) =
  Some {| config := {| chart_type := lit "doughnut";
                       labels := map (fun kv => capitalize unicode_upper (fst kv))
                                     (emotions r);
                       data := map snd (emotions r);
                       backgroundColor := palette |};
          destroyed := false |}.
Proof. apply (displayEmotionChart_shown (emotions r) st). Qed.

Lemma displayResults_page_twice r st :
  page (displayResults r (displayResults r st)) = page (displayResults r st).
Proof. reflexivity. Qed.

(** ** Where the animations end *)

Definition gauge_offset (score : number) : number :=
  251.2 - (score / 100) * 251.2.

Definition ethical_offset (score : number) : number :=
  283 - (score / 100) * 283.

Definition polarity_percent (s : Sentiment) : number :=
  ((polarity s + 1) / 2) * 100.

Definition subjectivity_percent (s : Sentiment) : number :=
  subjectivity s * 100.

(** The page once every timer of a render of [r] has run its course:
    styles and bar widths as the delayed callbacks set them, score texts
    as the last tick of a tween writes them. *)
Definition settled (r : AnalysisResult) (d : dom) : dom :=
  {| ctl := ctl d;
     gau := {| gaugeProgress_strokeDashoffset :=
                 [NumberToString (gauge_offset (persuasion_score r))];
               gaugeProgress_stroke :=
                 [Chars (gauge_colour (persuasion_score r))];
               gaugeScore_text :=
                 [NumberToString (Math_round (persuasion_score r))] |};
     eth := {| ethicalCircle_strokeDashoffset :=
                 [NumberToString (ethical_offset (ethical_score r))];
               ethicalCircle_stroke :=
                 [Chars (ethical_colour (ethical_score r))];
               ethicalScore_fill :=
                 [Chars (ethical_colour (ethical_score r))];
               ethicalScore_text :=
                 [NumberToString (Math_round (ethical_score r))] |};
     sen := {| polarityBar_width :=
                 [NumberToString (polarity_percent (sentiment r));
                  Chars (lit "%")];
               subjectivityBar_width :=
                 [NumberToString (subjectivity_percent (sentiment r));
                  Chars (lit "%")];
               polarityValue_text := polarityValue_text (sen d);
               subjectivityValue_text := subjectivityValue_text (sen d) |};
     kwv := kwv d;
     cap := cap d |}.

(** The closures a render of [r] registers. *)
Definition callback_for (r : AnalysisResult) (cb : timeout_callback) : Prop :=
  cb = GaugeStyle (gauge_offset (persuasion_score r)) (persuasion_score r) \/
  cb = EthicalStyle (ethical_offset (ethical_score r)) (ethical_score r) \/
  cb = SentimentBars (polarity_percent (sentiment r))
                     (subjectivity_percent (sentiment r)).

Definition score_of (r : AnalysisResult) (el : score_element) : number :=
  match el with
  | GaugeScore => persuasion_score r
  | EthicalScore => ethical_score r
  end.

Definition tween_for (r : AnalysisResult) (tw : tween) : Prop :=
  target tw = score_of r (element tw).

(** Every pending timer was registered by a render of [r]. *)
Definition timers_for (r : AnalysisResult) (st : state) : Prop :=
  (forall id cb, In (id, cb) (timeouts st) -> callback_for r cb) /\
  (forall id tw, In (id, tw) (intervals st) -> tween_for r tw).

Inductive region := GaugeRegion | EthicalRegion | BarsRegion.

Definition region_of (cb : timeout_callback) : region :=
  match cb with
  | GaugeStyle _ _ => GaugeRegion
  | EthicalStyle _ _ => EthicalRegion
  | SentimentBars _ _ => BarsRegion
  end.

Definition pending_callback (g : region) (st : state) : Prop :=
  exists id cb, lookup id (timeouts st) = Some cb /\ region_of cb = g.

Definition pending_tween (el : score_element) (st : state) : Prop :=
  exists id tw, lookup id (intervals st) = Some tw /\ element tw = el.

(** Region [g] of [d] shows what region [g] of [d'] shows. *)
Definition same_style (g : region) (d d' : dom) : Prop :=
  match g with
  | GaugeRegion =>
      gaugeProgress_strokeDashoffset (gau d) =
        gaugeProgress_strokeDashoffset (gau d') /\
      gaugeProgress_stroke (gau d) = gaugeProgress_stroke (gau d')
  | EthicalRegion =>
      ethicalCircle_strokeDashoffset (eth d) =
        ethicalCircle_strokeDashoffset (eth d') /\
      ethicalCircle_stroke (eth d) = ethicalCircle_stroke (eth d') /\
      ethicalScore_fill (eth d) = ethicalScore_fill (eth d')
  | BarsRegion =>
      polarityBar_width (sen d) = polarityBar_width (sen d') /\
      subjectivityBar_width (sen d) = subjectivityBar_width (sen d')
  end.

Definition score_text (el : score_element) (d : dom) : text :=
  match el with
  | GaugeScore => gaugeScore_text (gau d)
  | EthicalScore => ethicalScore_text (eth d)
  end.

(** Each animated region either still has a timer coming or already
    shows its final value; the values written at once are in place. *)
Definition animation_inv (r : AnalysisResult) (st : state) : Prop :=
  timers_for r st /\
  (forall g, pending_callback g st \/ same_style g (page st) (settled r (page st))) /\
  (forall el, pending_tween el st \/
              score_text el (page st) = score_text el (settled r (page st))) /\
  polarityValue_text (sen (page st)) = toFixed (polarity (sentiment r)) 3 /\
  subjectivityValue_text (sen (page st)) = toFixed (subjectivity (sentiment r)) 3.

Lemma lookup_In {A} (l : list (nat * A)) id a :
  lookup id l = Some a -> In (id, a) l.
Proof.
  induction l as [| [i b] l IH]; simpl; [discriminate |].
  destruct (Nat.eqb_spec i id) as [E | NE].
  - intro H. inversion H. subst. left. reflexivity.
  - intro H. right. apply IH. exact H.
Qed.

Lemma In_remove_id {A} (l : list (nat * A)) id id' a :
  In (id, a) (remove_id id' l) -> In (id, a) l.
Proof.
  induction l as [| [i b] l IH]; simpl; [tauto |].
  destruct (Nat.eqb i id'); simpl; intuition.
Qed.

Lemma In_update_id {A} (l : list (nat * A)) id id' a a' :
  In (id, a) (update_id id' a' l) -> In (id, a) l \/ a = a'.
Proof.
  induction l as [| [i b] l IH]; simpl; [tauto |].
  destruct (Nat.eqb i id'); simpl; intros [H | H].
  - inversion H. right. reflexivity.
  - destruct (IH H); [left; right; assumption | right; assumption].
  - left. left. exact H.
  - destruct (IH H); [left; right; assumption | right; assumption].
Qed.

Lemma tick_keeps tw :
  element (fst (tick tw)) = element tw /\
  target (fst (tick tw)) = target tw /\
  (snd (tick tw) = true -> current (fst (tick tw)) = target tw).
Proof.
  unfold tick.
  destruct ((0 <? increment tw) && (target tw <=? current tw + increment tw)
            || (increment tw <? 0) && (current tw + increment tw <=? target tw));
    simpl; repeat split; auto; discriminate.
Qed.

Lemma region_eq_dec (g g' : region) : {g = g'} + {g <> g'}.
Proof. decide equality. Qed.

Lemma score_element_eq_dec (e e' : score_element) : {e = e'} + {e <> e'}.
Proof. decide equality. Qed.

Lemma animation_inv_fire_timeout r id st :
  animation_inv r st -> animation_inv r (fire_timeout id st).
Proof.
  intros (Hfor & Hcb & Htw & Hp & Hq). unfold fire_timeout.
  destruct (lookup id (timeouts st)) as [cb |] eqn:E;
    [| repeat split; try assumption; apply Hfor].
  assert (Hcbfor : callback_for r cb).
  { apply (proj1 Hfor id). apply lookup_In. exact E. }
  split; [| split; [| split; [| split]]].
  - split; simpl.
    + intros id' cb' Hin. apply (proj1 Hfor id'). eapply In_remove_id. exact Hin.
    + apply Hfor.
  - intro g. destruct (region_eq_dec (region_of cb) g) as [<- | NE].
    + right. destruct Hcbfor as [-> | [-> | ->]]; simpl; repeat split.
    + destruct (Hcb g) as [(id' & cb' & Hl & Hg) | Hdone].
      * left. exists id', cb'. split; [| exact Hg]. simpl.
        rewrite lookup_remove_other; [exact Hl |].
        intro; subst id'. rewrite E in Hl. inversion Hl; subst. contradiction.
      * right. destruct cb, g; simpl in *; try contradiction; exact Hdone.
  - intro el. destruct (Htw el) as [Hpending | Hdone].
    + left. exact Hpending.
    + right. destruct cb, el; simpl in *; exact Hdone.
  - destruct cb; simpl; exact Hp.
  - destruct cb; simpl; exact Hq.
Qed.

Lemma animation_inv_fire_interval r id st :
  animation_inv r st -> animation_inv r (fire_interval id st).
Proof.
  intros (Hfor & Hcb & Htw & Hp & Hq). unfold fire_interval.
  destruct (lookup id (intervals st)) as [tw |] eqn:E;
    [| repeat split; try assumption; apply Hfor].
  assert (Htwfor : tween_for r tw).
  { apply (proj2 Hfor id). apply lookup_In. exact E. }
  destruct (tick_keeps tw) as (Kel & Ktarget & Kcleared).
  destruct (tick tw) as [tw' cleared]. simpl in Kel, Ktarget, Kcleared.
  assert (Htwfor' : tween_for r tw').
  { unfold tween_for. rewrite Kel, Ktarget. exact Htwfor. }
  split; [| split; [| split; [| split]]].
  - split; simpl.
    + apply Hfor.
    + intros id' tw'' Hin. destruct cleared.
      * apply (proj2 Hfor id'). eapply In_remove_id. exact Hin.
      * apply In_update_id in Hin. destruct Hin as [Hin | ->];
          [apply (proj2 Hfor id'); exact Hin | exact Htwfor'].
  - intro g. destruct (Hcb g) as [Hpending | Hdone].
    + left. exact Hpending.
    + right. destruct (element tw'), g; simpl in *; exact Hdone.
  - intro el. destruct (score_element_eq_dec (element tw') el) as [<- | NE].
    + destruct cleared.
      * right. rewrite (Kcleared eq_refl).
        unfold tween_for in Htwfor. rewrite Htwfor, <- Kel.
        destruct (element tw'); reflexivity.
      * left. exists id, tw'. split; [| reflexivity]. simpl.
        apply (lookup_update_same _ _ tw). exact E.
    + destruct (Htw el) as [(id' & tw'' & Hl & He) | Hdone].
      * left. exists id', tw''. split; [| exact He]. simpl.
        assert (id <> id').
        { intro; subst id'. rewrite E in Hl. inversion Hl; subst tw''.
          congruence. }
        destruct cleared;
          [rewrite lookup_remove_other | rewrite lookup_update_other];
          assumption.
      * right. destruct (element tw'), el; simpl in *;
          try contradiction; exact Hdone.
  - destruct (element tw'); simpl; exact Hp.
  - destruct (element tw'); simpl; exact Hq.
Qed.

Lemma animation_inv_run r evs : forall st,
  animation_inv r st -> animation_inv r (run_timers evs st).
Proof.
  induction evs as [| ev evs IH]; intros st H; simpl; [exact H |].
  apply IH. destruct ev; simpl;
    [apply animation_inv_fire_timeout | apply animation_inv_fire_interval];
    exact H.
Qed.

Lemma lookup_past {A} n (l l' : list (nat * A)) id :
  ids_below n l -> (n <= id)%nat -> lookup id (l ++ l') = lookup id l'.
Proof.
  intros Hb Hn. rewrite lookup_app, (lookup_none_of_below n l id Hb Hn).
  reflexivity.
Qed.

Lemma displayResults_timers r st :
  timeouts (displayResults r st) =
    timeouts st ++
    [(next_timer st,
      GaugeStyle (gauge_offset (persuasion_score r)) (persuasion_score r));
     (S (S (next_timer st)),
      EthicalStyle (ethical_offset (ethical_score r)) (ethical_score r));
     (S (S (S (S (next_timer st)))),
      SentimentBars (polarity_percent (sentiment r))
                    (subjectivity_percent (sentiment r)))] /\
  intervals (displayResults r st) =
    intervals st ++
    [(S (next_timer st),
      {| element := GaugeScore; current := 0;
         increment := (persuasion_score r - 0) / (2000 / 16);
         target := persuasion_score r |});
     (S (S (S (next_timer st))),
      {| element := EthicalScore; current := 0;
         increment := (ethical_score r - 0) / (2000 / 16);
         target := ethical_score r |})] /\
  next_timer (displayResults r st) = (5 + next_timer st)%nat.
Proof.
  split; [| split]; simpl; rewrite <- ?app_assoc; reflexivity.
Qed.

Lemma timers_fresh_render r st :
  timers_fresh st -> timers_fresh (displayResults r st).
Proof.
  intros [Ht Hi].
  destruct (displayResults_timers r st) as (Et & Ei & En).
  unfold timers_fresh. rewrite Et, Ei, En. split.
  - intros id cb Hin. apply in_app_or in Hin. destruct Hin as [Hin | Hin].
    + specialize (Ht id cb Hin). lia.
    + simpl in Hin. destruct Hin as [H | [H | [H | []]]]; inversion H; lia.
  - intros id tw Hin. apply in_app_or in Hin. destruct Hin as [Hin | Hin].
    + specialize (Hi id tw Hin). lia.
    + simpl in Hin. destruct Hin as [H | [H | []]]; inversion H; lia.
Qed.

Lemma eqb_below n m : (n < m)%nat -> Nat.eqb n m = false.
Proof. intro H. apply Nat.eqb_neq. lia. Qed.

(** Decides the identifier tests of a lookup among freshly numbered
    timers. *)
Ltac settle_ids :=
  simpl;
  repeat match goal with
         | |- context [Nat.eqb ?a ?b] =>
             first [ rewrite (eqb_below a b) by lia
                   | rewrite (Nat.eqb_refl a) ]
         end.

(** Right after a render of [r] every animated region has its timer
    pending. *)
Lemma animation_inv_render r st :
  timers_fresh st -> timers_for r st -> animation_inv r (displayResults r st).
Proof.
  intros [Ht Hi] [Ft Fi].
  destruct (displayResults_timers r st) as (Et & Ei & _).
  split; [| split; [| split; [| split]]].
  - split.
    + intros id cb Hin. rewrite Et in Hin. apply in_app_or in Hin.
      destruct Hin as [Hin | Hin]; [apply (Ft id cb Hin) |].
      simpl in Hin. destruct Hin as [H | [H | [H | []]]]; inversion H;
        unfold callback_for; auto.
    + intros id tw Hin. rewrite Ei in Hin. apply in_app_or in Hin.
      destruct Hin as [Hin | Hin]; [apply (Fi id tw Hin) |].
      simpl in Hin. destruct Hin as [H | [H | []]]; inversion H; reflexivity.
  - intro g. left. unfold pending_callback. rewrite Et.
    destruct g;
      [exists (next_timer st) | exists (S (S (next_timer st)))
       | exists (S (S (S (S (next_timer st)))))];
      eexists; rewrite (lookup_past (next_timer st)) by (auto; lia);
      settle_ids; split; reflexivity.
  - intro el. left. unfold pending_tween. rewrite Ei.
    destruct el;
      [exists (S (next_timer st)) | exists (S (S (S (next_timer st))))];
      eexists; rewrite (lookup_past (next_timer st)) by (auto; lia);
      settle_ids; split; reflexivity.
  - reflexivity.
  - reflexivity.
Qed.

Definition quiescent (st : state) : Prop :=
  timeouts st = [] /\ intervals st = [].

(** With no timer left, the page shows the settled values. *)
Lemma quiescent_page r st :
  animation_inv r st -> quiescent st -> page st = settled r (page st).
Proof.
  intros (_ & Hcb & Htw & _ & _) [Qt Qi].
  assert (Hg : forall g, same_style g (page st) (settled r (page st))).
  { intro g. destruct (Hcb g) as [(id & cb & Hl & _) | H]; [| exact H].
    rewrite Qt in Hl. discriminate Hl. }
  assert (He : forall el,
             score_text el (page st) = score_text el (settled r (page st))).
  { intro el. destruct (Htw el) as [(id & tw & Hl & _) | H]; [| exact H].
    rewrite Qi in Hl. discriminate Hl. }
  pose proof (Hg GaugeRegion) as (G1 & G2).
  pose proof (Hg EthicalRegion) as (E1 & E2 & E3).
  pose proof (Hg BarsRegion) as (B1 & B2).
  pose proof (He GaugeScore) as T1. pose proof (He EthicalScore) as T2.
  destruct (page st) as [c [g1 g2 g3] [e1 e2 e3 e4] [s1 s2 s3 s4] k cp].
  unfold settled. simpl in *. subst. reflexivity.
Qed.

Lemma settled_same r d d' :
  ctl d = ctl d' -> kwv d = kwv d' -> cap d = cap d' ->
  polarityValue_text (sen d) = polarityValue_text (sen d') ->
  subjectivityValue_text (sen d) = subjectivityValue_text (sen d') ->
  settled r d = settled r d'.
Proof.
  intros H1 H2 H3 H4 H5. unfold settled. rewrite H1, H2, H3, H4, H5.
  reflexivity.
Qed.

(** Any run of the timers after a render of [r] that leaves none pending
    ends on the settled page of that render. *)
Lemma render_settles r st evs :
  timers_fresh st -> timers_for r st ->
  quiescent (run_timers evs (displayResults r st)) ->
  page (run_timers evs (displayResults r st)) =
  settled r (page (displayResults r st)).
Proof.
  intros Hfresh Hfor Hq.
  pose proof (animation_inv_render r st Hfresh Hfor) as Hinv.
  pose proof (animation_inv_run r evs _ Hinv) as Hinv'.
  rewrite (quiescent_page r _ Hinv' Hq).
  destruct (run_timers_frame evs (displayResults r st))
    as (Fctl & Fcap & Fkwv & _).
  destruct Hinv as (_ & _ & _ & Hp & Hq').
  destruct Hinv' as (_ & _ & _ & Hp' & Hq'').
  apply settled_same; congruence.
Qed.

(** ** Rendering the same result twice *)

(** C4. From a state in which only the chart the global refers to can be
    alive and whose pending timers, if any, come from renders of [r]:
    rendering [r] a second time leaves the page as the first render left
    it and shows a chart with the same contents; after either render
    exactly one chart instance is alive, the one just created, because
    the one before was destroyed; and whenever the timers of the renders
    have all run their course, after one render or after two, the page
    shows the same settled values. *)
Theorem rendering_twice_shows_the_same :
  forall (r : AnalysisResult) (st : state),
    chart_inv st -> timers_fresh st -> timers_for r st ->
    let once := displayResults r st in
    let twice := displayResults r once in
    page twice = page once /\
    shown_chart twice = shown_chart once /\
    (exists c, live_charts once = [c] /\ shown_chart once = Some c) /\
    (exists c, live_charts twice = [c] /\ shown_chart twice = Some c) /\
    length (live_charts twice) = 1%nat /\
    chart_inv twice /\
    forall evs1 evs2,
      quiescent (run_timers evs1 once) ->
      quiescent (run_timers evs2 twice) ->
      page (run_timers evs1 once) = settled r (page once) /\
      page (run_timers evs2 twice) = page (run_timers evs1 once).
Proof.
  intros r st Hchart Hfresh Hfor once twice.
  pose proof (displayResults_chart_inv r st Hchart) as Hchart1.
  pose proof (timers_fresh_render r st Hfresh) as Hfresh1.
  pose proof (animation_inv_render r st Hfresh Hfor) as (Hfor1 & _).
  split; [apply displayResults_page_twice |].
  split; [subst once twice; rewrite !displayResults_shown; reflexivity |].
  split; [eexists; split;
          [apply (displayResults_live r st Hchart)
          | apply displayResults_shown] |].
  split; [eexists; split;
          [apply (displayResults_live r once Hchart1)
          | apply displayResults_shown] |].
  split; [subst twice; rewrite (displayResults_live r once Hchart1);
          reflexivity |].
  split; [apply displayResults_chart_inv; exact Hchart1 |].
  intros evs1 evs2 Q1 Q2.
  pose proof (render_settles r st evs1 Hfresh Hfor Q1) as S1.
  pose proof (render_settles r once evs2 Hfresh1 Hfor1 Q2) as S2.
  split; [exact S1 |].
  fold once in S1. fold twice in S2. rewrite S1, S2.
  subst once twice. rewrite displayResults_page_twice. reflexivity.
Qed.

End Script.

(** * The theorems at concrete inputs *)

Lemma example_state_fresh : timers_fresh example_state.
Proof. split; intros id a []. Defined.

Lemma example_state_chart_inv : chart_inv example_state.
Proof. intros [| i] c H; discriminate H. Defined.

Lemma example_state_timers_for r : timers_for r example_state.
Proof. split; intros id a []. Defined.

Lemma short_input_blocks_submission_witness :
  (length (trim (lit "too short")) < 10)%nat /\
  click example_state =
    Returned (do_effect (Alert validation_notice) example_state) /\
  log (attempt example_upper [] (NetworkFailure []) example_state) =
    [Alert validation_notice].
Proof.
  assert (H : (length (trim (lit "too short")) < 10)%nat)
    by (vm_compute; lia).
  destruct (short_input_blocks_submission example_upper (lit "too short")
              example_state eq_refl H) as [Hclick Hlog].
  split; [exact H |]. split; [exact Hclick |].
  exact (proj1 (Hlog [] (NetworkFailure []))).
Defined.

Lemma rejected_click_changes_nothing_witness :
  (length (trim (textInput_value (ctl (page example_state)))) < 10)%nat /\
  exists st',
    click example_state = Returned st' /\
    page st' = page example_state /\
    charts st' = charts example_state.
Proof.
  assert (H : (length (trim (textInput_value (ctl (page example_state)))) < 10)%nat)
    by (vm_compute; lia).
  split; [exact H |].
  destruct (rejected_click_changes_nothing example_state H)
    as (st' & Hc & Hp & _ & Hch & _).
  exists st'. repeat split; assumption.
Defined.

Lemma not_ok_response_surfaces_error_witness :
  (10 <= length (trim (textInput_value
                         (ctl (page (type_text long_enough example_state))))))%nat /\
  is_not_ok (NotOk (Parsed (Some (lit "bad text")))) = true /\
  last (log (attempt example_upper [] (NotOk (Parsed (Some (lit "bad text"))))
               (type_text long_enough example_state)))
       (Alert []) = Alert (lit "Error: bad text") /\
  analyzeBtn_disabled
    (ctl (page (attempt example_upper [] (NotOk (Parsed (Some (lit "bad text"))))
                  (type_text long_enough example_state)))) = false.
Proof.
  assert (H : (10 <= length (trim (textInput_value
                 (ctl (page (type_text long_enough example_state))))))%nat)
    by (vm_compute; lia).
  split; [exact H |]. split; [reflexivity |].
  destruct (not_ok_response_surfaces_error example_upper
              (type_text long_enough example_state) []
              (NotOk (Parsed (Some (lit "bad text"))))
              H eq_refl) as (message & _ & _ & _ & Hbtn & _ & _ & Hlast).
  split; [exact (Hlast eq_refl) | exact Hbtn].
Defined.

(** C3 as worded fails on two error bodies. With [{"error":""}] the
    error field is present, yet the notice carries the generic message;
    with a body that is not JSON the notice carries the parser's
    message, not the generic one. *)
Lemma error_body_not_surfaced_as_claimed :
  let st := type_text long_enough example_state in
  let shown body := last (log (attempt example_upper [] (NotOk body) st)) (Alert []) in
  shown (Parsed (Some [])) = Alert (lit "Error: Analysis failed") /\
  claimed_notice (Parsed (Some [])) = lit "Error: " /\
  shown (Parsed (Some [])) <> Alert (claimed_notice (Parsed (Some []))) /\
  shown (SyntaxError (lit "Unexpected token <")) =
    Alert (lit "Error: Unexpected token <") /\
  claimed_notice (SyntaxError (lit "Unexpected token <")) =
    lit "Error: Analysis failed" /\
  shown (SyntaxError (lit "Unexpected token <")) <>
    Alert (claimed_notice (SyntaxError (lit "Unexpected token <"))).
Proof.
  repeat split; try (vm_compute; reflexivity);
    intro D; vm_compute in D; discriminate D.
Qed.

Lemma render_failure_leaves_results_visible_witness :
  (10 <= length (trim (textInput_value
                         (ctl (page (type_text long_enough example_state))))))%nat /\
  render_throws empty_object_body = true /\
  let final :=
    attempt example_upper []
      (OkLoose empty_object_body
         (lit "Cannot read properties of undefined (reading 'polarity')"))
      (type_text long_enough example_state) in
  resultsSection_hidden (ctl (page final)) = false /\
  persuasionLabel_text (cap (page final)) = [] /\
  last (log final) (Alert []) =
    Alert (lit "Error: Cannot read properties of undefined (reading 'polarity')").
Proof.
  assert (H : (10 <= length (trim (textInput_value
                 (ctl (page (type_text long_enough example_state))))))%nat)
    by (vm_compute; lia).
  split; [exact H |]. split; [reflexivity |].
  destruct (render_failure_leaves_results_visible example_upper
              (type_text long_enough example_state) [] empty_object_body
              (lit "Cannot read properties of undefined (reading 'polarity')")
              H eq_refl) as (Hres & _ & _ & Hlog & Hempty & _).
  destruct (Hempty eq_refl) as (Hlabel & _).
  split; [exact Hres |]. split; [exact Hlabel |].
  cbv zeta. rewrite Hlog. apply last_of_three.
Defined.

Lemma colour_tiers_by_threshold_witness :
  (0 <=? 72)%float = true /\ (72 <=? 100)%float = true /\
  in_tier 80 50 72 Moderate /\
  gaugeProgress_stroke
    (gau (run_callback (GaugeStyle (gauge_offset 72) 72) example_page)) =
    [Chars (lit "#f59e0b")].
Proof.
  assert (H0 : (0 <=? 72)%float = true) by reflexivity.
  assert (H1 : (72 <=? 100)%float = true) by reflexivity.
  assert (Ht : in_tier 80 50 72 Moderate) by (split; reflexivity).
  split; [exact H0 |]. split; [exact H1 |]. split; [exact Ht |].
  destruct (colour_tiers_by_threshold 72 H0 H1) as (Hg & _).
  destruct (Hg Moderate example_state Ht) as (offset & _ & Hstroke).
  exact (Hstroke example_page).
Defined.

Lemma sentiment_fill_and_rounded_values_witness :
  (-1 <=? 0.25)%float = true /\ (0.25 <=? 1)%float = true /\
  (0 <=? 0.5)%float = true /\ (0.5 <=? 1)%float = true /\
  timers_fresh example_state /\
  let shown := displaySentiment {| polarity := 0.25; subjectivity := 0.5 |}
                 example_state in
  polarityBar_width (sen (page (fire_timeout 0 shown))) =
    [NumberToString 62.5; Chars (lit "%")] /\
  polarityValue_text (sen (page shown)) = [Chars (lit "0.250")].
Proof.
  split; [reflexivity |]. split; [reflexivity |].
  split; [reflexivity |]. split; [reflexivity |].
  split; [exact example_state_fresh |].
  intro shown.
  destruct (sentiment_fill_and_rounded_values 0.25 0.5 example_state
              eq_refl eq_refl eq_refl eq_refl example_state_fresh)
    as (Hw & _ & _ & _ & _ & Hv & _).
  split.
  - etransitivity; [exact Hw | vm_compute; reflexivity].
  - etransitivity; [exact Hv | vm_compute; reflexivity].
Defined.

Lemma tween_to_same_value_never_stops_witness :
  timers_fresh example_state /\
  lookup 1%nat
    (intervals (run_timers [Interval 1%nat; Timeout 0%nat; Interval 1%nat]
                  (animateGauge 0 example_state))) =
    Some (tween_at_rest GaugeScore).
Proof.
  split; [exact example_state_fresh |].
  exact (proj1 (proj2 (tween_to_same_value_never_stops example_state
                         [Interval 1%nat; Timeout 0%nat; Interval 1%nat]
                         example_state_fresh))).
Defined.

Lemma rendering_twice_shows_the_same_witness :
  chart_inv example_state /\ timers_fresh example_state /\
  timers_for example_result example_state /\
  let once := displayResults example_upper example_result example_state in
  let twice := displayResults example_upper example_result once in
  let after1 := run_timers (example_schedule 0) once in
  let after2 := run_timers (example_schedule 0 ++ example_schedule 5) twice in
  quiescent after1 /\ quiescent after2 /\
  length (live_charts twice) = 1%nat /\
  page after2 = page after1.
Proof.
  split; [exact example_state_chart_inv |].
  split; [exact example_state_fresh |].
  split; [exact (example_state_timers_for example_result) |].
  intros once twice after1 after2.
  assert (Q1 : quiescent after1) by (split; vm_compute; reflexivity).
  assert (Q2 : quiescent after2) by (split; vm_compute; reflexivity).
  destruct (rendering_twice_shows_the_same example_upper example_result
              example_state example_state_chart_inv example_state_fresh
              (example_state_timers_for example_result))
    as (_ & _ & _ & _ & Hlive & _ & Hsettle).
  split; [exact Q1 |]. split; [exact Q2 |]. split; [exact Hlive |].
  exact (proj2 (Hsettle _ _ Q1 Q2)).
Defined.

(** * Further properties of the script *)

(** ** The text the validation counts and the request carries *)

Definition white (ws : jsstring) : Prop :=
  forall c, In c ws -> is_white_space c = true.

(** No white space at either end. *)
Definition stripped (s : jsstring) : Prop :=
  (forall c r, s = c :: r -> is_white_space c = false) /\
  (forall r c, s = r ++ [c] -> is_white_space c = false).

Lemma trimStart_split s :
  exists ws, s = ws ++ trimStart s /\ white ws.
Proof.
  induction s as [| c s (ws & E & W)]; simpl.
  - exists []. split; [reflexivity | intros c []].
  - destruct (is_white_space c) eqn:Hc.
    + exists (c :: ws). split; [simpl; congruence |].
      intros c' [<- | Hin]; [exact Hc | apply W; exact Hin].
    + exists []. split; [reflexivity | intros c' []].
Qed.

Lemma trimStart_head s c r :
  trimStart s = c :: r -> is_white_space c = false.
Proof.
  induction s as [| c' s IH]; simpl; [discriminate |].
  destruct (is_white_space c') eqn:Hc; [exact IH |].
  intro H. inversion H. subst. exact Hc.
Qed.

Lemma trimEnd_split s :
  exists ws, s = trimEnd s ++ ws /\ white ws.
Proof.
  destruct (trimStart_split (rev s)) as (ws & E & W).
  exists (rev ws). split.
  - unfold trimEnd. rewrite <- rev_app_distr, <- E, rev_involutive. reflexivity.
  - intros c Hin. apply W. apply in_rev. exact Hin.
Qed.

Lemma trimEnd_last s r c :
  trimEnd s = r ++ [c] -> is_white_space c = false.
Proof.
  unfold trimEnd. intro H.
  apply (f_equal (@rev code_unit)) in H.
  rewrite rev_involutive, rev_app_distr in H. simpl in H.
  apply (trimStart_head _ _ _ H).
Qed.

(** [trim] removes a run of white space at each end and nothing else. *)
Lemma trim_characterised raw :
  exists ws1 ws2,
    raw = ws1 ++ trim raw ++ ws2 /\ white ws1 /\ white ws2 /\
    stripped (trim raw).
Proof.
  destruct (trimStart_split raw) as (ws1 & E1 & W1).
  destruct (trimEnd_split (trimStart raw)) as (ws2 & E2 & W2).
  exists ws1, ws2. unfold trim. split; [| split; [| split]];
    try assumption.
  - rewrite <- E2. exact E1.
  - split.
    + intros c r H. rewrite H in E2. simpl in E2.
      apply (trimStart_head raw c (r ++ ws2)). exact E2.
    + intros r c H. apply (trimEnd_last _ _ _ H).
Qed.

Definition is_returned (s : suspension) : bool :=
  match s with
  | Returned _ => true
  | AwaitingFetch _ => false
  end.

Definition state_of (s : suspension) : state :=
  match s with
  | Returned st => st
  | AwaitingFetch st => st
  end.

(** X1. The text box value is some white space, the trimmed text, some
    white space, and the trimmed text has white space at neither end; the
    click is rejected exactly when the trimmed text has fewer than 10 code
    units (so white space around the text never counts, and a value made
    of white space only is rejected); an accepted click puts the trimmed
    text, not the raw value, in the body of its request. *)
Theorem validation_counts_stripped_text :
  forall (st : state),
    let raw := textInput_value (ctl (page st)) in
    (exists ws1 ws2,
        raw = ws1 ++ trim raw ++ ws2 /\ white ws1 /\ white ws2 /\
        stripped (trim raw)) /\
    (is_returned (click st) = true <-> (length (trim raw) < 10)%nat) /\
    (white raw -> is_returned (click st) = true) /\
    (is_returned (click st) = false ->
     exists r, log (state_of (click st)) = log st ++ [Fetch r] /\
               body_text r = trim raw).
Proof.
  intros st raw. split; [apply trim_characterised |].
  assert (Hdec : is_returned (click st) = true <-> (length (trim raw) < 10)%nat).
  { destruct (Nat.lt_ge_cases (length (trim raw)) 10) as [L | G].
    - rewrite (click_rejects st L). simpl. tauto.
    - rewrite (click_accepts st G). simpl. split; [discriminate | lia]. }
  split; [exact Hdec |]. split.
  - intro W. apply Hdec.
    destruct (trim_characterised raw) as (ws1 & ws2 & E & _ & _ & Hs & _).
    destruct (trim raw) as [| c r] eqn:Et; [simpl; lia |].
    exfalso. specialize (Hs c r eq_refl).
    rewrite (W c) in Hs; [discriminate |].
    rewrite E. apply in_or_app. right. left. reflexivity.
  - intro Hacc.
    destruct (Nat.lt_ge_cases (length (trim raw)) 10) as [L | G].
    + apply Hdec in L. congruence.
    + rewrite (click_accepts st G). simpl. eexists. split; reflexivity.
Qed.

(** X2. A click on a value whose trimmed text has at least 10 code units
    suspends at the request: it has shown the spinner, hidden the results
    section, disabled the button and issued one POST to /analyze with a
    JSON body; the text box, the result regions, the charts and the
    timers are untouched. *)
Theorem accepted_click_starts_one_request :
  forall (st : state),
    (10 <= length (trim (textInput_value (ctl (page st)))))%nat ->
    exists awaiting,
      click st = AwaitingFetch awaiting /\
      ctl (page awaiting) =
        {| textInput_value := textInput_value (ctl (page st));
           loadingSpinner_hidden := false;
           resultsSection_hidden := true;
           analyzeBtn_disabled := true |} /\
      log awaiting =
        log st ++
        [Fetch {| url := lit "/analyze"; method := lit "POST";
                  content_type := lit "application/json";
                  body_text := trim (textInput_value (ctl (page st))) |}] /\
      gau (page awaiting) = gau (page st) /\
      eth (page awaiting) = eth (page st) /\
      sen (page awaiting) = sen (page st) /\
      kwv (page awaiting) = kwv (page st) /\
      cap (page awaiting) = cap (page st) /\
      emotionChart awaiting = emotionChart st /\
      charts awaiting = charts st /\
      timeouts awaiting = timeouts st /\
      intervals awaiting = intervals st /\
      next_timer awaiting = next_timer st.
Proof.
  intros st Hlong. eexists. split; [apply click_accepts; exact Hlong |].
  repeat split.
Qed.

Lemma accepted_click_starts_one_request_witness :
  (10 <= length (trim (textInput_value
                         (ctl (page (type_text long_enough example_state))))))%nat /\
  exists awaiting,
    click (type_text long_enough example_state) = AwaitingFetch awaiting /\
    log awaiting =
      [Fetch {| url := lit "/analyze"; method := lit "POST";
                content_type := lit "application/json";
                body_text := lit "Act now, everyone agrees!" |}] /\
    analyzeBtn_disabled (ctl (page awaiting)) = true.
Proof.
  assert (H : (10 <= length (trim (textInput_value
                 (ctl (page (type_text long_enough example_state))))))%nat)
    by (vm_compute; lia).
  split; [exact H |].
  destruct (accepted_click_starts_one_request
              (type_text long_enough example_state) H)
    as (awaiting & Hc & Hctl & Hlog & _).
  exists awaiting. split; [exact Hc |]. split.
  - etransitivity; [exact Hlog | vm_compute; reflexivity].
  - rewrite Hctl. reflexivity.
Defined.

(** ** A whole session on the page *)

Section Session.

Variable unicode_upper : code_unit -> jsstring.

Lemma attempt_success st during data :
  (10 <= length (trim (textInput_value (ctl (page st)))))%nat ->
  exists awaiting,
    click st = AwaitingFetch awaiting /\
    attempt unicode_upper during (Ok (Parsed data)) st =
    finally_block
      (displayResults unicode_upper data
         (with_page (set_results_hidden false)
            (with_page (set_spinner_hidden true)
               (run_timers during awaiting)))).
Proof.
  intro Hlong. eexists. split; [apply click_accepts; exact Hlong |].
  unfold attempt. rewrite (click_accepts st Hlong). reflexivity.
Qed.

(** X3. An accepted input whose request succeeds: the spinner ends
    hidden, the results section visible and the button enabled; the one
    request is the only effect (no notice, no console error); captions,
    sentiment values and keyword panel are those of the received data,
    the chart shown is the chart of its emotions, and five timers were
    started. *)
Theorem successful_attempt_shows_results :
  forall (st : state) (during : list timer_event) (data : AnalysisResult),
    (10 <= length (trim (textInput_value (ctl (page st)))))%nat ->
    let final := attempt unicode_upper during (Ok (Parsed data)) st in
    ctl (page final) =
      {| textInput_value := textInput_value (ctl (page st));
         loadingSpinner_hidden := true;
         resultsSection_hidden := false;
         analyzeBtn_disabled := false |} /\
    log final =
      log st ++ [Fetch (analyze_request (trim (textInput_value (ctl (page st)))))] /\
    cap (page final) =
      {| persuasionLabel_text := persuasion_label data;
         ethicalReflection_text := ethical_reflection data;
         highlightedText_html := highlighted_text data |} /\
    kwv (page final) = kwv (page (displayKeywords (persuasive_keywords data) st)) /\
    polarityValue_text (sen (page final)) = toFixed (polarity (sentiment data)) 3 /\
    subjectivityValue_text (sen (page final)) =
      toFixed (subjectivity (sentiment data)) 3 /\
    shown_chart final =
      Some {| config := {| chart_type := lit "doughnut";
                           labels := map (fun kv => capitalize unicode_upper (fst kv))
                                         (emotions data);
                           data := map snd (emotions data);
                           backgroundColor := palette |};
              destroyed := false |} /\
    next_timer final = (5 + next_timer st)%nat.
Proof.
  intros st during data Hlong final.
  destruct (attempt_success st during data Hlong) as (awaiting & Hc & Hfinal).
  rewrite (click_accepts st Hlong) in Hc. inversion Hc as [Ha]. clear Hc.
  destruct (run_timers_frame during awaiting)
    as (Fctl & Fcap & Fkwv & Fec & Fch & Flog & Fnt).
  subst final. rewrite Hfinal.
  split; [| split; [| split; [| split; [| split; [| split; [| split]]]]]].
  - simpl. rewrite Fctl, <- Ha. reflexivity.
  - simpl. rewrite Flog, <- Ha. reflexivity.
  - reflexivity.
  - reflexivity.
  - reflexivity.
  - reflexivity.
  - apply (displayResults_shown unicode_upper data).
  - simpl. rewrite Fnt, <- Ha. reflexivity.
Qed.

(** *** Events *)

(** The page between events: the state of the script and the number of
    runs of the click handler suspended at [await fetch]. *)
Record session := {
  now : state;
  in_flight : nat
}.

Inductive page_event :=
  | UserClicksAnalyze
  | UserKeyDown (ctrlKey : bool) (key : jsstring)
  | UserTypes (value : jsstring)
  | TimerFires (ev : timer_event)
  | FetchSettles (o : fetch_outcome).

(** The button is activated, by the user or by [analyzeBtn.click()]: a
    disabled button dispatches no click event; otherwise the handler runs
    to its return or to its [await]. *)
Definition activate (s : session) : session :=
  if analyzeBtn_disabled (ctl (page (now s))) then s
  else match click (now s) with
       | Returned st => {| now := st; in_flight := in_flight s |}
       | AwaitingFetch st => {| now := st; in_flight := S (in_flight s) |}
       end.

Definition jsstring_eqb (a b : jsstring) : bool :=
  if list_eq_dec N.eq_dec a b then true else false.

(** The [keydown] listener of the text box:
    [if (e.ctrlKey && e.key === 'Enter') analyzeBtn.click()] *)
Definition keydown (ctrlKey : bool) (key : jsstring) (s : session) : session :=
  if ctrlKey && jsstring_eqb key (lit "Enter") then activate s else s.

Definition step (e : page_event) (s : session) : session :=
  match e with
  | UserClicksAnalyze => activate s
  | UserKeyDown ctrlKey key => keydown ctrlKey key s
  | UserTypes value => {| now := type_text value (now s);
                          in_flight := in_flight s |}
  | TimerFires ev => {| now := fire ev (now s); in_flight := in_flight s |}
  | FetchSettles o =>
      match in_flight s with
      | O => s                         (* no request to settle *)
      | S n => {| now := resume unicode_upper o (now s); in_flight := n |}
      end
  end.

Definition run_session (es : list page_event) (s : session) : session :=
  fold_left (fun s e => step e s) es s.

(** Idle: no request pending, button enabled, spinner hidden. Busy: one
    request pending, button disabled, spinner shown, results hidden. *)
Definition idle (s : session) : Prop :=
  in_flight s = 0%nat /\
  analyzeBtn_disabled (ctl (page (now s))) = false /\
  loadingSpinner_hidden (ctl (page (now s))) = true.

Definition busy (s : session) : Prop :=
  in_flight s = 1%nat /\
  analyzeBtn_disabled (ctl (page (now s))) = true /\
  loadingSpinner_hidden (ctl (page (now s))) = false /\
  resultsSection_hidden (ctl (page (now s))) = true.

Lemma resume_controls o st :
  analyzeBtn_disabled (ctl (page (resume unicode_upper o st))) = false /\
  loadingSpinner_hidden (ctl (page (resume unicode_upper o st))) = true.
Proof.
  destruct o as [m | [m | [[| c s] |]] | [m | data] | [m | | m] | [| r] m];
    try (split; reflexivity).
  unfold resume, try_block.
  destruct (displayResults_loose_frame unicode_upper r
              (with_page (set_results_hidden false)
                 (with_page (set_spinner_hidden true) st))) as (Hctl & _ & _).
  destruct (displayResults_loose unicode_upper r _) as [st' threw].
  simpl in Hctl. destruct threw; simpl; [split; reflexivity |].
  rewrite Hctl. split; reflexivity.
Qed.

Lemma activate_idle_or_busy s :
  idle s \/ busy s -> idle (activate s) \/ busy (activate s).
Proof.
  intros [(Hn & Hb & Hs) | (Hn & Hb & Hs & Hr)]; unfold activate.
  - rewrite Hb.
    destruct (Nat.lt_ge_cases
                (length (trim (textInput_value (ctl (page (now s)))))) 10)
      as [L | G].
    + rewrite (click_rejects _ L). left. repeat split; assumption.
    + rewrite (click_accepts _ G). right. simpl. rewrite Hn.
      repeat split.
  - rewrite Hb. right. repeat split; assumption.
Qed.

Lemma step_idle_or_busy e s :
  idle s \/ busy s -> idle (step e s) \/ busy (step e s).
Proof.
  intro H. destruct e as [| ctrlKey key | value | ev | o]; simpl.
  - apply activate_idle_or_busy. exact H.
  - unfold keydown. destruct (ctrlKey && jsstring_eqb key (lit "Enter"));
      [apply activate_idle_or_busy |]; exact H.
  - destruct H as [(Hn & Hb & Hs) | (Hn & Hb & Hs & Hr)];
      [left | right]; repeat split; assumption.
  - destruct (fire_frame ev (now s)) as (Fctl & _).
    destruct H as [(Hn & Hb & Hs) | (Hn & Hb & Hs & Hr)];
      [left | right]; unfold idle, busy; simpl; rewrite Fctl;
      repeat split; assumption.
  - destruct H as [(Hn & Hb & Hs) | (Hn & Hb & Hs & Hr)].
    + rewrite Hn. left. repeat split; assumption.
    + rewrite Hn. left. destruct (resume_controls o (now s)) as [R1 R2].
      repeat split; assumption.
Qed.

Lemma run_session_idle_or_busy es : forall s,
  idle s \/ busy s -> idle (run_session es s) \/ busy (run_session es s).
Proof.
  induction es as [| e es IH]; intros s H; simpl; [exact H |].
  apply IH. apply step_idle_or_busy. exact H.
Qed.

(** X4. From an idle page, after any sequence of clicks, key presses,
    edits, timer events and settlements: at most one request is pending;
    one is pending exactly when the button is disabled, and exactly when
    the spinner is shown; and while one is pending the results section is
    hidden. *)
Theorem session_has_one_request_at_a_time :
  forall (es : list page_event) (s0 : session),
    idle s0 ->
    let s := run_session es s0 in
    (in_flight s <= 1)%nat /\
    (in_flight s = 1%nat <-> analyzeBtn_disabled (ctl (page (now s))) = true) /\
    (in_flight s = 1%nat <-> loadingSpinner_hidden (ctl (page (now s))) = false) /\
    (in_flight s = 1%nat -> resultsSection_hidden (ctl (page (now s))) = true).
Proof.
  intros es s0 H0 s.
  destruct (run_session_idle_or_busy es s0 (or_introl H0))
    as [(Hn & Hb & Hs) | (Hn & Hb & Hs & Hr)]; fold s in Hn, Hb, Hs.
  - rewrite Hn, Hb, Hs.
    repeat split; intros; try lia; try discriminate; congruence.
  - fold s in Hr. rewrite Hn, Hb, Hs.
    repeat split; intros; try lia; try reflexivity; exact Hr.
Qed.

Definition is_activation (e : page_event) : Prop :=
  match e with
  | UserClicksAnalyze | UserKeyDown _ _ => True
  | _ => False
  end.

(** X5. While a request is pending, clicks on the button and key presses
    in the text box (Ctrl+Enter included) leave the session exactly as it
    is: no second request, no notice, no change of the page. *)
Theorem pending_request_ignores_activation :
  forall (es : list page_event) (s : session),
    busy s -> Forall is_activation es -> run_session es s = s.
Proof.
  induction es as [| e es IH]; intros s Hb Hall; simpl; [reflexivity |].
  inversion Hall as [| e' es' He Hes]; subst.
  assert (Hstep : step e s = s).
  { destruct Hb as (_ & Hd & _).
    destruct e as [| ctrlKey key | | |]; simpl in He; try contradiction.
    - simpl. unfold activate. rewrite Hd. reflexivity.
    - simpl. unfold keydown, activate. rewrite Hd.
      destruct (ctrlKey && jsstring_eqb key (lit "Enter")); reflexivity. }
  rewrite Hstep. apply IH; assumption.
Qed.

(** *** Charts over a session *)

Lemma chart_inv_same st st' :
  charts st' = charts st -> emotionChart st' = emotionChart st ->
  chart_inv st -> chart_inv st'.
Proof.
  intros Hc He Hinv i c. rewrite Hc, He. apply Hinv.
Qed.

Lemma click_charts st :
  charts (state_of (click st)) = charts st /\
  emotionChart (state_of (click st)) = emotionChart st.
Proof.
  unfold click.
  destruct (match trim (textInput_value (ctl (page st))) with
            | [] => true | _ :: _ => false end
            || (length (trim (textInput_value (ctl (page st)))) <? 10)%nat);
    split; reflexivity.
Qed.

(** What a render that may throw does to the charts: nothing (it threw
    before [displayEmotionChart]), only the disposal (the emotions are
    missing), or what [displayEmotionChart] does. *)
Lemma displayResults_loose_charts r st :
  (charts (fst (displayResults_loose unicode_upper r st)) = charts st /\
   emotionChart (fst (displayResults_loose unicode_upper r st)) =
     emotionChart st) \/
  (charts (fst (displayResults_loose unicode_upper r st)) =
     match emotionChart st with
     | Some i => destroy i (charts st)
     | None => charts st
     end /\
   emotionChart (fst (displayResults_loose unicode_upper r st)) =
     emotionChart st) \/
  (exists e,
      charts (fst (displayResults_loose unicode_upper r st)) =
        charts (displayEmotionChart unicode_upper e st) /\
      emotionChart (fst (displayResults_loose unicode_upper r st)) =
        emotionChart (displayEmotionChart unicode_upper e st)).
Proof.
  unfold displayResults_loose.
  destruct (loose_sentiment_part r);
    try (left; split; reflexivity).
  destruct (loose_emotions_part r) as [| e];
    [right; left; split; reflexivity |].
  right; right; exists e.
  destruct (loose_keywords_part r); split; reflexivity.
Qed.

Lemma displayResults_loose_chart_inv r st :
  chart_inv st -> chart_inv (fst (displayResults_loose unicode_upper r st)).
Proof.
  intro Hinv.
  destruct (displayResults_loose_charts r st)
    as [[Hc He] | [[Hc He] | (e & Hc & He)]].
  - eapply chart_inv_same; eassumption.
  - intros j c Hj D. rewrite Hc in Hj.
    pose proof (disposal_leaves_none_alive st Hinv j c Hj). congruence.
  - eapply chart_inv_same;
      [exact Hc | exact He |
       apply (displayEmotionChart_inv unicode_upper e st Hinv)].
Qed.

Lemma resume_chart_inv o st :
  chart_inv st -> chart_inv (resume unicode_upper o st).
Proof.
  intro Hinv.
  destruct o as [m | [m | [[| c s] |]] | [m | data] | [m | | m] | [| r] m];
    try (eapply chart_inv_same; [| | exact Hinv]; reflexivity).
  - unfold resume, try_block, finally_block.
    eapply chart_inv_same;
      [| | apply (displayResults_chart_inv unicode_upper data);
           eapply chart_inv_same; [| | exact Hinv]; reflexivity];
      reflexivity.
  - unfold resume, try_block.
    assert (Hinv' : chart_inv (with_page (set_results_hidden false)
                                 (with_page (set_spinner_hidden true) st)))
      by (eapply chart_inv_same; [| | exact Hinv]; reflexivity).
    pose proof (displayResults_loose_chart_inv r _ Hinv') as H.
    destruct (displayResults_loose unicode_upper r _) as [st' threw].
    simpl in H. destruct threw;
      (eapply chart_inv_same; [| | exact H]; reflexivity).
Qed.

Lemma step_chart_inv e s :
  chart_inv (now s) -> chart_inv (now (step e s)).
Proof.
  assert (Hact : chart_inv (now s) -> chart_inv (now (activate s))).
  { intro Hinv. unfold activate.
    destruct (analyzeBtn_disabled (ctl (page (now s)))); [exact Hinv |].
    destruct (click_charts (now s)) as [Hc He].
    destruct (click (now s)); simpl in *;
      eapply chart_inv_same; eassumption. }
  intro Hinv. destruct e as [| ctrlKey key | value | ev | o]; simpl.
  - apply Hact. exact Hinv.
  - unfold keydown. destruct (ctrlKey && jsstring_eqb key (lit "Enter"));
      [apply Hact |]; exact Hinv.
  - eapply chart_inv_same; [| | exact Hinv]; reflexivity.
  - destruct (fire_frame ev (now s)) as (_ & _ & _ & He & Hc & _).
    eapply chart_inv_same; eassumption.
  - destruct (in_flight s); [exact Hinv |].
    apply resume_chart_inv. exact Hinv.
Qed.

Lemma at_most_one_alive cs : forall i,
  (forall j c, nth_error cs j = Some c -> destroyed c = false -> j = i) ->
  (length (filter (fun c => negb (destroyed c)) cs) <= 1)%nat.
Proof.
  induction cs as [| c cs IH]; intros i H; simpl; [lia |].
  destruct (destroyed c) eqn:D; simpl.
  - apply (IH (Nat.pred i)). intros j c' Hj Hd.
    specialize (H (S j) c' Hj Hd). lia.
  - pose proof (H O c eq_refl D) as Hi.
    rewrite filter_none_alive; [simpl; lia |].
    intros j c' Hj. destruct (destroyed c') eqn:D'; [reflexivity |].
    specialize (H (S j) c' Hj D'). lia.
Qed.

Lemma chart_inv_at_most_one st :
  chart_inv st -> (length (live_charts st) <= 1)%nat.
Proof.
  intro Hinv. unfold live_charts.
  destruct (emotionChart st) as [i |] eqn:E.
  - apply (at_most_one_alive _ i). intros j c Hj D.
    specialize (Hinv j c Hj D). congruence.
  - rewrite filter_none_alive; [simpl; lia |].
    intros j c Hj. destruct (destroyed c) eqn:D; [reflexivity |].
    specialize (Hinv j c Hj D). congruence.
Qed.

(** X6. Over a whole session that starts with at most the referenced
    chart alive (as at page load, where there is none): whatever the
    user does and however requests settle, never more than one chart
    instance is alive, and a live one is the one the global refers to. *)
Theorem session_keeps_one_chart :
  forall (es : list page_event) (s0 : session),
    chart_inv (now s0) ->
    let s := run_session es s0 in
    chart_inv (now s) /\ (length (live_charts (now s)) <= 1)%nat.
Proof.
  intros es s0 H0 s.
  assert (Hinv : chart_inv (now s)).
  { subst s. revert s0 H0. induction es as [| e es IH]; intros s0 H0; simpl;
      [exact H0 |].
    apply IH. apply step_chart_inv. exact H0. }
  split; [exact Hinv | apply chart_inv_at_most_one; exact Hinv].
Qed.

(** *** Tweens that cannot stop *)

(** The stop test of the interval callback needs a positive or a negative
    increment; a zero or a NaN increment has neither sign. *)
Definition never_stops (tw : tween) : Prop :=
  (0 <? increment tw) = false /\ (increment tw <? 0) = false.

Definition same_course (tw tw' : tween) : Prop :=
  element tw' = element tw /\ increment tw' = increment tw /\
  target tw' = target tw.

Lemma tick_never_stops tw :
  never_stops tw -> snd (tick tw) = false /\ same_course tw (fst (tick tw)).
Proof.
  intros [Hp Hn]. unfold tick. rewrite Hp, Hn. simpl.
  repeat split.
Qed.

Lemma fire_keeps_unstoppable ev st id tw :
  lookup id (intervals st) = Some tw -> never_stops tw ->
  exists tw', lookup id (intervals (fire ev st)) = Some tw' /\
              same_course tw tw'.
Proof.
  intros Hl Hns. destruct ev as [id' | id']; simpl.
  - exists tw. unfold fire_timeout.
    destruct (lookup id' (timeouts st)); (split; [exact Hl | repeat split]).
  - unfold fire_interval.
    destruct (lookup id' (intervals st)) as [tw0 |] eqn:E;
      [| exists tw; split; [exact Hl | repeat split]].
    destruct (Nat.eq_dec id' id) as [-> | NE].
    + rewrite Hl in E. inversion E; subst tw0.
      destruct (tick_never_stops tw Hns) as [Hc Hsame].
      destruct (tick tw) as [tw' cleared]. simpl in Hc, Hsame. subst cleared.
      exists tw'. split; [| exact Hsame]. simpl.
      apply (lookup_update_same _ _ tw). exact Hl.
    + exists tw. split; [| repeat split].
      destruct (tick tw0) as [tw0' cleared]. simpl. destruct cleared;
        [rewrite lookup_remove_other | rewrite lookup_update_other];
        assumption.
Qed.

Lemma never_stops_same_course tw tw' :
  same_course tw tw' -> never_stops tw -> never_stops tw'.
Proof.
  intros (_ & Hi & _) [Hp Hn]. unfold never_stops. rewrite Hi.
  split; assumption.
Qed.

Lemma same_course_trans tw1 tw2 tw3 :
  same_course tw1 tw2 -> same_course tw2 tw3 -> same_course tw1 tw3.
Proof.
  intros (A1 & A2 & A3) (B1 & B2 & B3). repeat split; congruence.
Qed.

Lemma displayResults_keeps_interval r st id tw :
  lookup id (intervals st) = Some tw ->
  lookup id (intervals (displayResults unicode_upper r st)) = Some tw.
Proof.
  intro Hl.
  destruct (displayResults_timers unicode_upper r st) as (_ & Ei & _).
  rewrite Ei, lookup_app, Hl. reflexivity.
Qed.

Lemma displayResults_loose_intervals r st :
  intervals (fst (displayResults_loose unicode_upper r st)) =
    intervals st ++
    [(S (next_timer st),
      {| element := GaugeScore; current := 0;
         increment := (loose_persuasion_score r - 0) / (2000 / 16);
         target := loose_persuasion_score r |});
     (S (S (S (next_timer st))),
      {| element := EthicalScore; current := 0;
         increment := (loose_ethical_score r - 0) / (2000 / 16);
         target := loose_ethical_score r |})].
Proof.
  unfold displayResults_loose.
  destruct (loose_sentiment_part r), (loose_emotions_part r),
    (loose_keywords_part r); simpl; rewrite <- ?app_assoc; reflexivity.
Qed.

Lemma displayResults_loose_keeps_interval r st id tw :
  lookup id (intervals st) = Some tw ->
  lookup id (intervals (fst (displayResults_loose unicode_upper r st))) =
    Some tw.
Proof.
  intro Hl. rewrite displayResults_loose_intervals, lookup_app, Hl.
  reflexivity.
Qed.

Lemma click_intervals st :
  intervals (state_of (click st)) = intervals st.
Proof.
  unfold click.
  destruct (match trim (textInput_value (ctl (page st))) with
            | [] => true | _ :: _ => false end
            || (length (trim (textInput_value (ctl (page st)))) <? 10)%nat);
    reflexivity.
Qed.

Lemma step_keeps_unstoppable e s id tw :
  lookup id (intervals (now s)) = Some tw -> never_stops tw ->
  exists tw', lookup id (intervals (now (step e s))) = Some tw' /\
              same_course tw tw'.
Proof.
  intros Hl Hns.
  assert (Hact : lookup id (intervals (now (activate s))) = Some tw).
  { unfold activate.
    destruct (analyzeBtn_disabled (ctl (page (now s)))); [exact Hl |].
    pose proof (click_intervals (now s)) as Hi.
    destruct (click (now s)); simpl in *; rewrite Hi; exact Hl. }
  destruct e as [| ctrlKey key | value | ev | o]; simpl.
  - exists tw. split; [exact Hact | repeat split].
  - exists tw. split; [| repeat split]. unfold keydown.
    destruct (ctrlKey && jsstring_eqb key (lit "Enter")); assumption.
  - exists tw. split; [exact Hl | repeat split].
  - apply fire_keeps_unstoppable; assumption.
  - exists tw. split; [| repeat split].
    destruct (in_flight s); [exact Hl |]. simpl.
    destruct o as [m | [m | [[| c t] |]] | [m | data] | [m | | m] | [| r] m];
      try exact Hl.
    + unfold resume, try_block, finally_block. simpl intervals.
      apply displayResults_keeps_interval. exact Hl.
    + unfold resume, try_block.
      pose proof (displayResults_loose_keeps_interval r
                    (with_page (set_results_hidden false)
                       (with_page (set_spinner_hidden true) (now s)))
                    id tw Hl) as H.
      destruct (displayResults_loose unicode_upper r _) as [st' threw].
      simpl in H. destruct threw; exact H.
Qed.

(** X7. An interval timer whose increment is neither positive nor
    negative (a tween between equal values, or one with a NaN increment)
    is never cleared: after any sequence of clicks, key presses, edits,
    timer events and settlements, later renders included, it is still
    registered, on the same element with the same increment and
    target. *)
Theorem unstoppable_tween_outlives_session :
  forall (es : list page_event) (s : session) (id : nat) (tw : tween),
    lookup id (intervals (now s)) = Some tw ->
    never_stops tw ->
    exists tw',
      lookup id (intervals (now (run_session es s))) = Some tw' /\
      same_course tw tw'.
Proof.
  induction es as [| e es IH]; intros s id tw Hl Hns; simpl.
  - exists tw. split; [exact Hl | repeat split].
  - destruct (step_keeps_unstoppable e s id tw Hl Hns) as (tw1 & Hl1 & Hs1).
    destruct (IH (step e s) id tw1 Hl1 (never_stops_same_course _ _ Hs1 Hns))
      as (tw2 & Hl2 & Hs2).
    exists tw2. split; [exact Hl2 | eapply same_course_trans; eassumption].
Qed.

(** *** A tick never passes the target *)

Lemma ltb_irrefl (x : number) : (x <? x) = false.
Proof.
  rewrite FloatAxioms.ltb_spec. unfold SFltb.
  pose proof (SFcompare_antisym (Prim2SF x) (Prim2SF x)) as H.
  destruct (SFcompare (Prim2SF x) (Prim2SF x)) as [[| |] |];
    try reflexivity. discriminate H.
Qed.

Lemma ltb_leb (x y : number) : (x <? y) = true -> (x <=? y) = true.
Proof.
  rewrite FloatAxioms.ltb_spec, FloatAxioms.leb_spec. unfold SFltb, SFleb.
  destruct (SFcompare (Prim2SF x) (Prim2SF y)) as [[| |] |];
    intro H; try reflexivity; discriminate H.
Qed.

(** X8. One run of the interval callback: with a positive increment the
    value it renders is never above the target, with a negative one never
    below; when it clears its timer the value is the target itself and
    the increment was not zero; and the text it writes is [Math.round] of
    that value. *)
Theorem tick_never_passes_target :
  forall (st : state) (id : nat) (tw : tween),
    lookup id (intervals st) = Some tw ->
    let tw' := fst (tick tw) in
    let cleared := snd (tick tw) in
    score_text (element tw) (page (fire_interval id st)) =
      [NumberToString (Math_round (current tw'))] /\
    ((0 <? increment tw) = true -> (target tw <? current tw') = false) /\
    ((increment tw <? 0) = true -> (current tw' <? target tw) = false) /\
    (cleared = true ->
     current tw' = target tw /\
     lookup id (intervals (fire_interval id st)) = None /\
     ((0 <? increment tw) = true \/ (increment tw <? 0) = true)) /\
    (cleared = false ->
     lookup id (intervals (fire_interval id st)) = Some tw').
Proof.
  intros st id tw Hl tw' cleared.
  assert (Hfire : fire_interval id st =
    {| page := write_score (element tw') (current tw') (page st);
       emotionChart := emotionChart st; charts := charts st;
       next_timer := next_timer st; timeouts := timeouts st;
       intervals := if cleared then remove_id id (intervals st)
                    else update_id id tw' (intervals st);
       log := log st |}).
  { unfold fire_interval. rewrite Hl. subst tw' cleared.
    destruct (tick tw); reflexivity. }
  destruct (tick_keeps tw) as (Kel & _ & _). fold tw' in Kel.
  split.
  { rewrite Hfire, <- Kel. destruct (element tw'); reflexivity. }
  subst tw' cleared. rewrite Hfire. clear Hfire Kel. unfold tick.
  destruct (0 <? increment tw) eqn:Hp; destruct (increment tw <? 0) eqn:Hn;
    simpl;
    destruct (target tw <=? current tw + increment tw) eqn:Hge;
    destruct (current tw + increment tw <=? target tw) eqn:Hle;
    simpl;
    repeat match goal with
           | |- _ /\ _ => split
           | |- _ -> _ => intro
           end;
    try discriminate; try reflexivity; try apply ltb_irrefl;
    try (left; reflexivity); try (right; reflexivity);
    try (apply (lookup_update_same _ _ tw); exact Hl);
    try (destruct (target tw <? current tw + increment tw) eqn:Hlt;
         [apply ltb_leb in Hlt; congruence | reflexivity]);
    try (destruct (current tw + increment tw <? target tw) eqn:Hlt;
         [apply ltb_leb in Hlt; congruence | reflexivity]).
  all: clear; induction (intervals st) as [| [i a] l IH]; simpl;
    [reflexivity | destruct (Nat.eqb_spec i id); simpl;
                   [exact IH | destruct (Nat.eqb_spec i id);
                               [contradiction | exact IH]]].
Qed.

(** *** Renders in a row *)

(** [displayResults] called for each result of a list, in order. *)
Definition render_all (rs : list AnalysisResult) (st : state) : state :=
  fold_left (fun s r => displayResults unicode_upper r s) rs st.

Definition chart_of (r : AnalysisResult) : chart :=
  {| config := {| chart_type := lit "doughnut";
                  labels := map (fun kv => capitalize unicode_upper (fst kv))
                                (emotions r);
                  data := map snd (emotions r);
                  backgroundColor := palette |};
     destroyed := false |}.

Lemma displayResults_charts_length r st :
  length (charts (displayResults unicode_upper r st)) = S (length (charts st)).
Proof.
  change (charts (displayResults unicode_upper r st))
    with (charts (displayEmotionChart unicode_upper (emotions r) st)).
  unfold displayEmotionChart. simpl. rewrite length_app. simpl.
  destruct (emotionChart st); rewrite ?destroy_length; lia.
Qed.

Lemma render_all_snoc rs r st :
  render_all (rs ++ [r]) st = displayResults unicode_upper r (render_all rs st).
Proof. unfold render_all. rewrite fold_left_app. reflexivity. Qed.

(** X9. Rendering a list of results one after the other, from a state in
    which only the referenced chart can be alive: each render has added
    three delayed callbacks and two interval timers and cancelled none of
    the pending ones, and has created one chart instance; after the last
    render the only chart alive is the chart of the last result. *)
Theorem renders_pile_up_timers_not_charts :
  forall (rs : list AnalysisResult) (st : state),
    chart_inv st ->
    let st' := render_all rs st in
    chart_inv st' /\
    (exists added, timeouts st' = timeouts st ++ added /\
                   length added = (3 * length rs)%nat) /\
    (exists added, intervals st' = intervals st ++ added /\
                   length added = (2 * length rs)%nat) /\
    next_timer st' = (5 * length rs + next_timer st)%nat /\
    length (charts st') = (length rs + length (charts st))%nat /\
    (forall r rs', rs = rs' ++ [r] -> live_charts st' = [chart_of r]).
Proof.
  intros rs. induction rs as [| r rs IH] using rev_ind; intros st Hinv st'.
  - subst st'. simpl. split; [exact Hinv |].
    split; [exists []; rewrite app_nil_r; split; reflexivity |].
    split; [exists []; rewrite app_nil_r; split; reflexivity |].
    split; [reflexivity |]. split; [reflexivity |].
    intros r rs' H. destruct rs'; discriminate H.
  - subst st'. rewrite render_all_snoc.
    destruct (IH st Hinv) as (Hinv' & (ta & Et & Lt) & (ia & Ei & Li) & En & Ec & _).
    destruct (displayResults_timers unicode_upper r (render_all rs st))
      as (Et' & Ei' & En').
    rewrite length_app. cbn [length].
    split; [apply displayResults_chart_inv; exact Hinv' |].
    split.
    { eexists. rewrite Et', Et, <- app_assoc. split; [reflexivity |].
      rewrite length_app. cbn [length]. lia. }
    split.
    { eexists. rewrite Ei', Ei, <- app_assoc. split; [reflexivity |].
      rewrite length_app. cbn [length]. lia. }
    split; [rewrite En', En; lia |].
    split; [rewrite displayResults_charts_length, Ec; lia |].
    intros r0 rs' H. apply app_inj_tail in H. destruct H as [_ <-].
    apply (displayResults_live unicode_upper r _ Hinv').
Qed.

End Session.

(** ** Category names in the keyword panel *)

(** X10. The name shown for a category is the category with its first
    underscore turned into a space: a name without underscore is shown as
    it is, and every underscore after the first stays. *)
Theorem category_name_loses_first_underscore_only :
  forall (st : state) (k : Keywords) (before after : jsstring) (n : number),
    ~ In 95%N before ->
    (forall rest, ~ In 95%N rest ->
       category_row (rest, n) = CategoryItem rest n) /\
    category_row (before ++ 95%N :: after, n) =
      CategoryItem (before ++ 32%N :: after) n /\
    (by_category k = [(before ++ 95%N :: after, n)] -> (0 <? n) = true ->
     keywordCategories (kwv (page (displayKeywords k st))) =
       [CategoryItem (before ++ 32%N :: after) n]).
Proof.
  intros st k before after n Hb.
  assert (Hnone : forall rest, ~ In 95%N rest ->
                         replace_first 95%N 32%N rest = rest).
  { induction rest as [| c rest IH]; intro H; simpl; [reflexivity |].
    destruct (N.eqb_spec c 95%N) as [-> | NE].
    - exfalso. apply H. left. reflexivity.
    - rewrite IH; [reflexivity |]. intro Hin. apply H. right. exact Hin. }
  assert (Hfirst : replace_first 95%N 32%N (before ++ 95%N :: after) =
                   before ++ 32%N :: after).
  { clear Hnone. induction before as [| c before IH]; simpl;
      [reflexivity |].
    destruct (N.eqb_spec c 95%N) as [-> | NE].
    - exfalso. apply Hb. left. reflexivity.
    - rewrite IH; [reflexivity |]. intro Hin. apply Hb. right. exact Hin. }
  split; [| split].
  - intros rest H. unfold category_row. simpl. rewrite (Hnone rest H).
    reflexivity.
  - unfold category_row. simpl. rewrite Hfirst. reflexivity.
  - intros Hk Hpos. simpl. rewrite Hk. simpl. rewrite Hpos. simpl.
    rewrite Hfirst. reflexivity.
Qed.

Lemma category_name_loses_first_underscore_only_witness :
  ~ In 95%N (lit "fear") /\
  category_row (lit "fear_appeal_words", 2%float) =
    CategoryItem (lit "fear appeal_words") 2%float.
Proof.
  assert (H : ~ In 95%N (lit "fear")).
  { simpl. intros [E | [E | [E | [E | []]]]]; discriminate E. }
  split; [exact H |].
  exact (proj1 (proj2 (category_name_loses_first_underscore_only
                         example_state (persuasive_keywords example_result)
                         (lit "fear") (lit "appeal_words") 2%float H))).
Defined.

(** ** Tab navigation *)

(** The elements the tab handler can reach, in document order: the id
    and [data-tab] attributes, and the class list as the ordered set of
    its tokens (as [classList] presents it). *)
Record tab_element := {
  elem_id : option jsstring;
  classList : list jsstring;
  data_tab : option jsstring
}.

Definition document := list tab_element.

Definition contains (c : jsstring) (e : tab_element) : bool :=
  existsb (jsstring_eqb c) (classList e).

(** [element.classList.remove(c)] *)
Definition classList_remove (c : jsstring) (e : tab_element) : tab_element :=
  {| elem_id := elem_id e;
     classList := filter (fun t => negb (jsstring_eqb c t)) (classList e);
     data_tab := data_tab e |}.

(** [element.classList.add(c)] *)
Definition classList_add (c : jsstring) (e : tab_element) : tab_element :=
  if contains c e then e
  else {| elem_id := elem_id e; classList := classList e ++ [c];
          data_tab := data_tab e |}.

(** [document.querySelectorAll('.' + cls).forEach(f)], for an [f] that
    changes the element it is given. *)
Definition forEach_with_class (cls : jsstring)
    (f : tab_element -> tab_element) (doc : document) : document :=
  map (fun e => if contains cls e then f e else e) doc.

Fixpoint update_at {A} (i : nat) (f : A -> A) (l : list A) : list A :=
  match l, i with
  | [], _ => []
  | x :: l', O => f x :: l'
  | x :: l', S i' => x :: update_at i' f l'
  end.

Definition has_id (id : jsstring) (e : tab_element) : bool :=
  match elem_id e with
  | Some x => jsstring_eqb x id
  | None => false
  end.

(** [document.getElementById(id)]: the position of the first element
    with that id, if there is one. *)
Fixpoint getElementById (id : jsstring) (doc : document) : option nat :=
  match doc with
  | [] => None
  | e :: doc' => if has_id id e then Some O
                 else option_map S (getElementById id doc')
  end.

Inductive completion :=
  | Completed (doc : document)
  | Threw (doc : document).   (* TypeError: classList of null *)

Definition document_after (c : completion) : document :=
  match c with
  | Completed doc => doc
  | Threw doc => doc
  end.

(** [`${targetTab}-tab`], where a missing attribute reads as [null]. *)
Definition panel_id (button : tab_element) : jsstring :=
  match data_tab button with
  | Some t => t
  | None => lit "null"
  end ++ lit "-tab".

(** The click listener of the button at position [i]. Listeners are
    attached to the elements with class [tab-button] only; a position
    without an element has no listener. *)
Definition tab_click (i : nat) (doc : document) : completion :=
  match nth_error doc i with
  | None => Completed doc
  | Some button =>
      let target := panel_id button in
      let doc := forEach_with_class (lit "tab-button")
                   (classList_remove (lit "active")) doc in
      let doc := update_at i (classList_add (lit "active")) doc in
      let doc := forEach_with_class (lit "tab-content")
                   (classList_remove (lit "active")) doc in
      match getElementById target doc with
      | None => Threw doc
      | Some j => Completed (update_at j (classList_add (lit "active")) doc)
      end
  end.

Definition example_tab (name : string) (active : bool) : tab_element :=
  {| elem_id := None;
     classList := lit "tab-button" :: (if active then [lit "active"] else []);
     data_tab := Some (lit name) |}.

Definition example_panel (name : string) (active : bool) : tab_element :=
  {| elem_id := Some (lit name ++ lit "-tab");
     classList := lit "tab-content" :: (if active then [lit "active"] else []);
     data_tab := None |}.

(** Two tabs with their panels, and a third tab whose panel is missing. *)
Definition example_document : document :=
  [example_tab "analyze" true; example_tab "about" false;
   example_tab "help" false;
   example_panel "analyze" true; example_panel "about" false].

(** *** The handler, element by element *)

(** What the handler does to the element at one position, given whether
    it is the clicked button and whether it is the element found for the
    panel id. *)
Definition tab_step (clicked found : bool) (e : tab_element) : tab_element :=
  let e := if contains (lit "tab-button") e
           then classList_remove (lit "active") e else e in
  let e := if clicked then classList_add (lit "active") e else e in
  let e := if contains (lit "tab-content") e
           then classList_remove (lit "active") e else e in
  if found then classList_add (lit "active") e else e.

Definition is_found (target : option nat) (k : nat) : bool :=
  match target with
  | Some j => Nat.eqb k j
  | None => false
  end.

Lemma jsstring_eqb_eq a b : jsstring_eqb a b = true <-> a = b.
Proof.
  unfold jsstring_eqb. destruct (list_eq_dec N.eq_dec a b); split;
    intro H; try reflexivity; try assumption; try discriminate; contradiction.
Qed.

Lemma jsstring_eqb_neq a b : a <> b -> jsstring_eqb a b = false.
Proof.
  intro NE. destruct (jsstring_eqb a b) eqn:E; [| reflexivity].
  apply jsstring_eqb_eq in E. contradiction.
Qed.

Lemma nth_error_update_at {A} (g : A -> A) l : forall i k,
  nth_error (update_at i g l) k =
  if Nat.eqb k i then option_map g (nth_error l k) else nth_error l k.
Proof.
  induction l as [| x l IH]; intros i k.
  - destruct i, k; simpl; try reflexivity.
    destruct (Nat.eqb k i); reflexivity.
  - destruct i, k; simpl; try reflexivity. apply IH.
Qed.

Lemma getElementById_map id (f : tab_element -> tab_element) doc :
  (forall e, elem_id (f e) = elem_id e) ->
  getElementById id (map f doc) = getElementById id doc.
Proof.
  intro Hf. induction doc as [| e doc IH]; simpl; [reflexivity |].
  unfold has_id. rewrite Hf, IH. reflexivity.
Qed.

Lemma getElementById_update_at id (f : tab_element -> tab_element) doc :
  (forall e, elem_id (f e) = elem_id e) ->
  forall i, getElementById id (update_at i f doc) = getElementById id doc.
Proof.
  intro Hf. induction doc as [| e doc IH]; intros [| i]; simpl;
    try reflexivity.
  - unfold has_id. rewrite Hf. reflexivity.
  - rewrite IH. reflexivity.
Qed.

Lemma classList_remove_id c e : elem_id (classList_remove c e) = elem_id e.
Proof. reflexivity. Qed.

Lemma classList_add_id c e : elem_id (classList_add c e) = elem_id e.
Proof. unfold classList_add. destruct (contains c e); reflexivity. Qed.

Lemma classList_add_data_tab c e : data_tab (classList_add c e) = data_tab e.
Proof. unfold classList_add. destruct (contains c e); reflexivity. Qed.

Lemma guarded_id cls (f : tab_element -> tab_element) :
  (forall e, elem_id (f e) = elem_id e) ->
  forall e, elem_id (if contains cls e then f e else e) = elem_id e.
Proof. intros Hf e. destruct (contains cls e); [apply Hf | reflexivity]. Qed.

(** The document the handler leaves, position by position, and whether
    it threw: it throws exactly when no element has the panel id. *)
Lemma tab_click_pointwise i doc button :
  nth_error doc i = Some button ->
  let target := getElementById (panel_id button) doc in
  (forall k,
      nth_error (document_after (tab_click i doc)) k =
      option_map (tab_step (Nat.eqb k i) (is_found target k))
                 (nth_error doc k)) /\
  tab_click i doc =
    match target with
    | Some _ => Completed (document_after (tab_click i doc))
    | None => Threw (document_after (tab_click i doc))
    end.
Proof.
  intros Hb target. unfold tab_click. rewrite Hb.
  set (d3 := forEach_with_class (lit "tab-content")
               (classList_remove (lit "active"))
               (update_at i (classList_add (lit "active"))
                  (forEach_with_class (lit "tab-button")
                     (classList_remove (lit "active")) doc))).
  assert (Hid : getElementById (panel_id button) d3 = target).
  { subst d3 target. unfold forEach_with_class.
    rewrite getElementById_map
      by (apply guarded_id; apply classList_remove_id).
    rewrite getElementById_update_at by apply classList_add_id.
    apply getElementById_map. apply guarded_id. apply classList_remove_id. }
  assert (H3 : forall k,
             nth_error d3 k =
             option_map (tab_step (Nat.eqb k i) false) (nth_error doc k)).
  { intro k. subst d3. unfold forEach_with_class.
    rewrite nth_error_map, nth_error_update_at, nth_error_map.
    destruct (nth_error doc k) as [e |]; destruct (Nat.eqb k i);
      reflexivity. }
  rewrite Hid. split.
  - intro k. destruct target as [j |]; simpl.
    + rewrite nth_error_update_at, H3.
      destruct (nth_error doc k) as [e |]; destruct (Nat.eqb k j);
        reflexivity.
    + rewrite H3. reflexivity.
  - destruct target; reflexivity.
Qed.

(** *** Tokens *)

Lemma contains_remove_other c cls e :
  cls <> c -> contains cls (classList_remove c e) = contains cls e.
Proof.
  intro NE. unfold contains, classList_remove. simpl.
  induction (classList e) as [| t l IH]; simpl; [reflexivity |].
  destruct (jsstring_eqb c t) eqn:Ec; simpl.
  - apply jsstring_eqb_eq in Ec. subst t.
    rewrite (jsstring_eqb_neq cls c NE). exact IH.
  - rewrite IH. reflexivity.
Qed.

Lemma contains_remove_same c e : contains c (classList_remove c e) = false.
Proof.
  unfold contains, classList_remove. simpl.
  induction (classList e) as [| t l IH]; simpl; [reflexivity |].
  destruct (jsstring_eqb c t) eqn:Ec; simpl; [exact IH |].
  rewrite Ec. exact IH.
Qed.

Lemma contains_add_other c cls e :
  cls <> c -> contains cls (classList_add c e) = contains cls e.
Proof.
  intro NE. unfold classList_add. destruct (contains c e); [reflexivity |].
  unfold contains. simpl. rewrite existsb_app. simpl.
  rewrite (jsstring_eqb_neq cls c NE), !orb_false_r. reflexivity.
Qed.

Lemma contains_add_same c e : contains c (classList_add c e) = true.
Proof.
  unfold classList_add. destruct (contains c e) eqn:E; [exact E |].
  unfold contains. simpl. rewrite existsb_app. simpl.
  rewrite (proj2 (jsstring_eqb_eq c c) eq_refl). apply orb_true_r.
Qed.

Lemma remove_remove c e :
  classList_remove c (classList_remove c e) = classList_remove c e.
Proof.
  unfold classList_remove. simpl. f_equal.
  induction (classList e) as [| t l IH]; simpl; [reflexivity |].
  destruct (jsstring_eqb c t) eqn:Ec; simpl; [exact IH |].
  rewrite Ec. simpl. rewrite IH. reflexivity.
Qed.

Lemma remove_add c e :
  classList_remove c (classList_add c e) = classList_remove c e.
Proof.
  unfold classList_add. destruct (contains c e); [reflexivity |].
  unfold classList_remove. simpl. f_equal. rewrite filter_app. simpl.
  rewrite (proj2 (jsstring_eqb_eq c c) eq_refl). simpl.
  apply app_nil_r.
Qed.

(** Two literals differ. *)
Ltac differ := let D := fresh in intro D; vm_compute in D; discriminate D.

Lemma active_is_no_tab_class :
  lit "tab-button" <> lit "active" /\ lit "tab-content" <> lit "active".
Proof. split; differ. Qed.

Lemma guarded_remove_contains cls g e :
  cls <> lit "active" ->
  contains cls (if contains g e then classList_remove (lit "active") e else e)
  = contains cls e.
Proof.
  intro NE. destruct (contains g e); [| reflexivity].
  apply contains_remove_other. exact NE.
Qed.

Lemma guarded_add_contains cls (b : bool) e :
  cls <> lit "active" ->
  contains cls (if b then classList_add (lit "active") e else e)
  = contains cls e.
Proof.
  intro NE. destruct b; [| reflexivity].
  apply contains_add_other. exact NE.
Qed.

(** The handler changes no token but [active]. *)
Lemma tab_step_contains cls clicked found e :
  cls <> lit "active" ->
  contains cls (tab_step clicked found e) = contains cls e.
Proof.
  intro NE. unfold tab_step.
  rewrite guarded_add_contains, guarded_remove_contains,
    guarded_add_contains, guarded_remove_contains by exact NE.
  reflexivity.
Qed.

Lemma tab_step_frame clicked found e :
  elem_id (tab_step clicked found e) = elem_id e /\
  data_tab (tab_step clicked found e) = data_tab e /\
  classList_remove (lit "active") (tab_step clicked found e) =
    classList_remove (lit "active") e.
Proof.
  unfold tab_step.
  destruct (contains (lit "tab-button") e); destruct clicked;
    rewrite ?guarded_add_contains, ?contains_add_other,
      ?contains_remove_other by differ;
    destruct (contains (lit "tab-content") e); destruct found;
    rewrite ?classList_add_id, ?classList_add_data_tab,
      ?remove_add, ?remove_remove, ?remove_add, ?remove_remove;
    simpl elem_id; simpl data_tab;
    rewrite ?classList_add_id, ?classList_add_data_tab;
    repeat split.
Qed.

(** A tab button after the step is active exactly when it was the
    clicked one, provided it is not also a panel and was not found for
    the panel id. *)
Lemma tab_step_button clicked e :
  contains (lit "tab-button") e = true ->
  (clicked = true -> contains (lit "tab-content") e = false) ->
  contains (lit "active") (tab_step clicked false e) = clicked.
Proof.
  intros Hb Hc. unfold tab_step. rewrite Hb. destruct clicked.
  - rewrite contains_add_other, contains_remove_other, (Hc eq_refl)
      by differ.
    apply contains_add_same.
  - destruct (contains (lit "tab-content")
                (classList_remove (lit "active") e));
      rewrite ?remove_remove; apply contains_remove_same.
Qed.

(** A panel after the step is active exactly when it was the element
    found for the panel id. *)
Lemma tab_step_panel clicked found e :
  contains (lit "tab-content") e = true ->
  contains (lit "active") (tab_step clicked found e) = found.
Proof.
  intro Hc. unfold tab_step.
  rewrite (guarded_add_contains (lit "tab-content")),
    (guarded_remove_contains (lit "tab-content")), Hc by differ.
  destruct found; [apply contains_add_same | apply contains_remove_same].
Qed.

Lemma tab_click_element i doc button k e' :
  nth_error doc i = Some button ->
  nth_error (document_after (tab_click i doc)) k = Some e' ->
  exists e,
    nth_error doc k = Some e /\
    e' = tab_step (Nat.eqb k i)
           (is_found (getElementById (panel_id button) doc) k) e.
Proof.
  intros Hb Hk. destruct (tab_click_pointwise i doc button Hb) as [Hp _].
  rewrite Hp in Hk. destruct (nth_error doc k) as [e |]; [| discriminate].
  exists e. split; [reflexivity |]. inversion Hk. reflexivity.
Qed.

Lemma is_found_iff target k : is_found target k = true <-> target = Some k.
Proof.
  destruct target as [j |]; simpl; [| split; discriminate].
  rewrite Nat.eqb_eq. split; [intros -> | intro H; inversion H]; reflexivity.
Qed.

(** X11. A click on a tab button that is not itself a panel, and whose
    panel id is not carried by a tab button: afterwards, whether the
    handler completed or threw, the document has the same elements in
    the same order, a tab button is active exactly when it is the clicked
    one, and a panel is active exactly when it is the first element with
    the panel id [data-tab + "-tab"]. *)
Theorem tab_click_selects_one_tab_and_its_panel :
  forall (doc : document) (i : nat) (button : tab_element),
    nth_error doc i = Some button ->
    contains (lit "tab-button") button = true ->
    contains (lit "tab-content") button = false ->
    (forall j e, getElementById (panel_id button) doc = Some j ->
                 nth_error doc j = Some e ->
                 contains (lit "tab-button") e = false) ->
    let doc' := document_after (tab_click i doc) in
    length doc' = length doc /\
    (forall k e', nth_error doc' k = Some e' ->
                  contains (lit "tab-button") e' = true ->
                  (contains (lit "active") e' = true <-> k = i)) /\
    (forall k e', nth_error doc' k = Some e' ->
                  contains (lit "tab-content") e' = true ->
                  (contains (lit "active") e' = true <->
                   getElementById (panel_id button) doc = Some k)).
Proof.
  intros doc i button Hb Htb Htc Htarget doc'.
  destruct (tab_click_pointwise i doc button Hb) as [Hp _].
  fold doc' in Hp.
  split; [| split].
  - destruct (Nat.lt_trichotomy (length doc') (length doc)) as [L | [E | G]];
      [exfalso | exact E | exfalso].
    + pose proof (Hp (length doc')) as H.
      rewrite (proj2 (nth_error_None doc' _)) in H by lia.
      destruct (nth_error doc (length doc')) eqn:E; [discriminate |].
      apply nth_error_None in E. lia.
    + pose proof (Hp (length doc)) as H.
      rewrite (proj2 (nth_error_None doc _)) in H by lia.
      simpl in H. apply nth_error_None in H. lia.
  - intros k e' Hk Hbtn.
    destruct (tab_click_element i doc button k e' Hb Hk) as (e & He & ->).
    rewrite tab_step_contains in Hbtn by differ.
    assert (Hnot : is_found (getElementById (panel_id button) doc) k = false).
    { destruct (is_found (getElementById (panel_id button) doc) k) eqn:F;
        [| reflexivity].
      apply is_found_iff in F. rewrite (Htarget k e F He) in Hbtn.
      discriminate. }
    rewrite Hnot, tab_step_button; [apply Nat.eqb_eq | exact Hbtn |].
    intro Hk'. apply Nat.eqb_eq in Hk'. subst k. congruence.
  - intros k e' Hk Hpanel.
    destruct (tab_click_element i doc button k e' Hb Hk) as (e & He & ->).
    rewrite tab_step_contains in Hpanel by differ.
    rewrite tab_step_panel by exact Hpanel. apply is_found_iff.
Qed.

(** X12. The handler throws exactly when no element has the panel id of
    the clicked button (["null-tab"] when the button has no [data-tab]).
    It throws at its last statement: the clicked button, if it is a tab
    button and no panel, is already active, and no panel is active any
    more. *)
Theorem tab_click_without_panel_throws :
  forall (doc : document) (i : nat) (button : tab_element),
    nth_error doc i = Some button ->
    let doc' := document_after (tab_click i doc) in
    (getElementById (panel_id button) doc = None <->
     tab_click i doc = Threw doc') /\
    (data_tab button = None -> panel_id button = lit "null-tab") /\
    (getElementById (panel_id button) doc = None ->
     (forall k e', nth_error doc' k = Some e' ->
                   contains (lit "tab-content") e' = true ->
                   contains (lit "active") e' = false) /\
     (contains (lit "tab-button") button = true ->
      contains (lit "tab-content") button = false ->
      exists b', nth_error doc' i = Some b' /\
                 contains (lit "active") b' = true)).
Proof.
  intros doc i button Hb doc'.
  destruct (tab_click_pointwise i doc button Hb) as [Hp Hc].
  fold doc' in Hp, Hc.
  split; [| split].
  - rewrite Hc. destruct (getElementById (panel_id button) doc);
      split; intro H; try reflexivity; discriminate H.
  - intro Hd. unfold panel_id. rewrite Hd. reflexivity.
  - intro Hnone. split.
    + intros k e' Hk Hpanel.
      destruct (tab_click_element i doc button k e' Hb Hk) as (e & He & ->).
      rewrite tab_step_contains in Hpanel by differ.
      rewrite tab_step_panel by exact Hpanel. rewrite Hnone. reflexivity.
    + intros Htb Htc. rewrite Hp, Hb, Hnone, Nat.eqb_refl. cbn [option_map is_found].
      eexists. split; [reflexivity |].
      apply tab_step_button; [exact Htb | intros _; exact Htc].
Qed.

(** X13. The handler changes nothing but the [active] token: every
    element keeps its id, its [data-tab] and, in their order, all its
    other class tokens. *)
Theorem tab_click_touches_only_active :
  forall (doc : document) (i : nat),
    let doc' := document_after (tab_click i doc) in
    map elem_id doc' = map elem_id doc /\
    map data_tab doc' = map data_tab doc /\
    map (classList_remove (lit "active")) doc' =
      map (classList_remove (lit "active")) doc.
Proof.
  intros doc i doc'.
  destruct (nth_error doc i) as [button |] eqn:Hb.
  - destruct (tab_click_pointwise i doc button Hb) as [Hp _].
    fold doc' in Hp.
    repeat split; apply nth_error_ext; intro k;
      rewrite !nth_error_map, Hp;
      destruct (nth_error doc k) as [e |]; cbn [option_map]; try reflexivity;
      f_equal; apply tab_step_frame.
  - subst doc'. unfold tab_click. rewrite Hb. repeat split.
Qed.

Lemma tab_click_touches_only_active_ids doc i :
  map elem_id (document_after (tab_click i doc)) = map elem_id doc /\
  map data_tab (document_after (tab_click i doc)) = map data_tab doc.
Proof.
  destruct (nth_error doc i) as [button |] eqn:Hb.
  - destruct (tab_click_pointwise i doc button Hb) as [Hp _].
    split; apply nth_error_ext; intro k;
      rewrite !nth_error_map, Hp;
      destruct (nth_error doc k) as [e |]; cbn [option_map]; try reflexivity;
      f_equal; apply tab_step_frame.
  - unfold tab_click. rewrite Hb. split; reflexivity.
Qed.

Lemma getElementById_ids id doc : forall doc',
  map elem_id doc' = map elem_id doc ->
  getElementById id doc' = getElementById id doc.
Proof.
  induction doc as [| e doc IH]; intros [| e' doc'] H; simpl in *;
    try reflexivity; try discriminate.
  inversion H as [[He Hrest]]. unfold has_id. rewrite He.
  rewrite (IH doc' Hrest). reflexivity.
Qed.

(** A second step makes the first one irrelevant for every element the
    first one could change: a tab button or a panel. *)
Lemma tab_step_absorbs clicked found clicked' found' e :
  (clicked = true -> contains (lit "tab-button") e = true) ->
  (found = true ->
   contains (lit "tab-button") e || contains (lit "tab-content") e = true) ->
  tab_step clicked' found' (tab_step clicked found e) =
  tab_step clicked' found' e.
Proof.
  intros Hc Hf.
  pose proof (tab_step_contains (lit "tab-button") clicked found e
                ltac:(differ)) as Htb.
  pose proof (tab_step_contains (lit "tab-content") clicked found e
                ltac:(differ)) as Htc.
  destruct (tab_step_frame clicked found e) as (_ & _ & Hr).
  destruct (contains (lit "tab-button") e) eqn:Eb.
  - unfold tab_step at 1 3. rewrite Htb, Eb, Hr. reflexivity.
  - destruct (contains (lit "tab-content") e) eqn:Ec.
    + unfold tab_step at 1 3. rewrite Htb, Eb.
      rewrite !(guarded_add_contains (lit "tab-content")), Htc, Ec by differ.
      destruct clicked'; rewrite ?remove_add, Hr; reflexivity.
    + destruct clicked; [specialize (Hc eq_refl); discriminate |].
      destruct found; [specialize (Hf eq_refl); discriminate |].
      unfold tab_step at 2. rewrite Eb, Ec. reflexivity.
Qed.

Lemma panel_id_same e e' : data_tab e = data_tab e' -> panel_id e = panel_id e'.
Proof. intro H. unfold panel_id. rewrite H. reflexivity. Qed.

(** X14. The tabs keep no history: a click on a tab button leaves the
    document a click on it would have left had the preceding click on a
    tab button never happened, provided the element found for the
    preceding button's panel id, if any, is a panel or a tab button. In
    particular a second click on the same tab changes nothing. *)
Theorem last_tab_click_wins :
  forall (doc : document) (i i' : nat) (button button' : tab_element),
    nth_error doc i = Some button ->
    contains (lit "tab-button") button = true ->
    nth_error doc i' = Some button' ->
    (forall j e, getElementById (panel_id button) doc = Some j ->
                 nth_error doc j = Some e ->
                 contains (lit "tab-button") e
                 || contains (lit "tab-content") e = true) ->
    tab_click i' (document_after (tab_click i doc)) = tab_click i' doc.
Proof.
  intros doc i i' button button' Hb Htb Hb' Htarget.
  set (d1 := document_after (tab_click i doc)).
  destruct (tab_click_pointwise i doc button Hb) as [Hp _]. fold d1 in Hp.
  destruct (tab_click_touches_only_active_ids doc i) as [Hids Hdata].
  fold d1 in Hids, Hdata.
  assert (Hb1 : exists b1, nth_error d1 i' = Some b1 /\
                           panel_id b1 = panel_id button').
  { rewrite Hp, Hb'. cbn [option_map]. eexists. split; [reflexivity |].
    apply panel_id_same. apply tab_step_frame. }
  destruct Hb1 as (b1 & Hb1 & Hpanel).
  destruct (tab_click_pointwise i' d1 b1 Hb1) as [Hp1 Hc1].
  destruct (tab_click_pointwise i' doc button' Hb') as [Hp2 Hc2].
  rewrite Hpanel, (getElementById_ids _ doc d1 Hids) in Hp1, Hc1.
  assert (Hsame : document_after (tab_click i' d1) =
                  document_after (tab_click i' doc)).
  { apply nth_error_ext. intro k. rewrite Hp1, Hp2, Hp.
    destruct (nth_error doc k) as [e |] eqn:He; cbn [option_map];
      [| reflexivity].
    f_equal. apply tab_step_absorbs.
    - intro Hk. apply Nat.eqb_eq in Hk. subst k. congruence.
    - intro Hf. apply is_found_iff in Hf. apply (Htarget k e Hf He). }
  rewrite Hc1, Hc2, Hsame. reflexivity.
Qed.

(** ** The further properties at concrete inputs *)

(** A result with a persuasion score of 0. *)
Definition zero_result : AnalysisResult :=
  {| persuasion_score := 0;
     persuasion_label := lit "Not persuasive";
     ethical_score := 55;
     ethical_reflection := lit "Neutral.";
     sentiment := {| polarity := 0; subjectivity := 0 |};
     emotions := [(lit "joy", 100)];
     persuasive_keywords :=
       {| count := 0; by_category := []; words_found := [] |};
     highlighted_text := lit "Plain text here." |}.

Definition fresh_session : session :=
  {| now := example_state; in_flight := 0%nat |}.

(** The user types an acceptable text and clicks. *)
Definition waiting_session : session :=
  run_session example_upper [UserTypes long_enough; UserClicksAnalyze]
    fresh_session.

Lemma successful_attempt_shows_results_witness :
  (10 <= length (trim (textInput_value
                         (ctl (page (type_text long_enough example_state))))))%nat /\
  let final := attempt example_upper [] (Ok (Parsed example_result))
                 (type_text long_enough example_state) in
  resultsSection_hidden (ctl (page final)) = false /\
  persuasionLabel_text (cap (page final)) = lit "Highly persuasive" /\
  next_timer final = 5%nat.
Proof.
  assert (H : (10 <= length (trim (textInput_value
                 (ctl (page (type_text long_enough example_state))))))%nat)
    by (vm_compute; lia).
  split; [exact H |].
  destruct (successful_attempt_shows_results example_upper
              (type_text long_enough example_state) [] example_result H)
    as (Hctl & _ & Hcap & _ & _ & _ & _ & Hn).
  intro final. fold final in Hctl, Hcap, Hn.
  rewrite Hctl, Hcap, Hn. repeat split.
Defined.

Lemma fresh_session_idle : idle fresh_session.
Proof. repeat split. Defined.

Lemma session_has_one_request_at_a_time_witness :
  idle fresh_session /\
  let s := run_session example_upper
             [UserTypes long_enough; UserKeyDown true (lit "Enter");
              UserClicksAnalyze; TimerFires (Timeout 0%nat)]
             fresh_session in
  (in_flight s <= 1)%nat /\
  analyzeBtn_disabled (ctl (page (now s))) = true.
Proof.
  split; [exact fresh_session_idle |].
  intro s.
  destruct (session_has_one_request_at_a_time example_upper
              [UserTypes long_enough; UserKeyDown true (lit "Enter");
               UserClicksAnalyze; TimerFires (Timeout 0%nat)]
              fresh_session fresh_session_idle) as (Hle & Hd & _).
  fold s in Hle, Hd.
  split; [exact Hle |]. apply Hd. vm_compute. reflexivity.
Defined.

Lemma pending_request_ignores_activation_witness :
  busy waiting_session /\
  Forall is_activation [UserClicksAnalyze; UserKeyDown true (lit "Enter")] /\
  run_session example_upper
    [UserClicksAnalyze; UserKeyDown true (lit "Enter")] waiting_session =
  waiting_session.
Proof.
  assert (Hb : busy waiting_session) by (repeat split).
  assert (Ha : Forall is_activation
                 [UserClicksAnalyze; UserKeyDown true (lit "Enter")])
    by (repeat constructor).
  split; [exact Hb |]. split; [exact Ha |].
  exact (pending_request_ignores_activation example_upper _ _ Hb Ha).
Defined.

Lemma session_keeps_one_chart_witness :
  chart_inv (now fresh_session) /\
  (length (live_charts
             (now (run_session example_upper
                     [UserTypes long_enough; UserClicksAnalyze;
                      FetchSettles (Ok (Parsed example_result));
                      UserClicksAnalyze;
                      FetchSettles (Ok (Parsed zero_result))]
                     fresh_session))) <= 1)%nat.
Proof.
  split; [exact example_state_chart_inv |].
  exact (proj2 (session_keeps_one_chart example_upper _ fresh_session
                  example_state_chart_inv)).
Defined.

Lemma unstoppable_tween_outlives_session_witness :
  let s := {| now := displayResults example_upper zero_result example_state;
              in_flight := 0%nat |} in
  lookup 1%nat (intervals (now s)) = Some (tween_at_rest GaugeScore) /\
  never_stops (tween_at_rest GaugeScore) /\
  exists tw',
    lookup 1%nat
      (intervals (now (run_session example_upper
                         [TimerFires (Interval 1%nat); UserTypes long_enough;
                          UserClicksAnalyze;
                          FetchSettles (Ok (Parsed example_result));
                          TimerFires (Interval 1%nat)] s))) = Some tw' /\
    same_course (tween_at_rest GaugeScore) tw'.
Proof.
  intro s.
  assert (Hl : lookup 1%nat (intervals (now s)) = Some (tween_at_rest GaugeScore))
    by reflexivity.
  assert (Hn : never_stops (tween_at_rest GaugeScore)) by (split; reflexivity).
  split; [exact Hl |]. split; [exact Hn |].
  exact (unstoppable_tween_outlives_session example_upper _ s 1%nat
           (tween_at_rest GaugeScore) Hl Hn).
Defined.

Lemma tick_never_passes_target_witness :
  let st := animateGauge 72 example_state in
  let tw := {| element := GaugeScore; current := 0;
               increment := (72 - 0) / (2000 / 16); target := 72 |} in
  lookup 1%nat (intervals st) = Some tw /\
  gaugeScore_text (gau (page (fire_interval 1%nat st))) = [NumberToString 1] /\
  (72 <? current (fst (tick tw)))%float = false.
Proof.
  intros st tw.
  assert (Hl : lookup 1%nat (intervals st) = Some tw) by reflexivity.
  split; [exact Hl |].
  destruct (tick_never_passes_target st 1%nat tw Hl) as (Ht & Hp & _).
  split.
  - etransitivity; [exact Ht | vm_compute; reflexivity].
  - apply Hp. reflexivity.
Defined.

Lemma renders_pile_up_timers_not_charts_witness :
  chart_inv example_state /\
  let st' := render_all example_upper [example_result; zero_result]
               example_state in
  next_timer st' = 10%nat /\
  length (charts st') = 2%nat /\
  live_charts st' = [chart_of example_upper zero_result].
Proof.
  split; [exact example_state_chart_inv |].
  intro st'.
  destruct (renders_pile_up_timers_not_charts example_upper
              [example_result; zero_result] example_state
              example_state_chart_inv) as (_ & _ & _ & Hn & Hc & Hlive).
  fold st' in Hn, Hc, Hlive.
  split; [exact Hn |]. split; [exact Hc |].
  exact (Hlive zero_result [example_result] eq_refl).
Defined.

Lemma tab_click_selects_one_tab_and_its_panel_witness :
  nth_error example_document 1 = Some (example_tab "about" false) /\
  let doc' := document_after (tab_click 1 example_document) in
  length doc' = 5%nat /\
  (forall k e', nth_error doc' k = Some e' ->
                contains (lit "tab-content") e' = true ->
                (contains (lit "active") e' = true <-> Some 4%nat = Some k)).
Proof.
  split; [reflexivity |].
  intro doc'.
  assert (Htarget : forall j e,
             getElementById (panel_id (example_tab "about" false))
               example_document = Some j ->
             nth_error example_document j = Some e ->
             contains (lit "tab-button") e = false).
  { intros j e Hj He. vm_compute in Hj. inversion Hj; subst j.
    vm_compute in He. inversion He; subst e. reflexivity. }
  destruct (tab_click_selects_one_tab_and_its_panel example_document 1
              (example_tab "about" false) eq_refl eq_refl eq_refl Htarget)
    as (Hlen & _ & Hpanels).
  split; [exact Hlen | exact Hpanels].
Defined.

Lemma tab_click_without_panel_throws_witness :
  nth_error example_document 2 = Some (example_tab "help" false) /\
  tab_click 2 example_document =
    Threw (document_after (tab_click 2 example_document)) /\
  forall k e',
    nth_error (document_after (tab_click 2 example_document)) k = Some e' ->
    contains (lit "tab-content") e' = true ->
    contains (lit "active") e' = false.
Proof.
  split; [reflexivity |].
  destruct (tab_click_without_panel_throws example_document 2
              (example_tab "help" false) eq_refl) as (Hthrow & _ & Hnone).
  split; [apply Hthrow; reflexivity |].
  exact (proj1 (Hnone eq_refl)).
Defined.

Lemma last_tab_click_wins_witness :
  nth_error example_document 2 = Some (example_tab "help" false) /\
  contains (lit "tab-button") (example_tab "help" false) = true /\
  nth_error example_document 0 = Some (example_tab "analyze" true) /\
  tab_click 0 (document_after (tab_click 2 example_document)) =
  tab_click 0 example_document.
Proof.
  split; [reflexivity |]. split; [reflexivity |]. split; [reflexivity |].
  apply (last_tab_click_wins example_document 2 0
           (example_tab "help" false) (example_tab "analyze" true)
           eq_refl eq_refl eq_refl).
  intros j e Hj. vm_compute in Hj. discriminate Hj.
Defined.

(** ** Requests and results over a session *)

Section Accounting.

Variable unicode_upper : code_unit -> jsstring.

Definition is_fetch (e : effect) : bool :=
  match e with Fetch _ => true | _ => false end.

Definition requests (st : state) : nat := length (filter is_fetch (log st)).

(** An error report: a [console.error], or a notice other than the
    validation notice. *)
Definition is_error_report (e : effect) : bool :=
  match e with
  | ConsoleError _ _ => true
  | Alert message => negb (jsstring_eqb message validation_notice)
  | Fetch _ => false
  end.

Definition error_reports (st : state) : list effect :=
  filter is_error_report (log st).

(** The message of the error the [try] block throws on an outcome, or
    [None] when the render completes. *)
Definition settlement_error (o : fetch_outcome) : option jsstring :=
  match o with
  | OkLoose body type_error =>
      if render_throws body then Some type_error else None
  | _ => thrown_message o
  end.

(** What the [catch] block adds to the log for an outcome. *)
Definition error_report (o : fetch_outcome) : list effect :=
  match settlement_error o with
  | Some message => [ConsoleError (lit "Error:") message;
                     Alert (lit "Error: " ++ message)]
  | None => []
  end.

(** The settlement reaches [new Chart]. *)
Definition creates_chart (o : fetch_outcome) : bool :=
  match o with
  | Ok (Parsed _) => true
  | OkLoose (Loose r) _ =>
      negb (sentiment_throws (loose_sentiment_part r))
      && negb (emotions_throw (loose_emotions_part r))
  | _ => false
  end.

(** The outcome an event settles a pending request with, if it does. *)
Definition settled_by (e : page_event) (s : session) : list fetch_outcome :=
  match e with
  | FetchSettles o => match in_flight s with
                      | O => []
                      | S _ => [o]
                      end
  | _ => []
  end.

(** The outcomes the handler was resumed with over a run, in order. *)
Fixpoint handled (es : list page_event) (s : session) : list fetch_outcome :=
  match es with
  | [] => []
  | e :: es => settled_by e s ++ handled es (step unicode_upper e s)
  end.

Lemma try_block_error o st :
  snd (try_block unicode_upper o st) = settlement_error o.
Proof.
  destruct o as [m | [m | [[| c s] |]] | [m | data] | [m | | m] | [| r] m];
    try reflexivity.
  unfold try_block, settlement_error.
  destruct (displayResults_loose_frame unicode_upper r
              (with_page (set_results_hidden false)
                 (with_page (set_spinner_hidden true) st))) as (_ & _ & Hsnd).
  destruct (displayResults_loose unicode_upper r _) as [st' threw].
  cbn [snd] in Hsnd. subst threw.
  destruct (render_throws (Loose r)); reflexivity.
Qed.

Lemma resume_log o st :
  log (resume unicode_upper o st) = log st ++ error_report o.
Proof.
  destruct o as [m | [m | [[| c s] |]] | [m | data] | [m | | m] | [| r] m];
    try (unfold error_report; simpl; rewrite <- ?app_assoc; reflexivity).
  - unfold error_report. simpl. rewrite app_nil_r. reflexivity.
  - unfold resume, try_block, error_report, settlement_error.
    destruct (displayResults_loose_frame unicode_upper r
                (with_page (set_results_hidden false)
                   (with_page (set_spinner_hidden true) st)))
      as (_ & Hlog & Hsnd).
    destruct (displayResults_loose unicode_upper r _) as [st' threw].
    cbn [fst snd] in Hlog, Hsnd. subst threw.
    destruct (render_throws (Loose r)); simpl;
      rewrite Hlog, <- ?app_assoc, ?app_nil_r; reflexivity.
Qed.

Lemma error_alert_is_report message :
  is_error_report (Alert (lit "Error: " ++ message)) = true.
Proof.
  unfold is_error_report, jsstring_eqb.
  destruct (list_eq_dec N.eq_dec (lit "Error: " ++ message) validation_notice)
    as [E |]; [| reflexivity].
  vm_compute in E. discriminate E.
Qed.

Lemma error_report_kept o :
  filter is_error_report (error_report o) = error_report o /\
  filter is_fetch (error_report o) = [].
Proof.
  unfold error_report. destruct (settlement_error o) as [message |];
    [| split; reflexivity].
  split; [| reflexivity].
  cbn [filter]. rewrite error_alert_is_report. reflexivity.
Qed.

Lemma displayResults_loose_charts_length r st :
  length (charts (fst (displayResults_loose unicode_upper r st))) =
  (length (charts st) +
   if negb (sentiment_throws (loose_sentiment_part r))
      && negb (emotions_throw (loose_emotions_part r))
   then 1 else 0)%nat.
Proof.
  unfold displayResults_loose.
  destruct (loose_sentiment_part r); try (simpl; lia).
  destruct (loose_emotions_part r) as [| e].
  - simpl. destruct (emotionChart st); rewrite ?destroy_length; lia.
  - assert (H : length (charts (displayEmotionChart unicode_upper e st)) =
                S (length (charts st))).
    { unfold displayEmotionChart. simpl. rewrite length_app. simpl.
      destruct (emotionChart st); rewrite ?destroy_length; lia. }
    destruct (loose_keywords_part r); simpl in *; lia.
Qed.

Lemma resume_charts_length o st :
  length (charts (resume unicode_upper o st)) =
  (length (charts st) + if creates_chart o then 1 else 0)%nat.
Proof.
  destruct o as [m | [m | [[| c s] |]] | [m | data] | [m | | m] | [| r] m];
    try (simpl; lia).
  - change (charts (resume unicode_upper (Ok (Parsed data)) st))
      with (charts (displayResults unicode_upper data st)).
    rewrite displayResults_charts_length. simpl. lia.
  - unfold resume, try_block, creates_chart.
    pose proof (displayResults_loose_charts_length r
                  (with_page (set_results_hidden false)
                     (with_page (set_spinner_hidden true) st))) as H.
    destruct (displayResults_loose unicode_upper r _) as [st' threw].
    simpl in H. destruct threw; exact H.
Qed.

Lemma resume_accounts o st :
  requests (resume unicode_upper o st) = requests st /\
  error_reports (resume unicode_upper o st) =
    error_reports st ++ error_report o.
Proof.
  destruct (error_report_kept o) as [Hk Hf].
  unfold requests, error_reports. rewrite resume_log, !filter_app, Hk, Hf.
  rewrite app_nil_r. split; reflexivity.
Qed.

Lemma activate_accounts s :
  (requests (now (activate s)) + in_flight s =
   requests (now s) + in_flight (activate s))%nat /\
  error_reports (now (activate s)) = error_reports (now s) /\
  charts (now (activate s)) = charts (now s).
Proof.
  unfold activate.
  destruct (analyzeBtn_disabled (ctl (page (now s))));
    [repeat split; lia |].
  destruct (Nat.lt_ge_cases
              (length (trim (textInput_value (ctl (page (now s)))))) 10)
    as [L | G].
  - rewrite (click_rejects _ L). unfold requests, error_reports. simpl.
    rewrite !filter_app. simpl.
    replace (jsstring_eqb validation_notice validation_notice) with true
      by (vm_compute; reflexivity).
    simpl. rewrite !app_nil_r. repeat split; lia.
  - rewrite (click_accepts _ G). unfold requests, error_reports. simpl.
    rewrite !filter_app, length_app. simpl. rewrite app_nil_r.
    repeat split; lia.
Qed.

Lemma step_accounts e s :
  (requests (now (step unicode_upper e s)) + in_flight s =
   requests (now s) + in_flight (step unicode_upper e s)
   + length (settled_by e s))%nat /\
  error_reports (now (step unicode_upper e s)) =
    error_reports (now s) ++ flat_map error_report (settled_by e s) /\
  length (charts (now (step unicode_upper e s))) =
    (length (charts (now s))
     + length (filter creates_chart (settled_by e s)))%nat.
Proof.
  assert (Hsame : forall s' : session,
             (requests (now s') + in_flight s =
              requests (now s) + in_flight s')%nat ->
             error_reports (now s') = error_reports (now s) ->
             charts (now s') = charts (now s) ->
             (requests (now s') + in_flight s =
              requests (now s) + in_flight s' + length (@nil fetch_outcome))%nat /\
             error_reports (now s') =
               error_reports (now s) ++ flat_map error_report [] /\
             length (charts (now s')) =
               (length (charts (now s))
                + length (filter creates_chart []))%nat).
  { intros s' Hr He Hc. cbn [flat_map filter length].
    rewrite He, Hc, app_nil_r. repeat split; lia. }
  destruct e as [| ctrlKey key | value | ev | o]; cbn [step settled_by].
  - destruct (activate_accounts s) as (Hr & He & Hc).
    apply Hsame; assumption.
  - unfold keydown. destruct (ctrlKey && jsstring_eqb key (lit "Enter")).
    + destruct (activate_accounts s) as (Hr & He & Hc).
      apply Hsame; assumption.
    + apply Hsame; reflexivity.
  - apply Hsame; reflexivity.
  - destruct (fire_frame ev (now s)) as (_ & _ & _ & _ & Hc & Hl & _).
    apply Hsame; unfold requests, error_reports; cbn [now in_flight];
      rewrite ?Hc, ?Hl; reflexivity.
  - destruct (in_flight s) as [| n] eqn:En.
    + cbn [flat_map filter length]. rewrite app_nil_r.
      repeat split; lia.
    + destruct (resume_accounts o (now s)) as [Hr He].
      cbn [now in_flight flat_map filter length].
      rewrite Hr, He, resume_charts_length, app_nil_r.
      destruct (creates_chart o); cbn [length]; repeat split; lia.
Qed.

Lemma completed_render_creates_chart o :
  settlement_error o = None -> creates_chart o = true.
Proof.
  destruct o as [m | [m | [[| c s] |]] | [m | data] | [m | | m] | [| r] m];
    simpl; intro H; try discriminate H; try reflexivity.
  destruct (sentiment_throws (loose_sentiment_part r)); [discriminate H |].
  destruct (emotions_throw (loose_emotions_part r)); [discriminate H |].
  reflexivity.
Qed.

(** X15. Every request is accounted for. Over any sequence of events
    from any state: the requests issued during the run are as many as
    the pending ones gained plus the settlements handled; the error
    reports added to the log are, in the order of the settlements, one
    [console.error] followed by one "Error: " notice for each handled
    settlement whose [try] block threw, and nothing for one whose render
    completed; one chart instance is added for each handled settlement
    that reached [new Chart]; and a render that completes does reach
    it. *)
Theorem every_request_is_accounted_for :
  forall (es : list page_event) (s0 : session),
    let s := run_session unicode_upper es s0 in
    (requests (now s) + in_flight s0 =
     requests (now s0) + in_flight s + length (handled es s0))%nat /\
    error_reports (now s) =
      error_reports (now s0) ++ flat_map error_report (handled es s0) /\
    length (charts (now s)) =
      (length (charts (now s0))
       + length (filter creates_chart (handled es s0)))%nat /\
    (forall o, settlement_error o = None -> creates_chart o = true).
Proof.
  intros es s0 s.
  assert (H : (requests (now s) + in_flight s0 =
               requests (now s0) + in_flight s + length (handled es s0))%nat /\
              error_reports (now s) =
                error_reports (now s0) ++ flat_map error_report (handled es s0) /\
              length (charts (now s)) =
                (length (charts (now s0))
                 + length (filter creates_chart (handled es s0)))%nat).
  { subst s. revert s0. induction es as [| e es IH]; intro s0.
    - simpl. rewrite app_nil_r. repeat split; lia.
    - destruct (step_accounts e s0) as (Sr & Se & Sc).
      destruct (IH (step unicode_upper e s0)) as (Ir & Ie & Ic).
      cbn [run_session fold_left handled].
      change (fold_left (fun s e => step unicode_upper e s) es
                (step unicode_upper e s0))
        with (run_session unicode_upper es (step unicode_upper e s0)).
      rewrite Ie, Se, Ic, Sc, flat_map_app, filter_app, !length_app,
        <- app_assoc.
      repeat split; lia. }
  destruct H as (Hr & He & Hc).
  repeat split; try assumption. apply completed_render_creates_chart.
Qed.

(** *** What a visible results section shows *)

(** The captions, the keyword panel and the chart are those of [data]. *)
Definition shows_data (data : AnalysisResult) (st : state) : Prop :=
  cap (page st) =
    {| persuasionLabel_text := persuasion_label data;
       ethicalReflection_text := ethical_reflection data;
       highlightedText_html := highlighted_text data |} /\
  kwv (page st) = kwv (page (displayKeywords (persuasive_keywords data) st)) /\
  shown_chart st = Some (chart_of unicode_upper data).

(** The settlement reveals the results section: the response was ok and
    its body parsed. *)
Definition reveals (o : fetch_outcome) : bool :=
  match o with
  | Ok (Parsed _) | OkLoose _ _ => true
  | _ => false
  end.

(** The data of an outcome whose render completes. *)
Definition rendered_data (o : fetch_outcome) : option AnalysisResult :=
  match o with
  | Ok (Parsed data) => Some data
  | OkLoose (Loose r) _ =>
      match loose_sentiment_part r, loose_emotions_part r,
            loose_keywords_part r with
      | GoodSentiment s, GoodEmotions e, GoodKeywords k =>
          Some {| persuasion_score := loose_persuasion_score r;
                  persuasion_label := loose_persuasion_label r;
                  ethical_score := loose_ethical_score r;
                  ethical_reflection := loose_ethical_reflection r;
                  sentiment := s;
                  emotions := e;
                  persuasive_keywords := k;
                  highlighted_text := loose_highlighted_text r |}
      | _, _, _ => None
      end
  | _ => None
  end.

(** The last of the outcomes that revealed the results section, or
    [before] when none did. *)
Definition last_revealing (os : list fetch_outcome)
    (before : option fetch_outcome) : option fetch_outcome :=
  fold_left (fun acc o => if reveals o then Some o else acc) os before.

(** A visible results section is due to the outcome [lr], and shows its
    data when its render completed. *)
Definition shows_response (lr : option fetch_outcome) (st : state) : Prop :=
  resultsSection_hidden (ctl (page st)) = false ->
  exists o, lr = Some o /\
            forall data, rendered_data o = Some data -> shows_data data st.

Lemma shows_response_same lr st st' :
  resultsSection_hidden (ctl (page st')) = resultsSection_hidden (ctl (page st)) ->
  cap (page st') = cap (page st) -> kwv (page st') = kwv (page st) ->
  charts st' = charts st -> emotionChart st' = emotionChart st ->
  shows_response lr st -> shows_response lr st'.
Proof.
  intros Hr Hc Hk Hch He H Hvis. rewrite Hr in Hvis.
  destruct (H Hvis) as (o & Ho & Hshows). exists o. split; [exact Ho |].
  intros data Hd. destruct (Hshows data Hd) as (D1 & D2 & D3).
  unfold shows_data, shown_chart in *. rewrite Hc, Hk, Hch, He.
  repeat split; assumption.
Qed.

Lemma activate_shows lr s :
  shows_response lr (now s) -> shows_response lr (now (activate s)).
Proof.
  unfold activate. intro H.
  destruct (analyzeBtn_disabled (ctl (page (now s)))); [exact H |].
  destruct (Nat.lt_ge_cases
              (length (trim (textInput_value (ctl (page (now s)))))) 10)
    as [L | G].
  - rewrite (click_rejects _ L). simpl.
    eapply shows_response_same; [| | | | | exact H]; reflexivity.
  - rewrite (click_accepts _ G). simpl. intro Hvis. discriminate Hvis.
Qed.

Lemma rendered_data_render r message data st :
  rendered_data (OkLoose (Loose r) message) = Some data ->
  displayResults_loose unicode_upper r st =
    (displayResults unicode_upper data st, false).
Proof.
  destruct r as [ps pl es er s e k ht]. simpl.
  destruct s; try discriminate. destruct e; try discriminate.
  destruct k; try discriminate.
  intro H. inversion H. reflexivity.
Qed.

Lemma resume_shows o st :
  resultsSection_hidden (ctl (page st)) = true ->
  shows_response (if reveals o then Some o else None)
    (resume unicode_upper o st).
Proof.
  intro Hhidden. destruct (thrown_message o) as [message |] eqn:Hthrown.
  - unfold resume. rewrite (try_block_throws unicode_upper o st message Hthrown).
    intro Hvis. simpl in Hvis. rewrite Hhidden in Hvis. discriminate Hvis.
  - destruct o as [m | [m | [[| c t] |]] | [m | data] | [m | | m] | body m];
      try discriminate Hthrown.
    + intros _. exists (Ok (Parsed data)). split; [reflexivity |].
      intros d Hd. inversion Hd; subst d.
      split; [reflexivity |]. split; [reflexivity |].
      exact (displayResults_shown unicode_upper data
               (with_page (set_results_hidden false)
                  (with_page (set_spinner_hidden true) st))).
    + intros _. exists (OkLoose body m). split; [reflexivity |].
      intros d Hd. destruct body as [| r]; [discriminate Hd |].
      unfold resume, try_block.
      rewrite (rendered_data_render r m d _ Hd).
      split; [reflexivity |]. split; [reflexivity |].
      exact (displayResults_shown unicode_upper d
               (with_page (set_results_hidden false)
                  (with_page (set_spinner_hidden true) st))).
Qed.

Lemma step_shows e s lr :
  idle s \/ busy s ->
  shows_response lr (now s) ->
  shows_response (last_revealing (settled_by e s) lr)
    (now (step unicode_upper e s)).
Proof.
  intros Hib H. destruct e as [| ctrlKey key | value | ev | o];
    cbn [step settled_by last_revealing fold_left].
  - apply activate_shows. exact H.
  - unfold keydown. destruct (ctrlKey && jsstring_eqb key (lit "Enter"));
      [apply activate_shows |]; exact H.
  - eapply shows_response_same; [| | | | | exact H]; reflexivity.
  - destruct (fire_frame ev (now s)) as (Hctl & Hcap & Hkwv & He & Hc & _).
    eapply shows_response_same; [| | | | | exact H]; try assumption.
    cbn [now]. rewrite Hctl. reflexivity.
  - destruct (in_flight s) as [| n] eqn:En; [exact H |].
    cbn [fold_left now].
    destruct Hib as [(Hn & _) | (_ & _ & _ & Hhidden)]; [congruence |].
    pose proof (resume_shows o (now s) Hhidden) as R.
    destruct (reveals o); [exact R |].
    intro Hvis. destruct (R Hvis) as (o' & Ho' & _). discriminate Ho'.
Qed.

Lemma run_shows es : forall s lr,
  idle s \/ busy s ->
  shows_response lr (now s) ->
  shows_response (last_revealing (handled es s) lr)
    (now (run_session unicode_upper es s)).
Proof.
  induction es as [| e es IH]; intros s lr Hib H; [exact H |].
  cbn [handled run_session fold_left]. unfold last_revealing.
  rewrite fold_left_app.
  apply (IH (step unicode_upper e s)).
  - apply step_idle_or_busy. exact Hib.
  - apply step_shows; assumption.
Qed.

Lemma last_revealing_reveals os : forall before o,
  last_revealing os before = Some o ->
  before = Some o \/ reveals o = true.
Proof.
  induction os as [| o' os IH]; intros before o H; [left; exact H |].
  cbn [last_revealing fold_left] in H.
  destruct (IH _ o H) as [E | R]; [| right; exact R].
  destruct (reveals o') eqn:Ro'; [| left; exact E].
  inversion E; subst o'. right. exact Ro'.
Qed.

Lemma completed_render_has_data o :
  reveals o = true -> settlement_error o = None ->
  exists data, rendered_data o = Some data.
Proof.
  destruct o as [m | [m | [[| c s] |]] | [m | data] | [m | | m] | [| r] m];
    simpl; intros Hr He; try discriminate.
  - exists data. reflexivity.
  - destruct (loose_sentiment_part r); try discriminate He.
    destruct (loose_emotions_part r); try discriminate He.
    destruct (loose_keywords_part r); try discriminate He.
    eexists. reflexivity.
Qed.

(** X16. From an idle page whose results section is hidden, after any
    sequence of events: when the results section is visible, one
    handled settlement revealed it, the last one with an ok response
    and a body that parsed; if the render of that response completed,
    the three captions, the keyword panel and the chart are all those of
    that response's data, and nothing of an earlier response remains. A
    render that does not throw is one that completed on such data. *)
Theorem visible_results_come_from_one_response :
  forall (es : list page_event) (s0 : session),
    idle s0 ->
    resultsSection_hidden (ctl (page (now s0))) = true ->
    let s := run_session unicode_upper es s0 in
    resultsSection_hidden (ctl (page (now s))) = false ->
    exists o,
      last_revealing (handled es s0) None = Some o /\
      (forall data, rendered_data o = Some data -> shows_data data (now s)) /\
      (settlement_error o = None -> exists data, rendered_data o = Some data).
Proof.
  intros es s0 Hidle Hhidden s Hvis.
  assert (H0 : shows_response None (now s0)).
  { intro V. rewrite Hhidden in V. discriminate V. }
  destruct (run_shows es s0 None (or_introl Hidle) H0 Hvis)
    as (o & Ho & Hshows).
  exists o. split; [exact Ho |]. split; [exact Hshows |].
  destruct (last_revealing_reveals _ _ _ Ho) as [E | R]; [discriminate E |].
  apply completed_render_has_data. exact R.
Qed.

End Accounting.

(** A request whose render throws after the chart was made: one request,
    one error report and one chart. *)
Definition keywords_missing : fetch_outcome :=
  OkLoose
    (Loose {| loose_persuasion_score := 72;
              loose_persuasion_label := lit "Highly persuasive";
              loose_ethical_score := 100;
              loose_ethical_reflection := lit "Balanced framing.";
              loose_sentiment_part := GoodSentiment (sentiment example_result);
              loose_emotions_part := GoodEmotions (emotions example_result);
              loose_keywords_part := NoKeywords;
              loose_highlighted_text := lit "undefined" |})
    (lit "Cannot read properties of undefined (reading 'count')").

Lemma every_request_is_accounted_for_witness :
  let es := [UserTypes long_enough; UserClicksAnalyze;
             FetchSettles keywords_missing;
             UserKeyDown true (lit "Enter");
             FetchSettles (Ok (Parsed example_result));
             UserClicksAnalyze] in
  let s := run_session example_upper es fresh_session in
  handled example_upper es fresh_session =
    [keywords_missing; Ok (Parsed example_result)] /\
  requests (now s) = 3%nat /\ in_flight s = 1%nat /\
  length (charts (now s)) = 2%nat /\
  error_reports (now s) =
    [ConsoleError (lit "Error:")
       (lit "Cannot read properties of undefined (reading 'count')");
     Alert (lit "Error: Cannot read properties of undefined (reading 'count')")].
Proof.
  intros es s.
  assert (Hh : handled example_upper es fresh_session =
               [keywords_missing; Ok (Parsed example_result)])
    by (vm_compute; reflexivity).
  destruct (every_request_is_accounted_for example_upper es fresh_session)
    as (Hr & He & Hc & _).
  fold s in Hr, He, Hc. rewrite Hh in Hr, He, Hc.
  split; [exact Hh |].
  assert (Hn : in_flight s = 1%nat) by (vm_compute; reflexivity).
  rewrite Hn in Hr.
  split; [change (requests (now fresh_session)) with 0%nat in Hr;
          change (in_flight fresh_session) with 0%nat in Hr;
          cbn [length] in Hr; lia |].
  split; [exact Hn |].
  split; [exact Hc |].
  exact He.
Defined.

Lemma visible_results_come_from_one_response_witness :
  idle fresh_session /\
  resultsSection_hidden (ctl (page (now fresh_session))) = true /\
  let s := run_session example_upper
             [UserTypes long_enough; UserClicksAnalyze;
              FetchSettles keywords_missing;
              UserClicksAnalyze;
              FetchSettles (Ok (Parsed example_result));
              TimerFires (Interval 1%nat); UserTypes (lit "short")]
             fresh_session in
  resultsSection_hidden (ctl (page (now s))) = false /\
  shows_data example_upper example_result (now s).
Proof.
  assert (H0 : idle fresh_session) by (repeat split).
  split; [exact H0 |]. split; [reflexivity |]. intro s.
  assert (Hvis : resultsSection_hidden (ctl (page (now s))) = false)
    by (vm_compute; reflexivity).
  split; [exact Hvis |].
  destruct (visible_results_come_from_one_response example_upper _
              fresh_session H0 eq_refl Hvis) as (o & Ho & Hshows & _).
  assert (Hl : last_revealing
                 (handled example_upper
                    [UserTypes long_enough; UserClicksAnalyze;
                     FetchSettles keywords_missing;
                     UserClicksAnalyze;
                     FetchSettles (Ok (Parsed example_result));
                     TimerFires (Interval 1%nat); UserTypes (lit "short")]
                    fresh_session) None =
               Some (Ok (Parsed example_result)))
    by (vm_compute; reflexivity).
  rewrite Hl in Ho. inversion Ho; subst o.
  exact (Hshows example_result eq_refl).
Defined.
